(** * arxiv-mcp-server: local paper store, section segmentation and search

    A shallow embedding of the TypeScript sources

      - [src/utils/fileUtils.ts]       ([sanitizeFilename],
                                        [getArxivIdFromUrl], [formatFileSize])
      - [src/storage/storageManager.ts] ([StorageManager])
      - [src/utils/pdfReader.ts]       ([PdfReader])
      - [src/utils/errors.ts]          (the error classes,
                                        [retryWithBackoff])
      - [src/prompts/promptManager.ts] (the catalog of [PromptManager])
      - [src/index.ts]                 (the handlers of the reading, search,
                                        storage and category tools, and
                                        [formatSearchQuery])

    JavaScript strings are modelled as [string] (sequences of 8-bit code
    units), the [RegExp] engine of the runtime by a backtracking matcher in
    continuation-passing style that follows the ECMAScript matcher
    semantics, the [Map] of the storage manager by an insertion-ordered
    association list, and the file system and the network by an explicit
    [World] that every asynchronous method threads. *)

From Stdlib Require Import String Ascii List ZArith Lia Bool Arith.
From Stdlib Require QArith Qround DecimalString.
From stdpp Require Import base option gmap strings.
Import ListNotations.

Local Open Scope string_scope.
Local Open Scope list_scope.
Local Open Scope nat_scope.

(* ===================================================================== *)
(** * Part I: the JavaScript runtime: strings                            *)
(* ===================================================================== *)

Module JS.

Definition LF : ascii := "010"%char.
Definition nl : string := String LF EmptyString.
Definition dquote : ascii := "034"%char.

Definition code (c : ascii) : nat := nat_of_ascii c.

Definition in_range (lo hi : nat) (c : ascii) : bool :=
  (lo <=? code c) && (code c <=? hi).

(** WhiteSpace and LineTerminator code units below 256: TAB, LF, VT, FF,
    CR, SPACE and NBSP.  This is the set of [\s] and of [trim]. *)
Definition is_white (c : ascii) : bool :=
  in_range 9 13 c || (code c =? 32) || (code c =? 160).

(** LineTerminator code units below 256, the ones [.] skips. *)
Definition is_line_terminator (c : ascii) : bool :=
  (code c =? 10) || (code c =? 13).

Definition is_digit (c : ascii) : bool := in_range 48 57 c.

Definition is_lower (c : ascii) : bool :=
  in_range 97 122 c || (in_range 224 254 c && negb (code c =? 247)).

Definition is_upper (c : ascii) : bool :=
  in_range 65 90 c || (in_range 192 222 c && negb (code c =? 215)).

(** [\w]: the word characters. *)
Definition is_word (c : ascii) : bool :=
  in_range 97 122 c || in_range 65 90 c || is_digit c || (code c =? 95).

(** Canonicalize of the [i] flag (simple upper-casing of one code unit). *)
Definition to_upper (c : ascii) : ascii :=
  if is_lower c then ascii_of_nat (code c - 32) else c.

Definition to_lower (c : ascii) : ascii :=
  if is_upper c then ascii_of_nat (code c + 32) else c.

(** *** String.prototype methods *)

(** [s.split(sep)] for a one-character separator. *)
Fixpoint split (sep : ascii) (s : string) : list string :=
  match s with
  | EmptyString => [EmptyString]
  | String c s' =>
      if Ascii.eqb c sep then EmptyString :: split sep s'
      else match split sep s' with
           | [] => [String c EmptyString]
           | x :: xs => String c x :: xs
           end
  end.

(** [lines.join(sep)]. *)
Fixpoint join (sep : string) (l : list string) : string :=
  match l with
  | [] => EmptyString
  | [x] => x
  | x :: xs => x +:+ sep +:+ join sep xs
  end.

Fixpoint trimStart (s : string) : string :=
  match s with
  | EmptyString => EmptyString
  | String c s' => if is_white c then trimStart s' else s
  end.

Fixpoint trimEnd (s : string) : string :=
  match s with
  | EmptyString => EmptyString
  | String c s' =>
      match trimEnd s' with
      | EmptyString => if is_white c then EmptyString else String c EmptyString
      | t => String c t
      end
  end.

Definition trim (s : string) : string := trimEnd (trimStart s).

(** [s.substring(a, b)]: both ends clamped to the length, swapped when
    out of order. *)
Definition substring (s : string) (a b : nat) : string :=
  let a' := Nat.min a (String.length s) in
  let b' := Nat.min b (String.length s) in
  String.substring (Nat.min a' b') (Nat.max a' b' - Nat.min a' b') s.

(** [s.slice(a)]: the suffix from index [a]. *)
Definition drop (a : nat) (s : string) : string :=
  String.substring a (String.length s - a) s.

(** [s.replace(c, by)] with a one-character STRING pattern: only the first
    occurrence is replaced. *)
Fixpoint replace_first (c : ascii) (by_ : string) (s : string) : string :=
  match s with
  | EmptyString => EmptyString
  | String d s' =>
      if Ascii.eqb d c then by_ +:+ s' else String d (replace_first c by_ s')
  end.

(** [s.includes(t)]. *)
Fixpoint includes (s t : string) : bool :=
  String.prefix t s ||
  match s with
  | EmptyString => false
  | String _ s' => includes s' t
  end.

(** Truthiness of a string: only the empty string is falsy. *)
Definition truthy (s : string) : bool :=
  match s with EmptyString => false | _ => true end.

End JS.

(* ===================================================================== *)
(** * Part II: the JavaScript runtime: regular expressions               *)
(* ===================================================================== *)

Module RegExp.

(** ** Abstract syntax of patterns *)

Inductive ClassItem : Type :=
| CiChar (c : ascii)                 (* a *)
| CiRange (lo hi : ascii)            (* a-z *)
| CiDigit (neg : bool)               (* \d \D *)
| CiSpace (neg : bool)               (* \s \S *)
| CiWord (neg : bool).               (* \w \W *)

Inductive regex : Type :=
| Empty                                             (* empty alternative *)
| Char (c : ascii)                                  (* pattern character *)
| Dot                                               (* . *)
| Class (neg : bool) (items : list ClassItem)       (* [...] [^...] \d \s \w *)
| Seq (a b : regex)                                 (* ab *)
| Alt (a b : regex)                                 (* a|b *)
| Rep (min : nat) (max : option nat) (greedy : bool) (a : regex)
                                                    (* a* a+ a? a{n,m} and lazy *)
| Group (n : nat) (a : regex)                       (* n-th capturing group *)
| Look (neg : bool) (a : regex)                     (* (?=a) (?!a) *)
| Bol                                               (* ^ *)
| Eol                                               (* $ *)
| WordB (neg : bool).                               (* \b \B *)

Record Flags : Type := mkFlags {
  global : bool;        (* g *)
  ignoreCase : bool;    (* i *)
  dotAll : bool         (* s *)
}.

(** A compiled [RegExp] object.  Its mutable [lastIndex] is threaded
    explicitly by [exec]. *)
Record t : Type := mkRegExp {
  source : string;
  ast : regex;
  flags : Flags
}.

(** Captures: group number to (start, end); the head is the latest. *)
Definition caps : Type := list (nat * (nat * nat)).

Fixpoint get_cap (n : nat) (c : caps) : option (nat * nat) :=
  match c with
  | [] => None
  | (m, se) :: c' => if m =? n then Some se else get_cap n c'
  end.

Definition clear_caps (ns : list nat) (c : caps) : caps :=
  filter (fun e => negb (existsb (Nat.eqb (fst e)) ns)) c.

Fixpoint groups_of (r : regex) : list nat :=
  match r with
  | Seq a b | Alt a b => groups_of a ++ groups_of b
  | Rep _ _ _ a | Look _ a => groups_of a
  | Group n a => n :: groups_of a
  | _ => []
  end.

(** ** Character matching *)

Definition item_has (it : ClassItem) (c : ascii) : bool :=
  match it with
  | CiChar a => Ascii.eqb a c
  | CiRange lo hi => JS.in_range (JS.code lo) (JS.code hi) c
  | CiDigit neg => xorb neg (JS.is_digit c)
  | CiSpace neg => xorb neg (JS.is_white c)
  | CiWord neg => xorb neg (JS.is_word c)
  end.

(** The code units whose canonical form is that of [c]. *)
Definition case_variants (c : ascii) : list ascii :=
  [c; JS.to_upper c; JS.to_lower c].

(** CharacterSetMatcher: with [i], some member of the set has the same
    canonical form as the input character. *)
Definition set_has (fl : Flags) (items : list ClassItem) (c : ascii) : bool :=
  if ignoreCase fl
  then existsb (fun it => existsb (item_has it) (case_variants c)) items
  else existsb (fun it => item_has it c) items.

Definition char_matches (fl : Flags) (r : regex) (c : ascii) : bool :=
  match r with
  | Char a => set_has fl [CiChar a] c
  | Dot => dotAll fl || negb (JS.is_line_terminator c)
  | Class neg items => xorb neg (set_has fl items c)
  | _ => false
  end.

(** IsWordChar(e): false outside the input. *)
Definition is_word_at (s : string) (i : Z) : bool :=
  if (i <? 0)%Z then false
  else match String.get (Z.to_nat i) s with
       | Some c => JS.is_word c
       | None => false
       end.

(** ** The backtracking matcher *)

Section Matcher.
Variable fl : Flags.
Variable s : string.

Definition step1 {R : Type} (r : regex) (i : nat) (c : caps)
    (k : nat -> caps -> option R) : option R :=
  match String.get i s with
  | Some ch => if char_matches fl r ch then k (S i) c else None
  | None => None
  end.

(** RepeatMatcher(m, min, max, greedy, x, c) for the body matcher [m];
    [gs] are the capturing groups inside the body, cleared at each
    iteration.  [fuel] bounds the number of iterations. *)
Fixpoint repeat {R : Type}
    (m : nat -> caps -> (nat -> caps -> option R) -> option R)
    (gs : list nat) (greedy : bool) (k : nat -> caps -> option R)
    (fuel : nat) (min : nat) (max : option nat) (i : nat) (c : caps)
    : option R :=
  match fuel with
  | 0 => None
  | S fuel' =>
      match max with
      | Some 0 => k i c
      | _ =>
          let d := fun j c' =>
            if (min =? 0) && (j =? i) then None
            else repeat m gs greedy k fuel' (pred min) (option_map pred max) j c' in
          let c0 := clear_caps gs c in
          if negb (min =? 0) then m i c0 d
          else if greedy then
            match m i c0 d with
            | Some z => Some z
            | None => k i c
            end
          else
            match k i c with
            | Some z => Some z
            | None => m i c0 d
            end
      end
  end.

(** Enough iterations: every iteration either uses up one of the [min]
    mandatory ones or consumes input. *)
Definition repeat_fuel (min i : nat) : nat :=
  S (min + (String.length s - i)).

Fixpoint rmatch (R : Type) (r : regex) (i : nat) (c : caps)
    (k : nat -> caps -> option R) {struct r} : option R :=
  match r with
  | Empty => k i c
  | Char _ | Dot | Class _ _ => step1 r i c k
  | Seq a b => rmatch R a i c (fun j c' => rmatch R b j c' k)
  | Alt a b =>
      match rmatch R a i c k with
      | Some z => Some z
      | None => rmatch R b i c k
      end
  | Rep min max greedy a =>
      repeat (fun j c' k' => rmatch R a j c' k') (groups_of a) greedy k
             (repeat_fuel min i) min max i c
  | Group n a => rmatch R a i c (fun j c' => k j ((n, (i, j)) :: c'))
  | Look neg a =>
      match rmatch caps a i c (fun _ c' => Some c') with
      | Some c' => if neg then None else k i c'
      | None => if neg then k i c else None
      end
  | Bol => if i =? 0 then k i c else None
  | Eol => if i =? String.length s then k i c else None
  | WordB neg =>
      let a := is_word_at s (Z.of_nat i - 1) in
      let b := is_word_at s (Z.of_nat i) in
      if xorb neg (xorb a b) then k i c else None
  end.

(** One match attempt at index [i]: the end index and the captures. *)
Definition match_at (r : regex) (i : nat) : option (nat * caps) :=
  rmatch (nat * caps) r i [] (fun j c => Some (j, c)).

(** Try the start indices [i], [i+1], ... ([n] of them). *)
Fixpoint search_from (r : regex) (n i : nat) : option (nat * nat * caps) :=
  match n with
  | 0 => None
  | S n' =>
      match match_at r i with
      | Some (e, c) => Some (i, e, c)
      | None => search_from r n' (S i)
      end
  end.
End Matcher.

Record MatchResult : Type := mkMatch {
  index : nat;            (* match.index *)
  endIndex : nat;
  captures : caps
}.

(** RegExpBuiltinExec: the result and the new [lastIndex]. *)
Definition exec (re : t) (s : string) (lastIndex : nat)
    : option MatchResult * nat :=
  let g := global (flags re) in
  let start := if g then lastIndex else 0 in
  if String.length s <? start then (None, if g then 0 else lastIndex)
  else
    match search_from (flags re) s (ast re) (S (String.length s - start)) start with
    | Some (i, e, c) => (Some (mkMatch i e c), if g then e else lastIndex)
    | None => (None, if g then 0 else lastIndex)
    end.

(** [re.test(s)] for a regex without the [g] flag. *)
Definition test (re : t) (s : string) : bool :=
  match fst (exec re s 0) with Some _ => true | None => false end.

(** [match[n]]: the text of the n-th group, [None] for undefined. *)
Definition group (s : string) (m : MatchResult) (n : nat) : option string :=
  match n with
  | 0 => Some (JS.substring s (index m) (endIndex m))
  | _ => match get_cap n (captures m) with
         | Some (a, b) => Some (JS.substring s a b)
         | None => None
         end
  end.

(** [s.replace(re, by)] for a regex with the [g] flag and a replacement
    without [$] patterns: after an empty match the scan advances by one
    code unit.  [fuel] is the number of scan steps; [pos] the end of the
    previous match. *)
Fixpoint replace_loop (re : t) (by_ : string) (s : string)
    (fuel pos : nat) : string :=
  match fuel with
  | 0 => JS.drop pos s
  | S fuel' =>
      if String.length s <? pos then EmptyString
      else
        match search_from (flags re) s (ast re) (S (String.length s - pos)) pos with
        | None => JS.drop pos s
        | Some (i, e, _) =>
            JS.substring s pos i +:+ by_ +:+
            (if e =? i
             then JS.substring s i (S i) +:+ replace_loop re by_ s fuel' (S i)
             else replace_loop re by_ s fuel' e)
        end
  end.

Definition replace (re : t) (by_ : string) (s : string) : string :=
  replace_loop re by_ s (String.length s + 2) 0.

(** ** Parsing of pattern text ([new RegExp(source, flags)])

    The supported fragment: alternation, concatenation, the quantifiers
    [*], [+], [?], [{n}], [{n,}], [{n,m}] and their lazy forms, capturing
    and non-capturing groups, lookahead, [^], [$], [\b], [\B], [.],
    character classes with ranges, and the escapes [\d \D \s \S \w \W
    \n \t \r \f \v \0] and escaped punctuation.  [None] stands for a
    pattern outside this fragment: one the constructor rejects with a
    SyntaxError, or one it accepts and that is not described here
    (back-references and legacy octal escapes, named groups, lookbehind,
    quantified lookahead, hexadecimal, control and Unicode escapes,
    escaped letters, and the braces and the closing bracket that the
    constructor takes as plain characters).  Nothing is said of such a
    pattern; a pattern inside the fragment has the meaning the
    constructor gives it. *)

Definition is_syntax_char (c : ascii) : bool :=
  existsb (Ascii.eqb c)
    ["^"; "$"; "\"; "."; "*"; "+"; "?"; "("; ")"; "["; "]"; "{"; "}"; "|"]%char.

Definition is_alnum (c : ascii) : bool :=
  JS.in_range 97 122 c || JS.in_range 65 90 c || JS.is_digit c.

(** A control escape or an identity escape, as one character; [rest]
    is what follows it.  [\0] is NUL only when no digit follows: before
    a digit it starts a legacy octal escape, which is outside the
    fragment. *)
Definition escape_char (c : ascii) (rest : string) : option ascii :=
  if Ascii.eqb c "n" then Some "010"%char
  else if Ascii.eqb c "t" then Some "009"%char
  else if Ascii.eqb c "r" then Some "013"%char
  else if Ascii.eqb c "f" then Some "012"%char
  else if Ascii.eqb c "v" then Some "011"%char
  else if Ascii.eqb c "0" then
    match rest with
    | String d _ => if JS.is_digit d then None else Some "000"%char
    | EmptyString => Some "000"%char
    end
  else if is_alnum c then None
  else Some c.

(** [\d \D \s \S \w \W]. *)
Definition class_escape (c : ascii) : option ClassItem :=
  if Ascii.eqb c "d" then Some (CiDigit false)
  else if Ascii.eqb c "D" then Some (CiDigit true)
  else if Ascii.eqb c "s" then Some (CiSpace false)
  else if Ascii.eqb c "S" then Some (CiSpace true)
  else if Ascii.eqb c "w" then Some (CiWord false)
  else if Ascii.eqb c "W" then Some (CiWord true)
  else None.

(** One class atom: a class escape, or a single character. *)
Definition parse_class_atom (s : string)
    : option ((ClassItem + ascii) * string) :=
  match s with
  | String "\" (String c rest) =>
      match class_escape c with
      | Some it => Some (inl it, rest)
      | None =>
          if Ascii.eqb c "b" then Some (inr "008"%char, rest)
          else match escape_char c rest with
               | Some a => Some (inr a, rest)
               | None => None
               end
      end
  | String "\" EmptyString => None
  | String "]" _ => None
  | String c rest => Some (inr c, rest)
  | EmptyString => None
  end.

(** The items of a class up to the closing bracket. *)
Fixpoint parse_class_items (fuel : nat) (s : string)
    : option (list ClassItem * string) :=
  match fuel with
  | 0 => None
  | S fuel' =>
      match s with
      | String "]" rest => Some ([], rest)
      | _ =>
          match parse_class_atom s with
          | None => None
          | Some (inl it, rest) =>
              match parse_class_items fuel' rest with
              | Some (its, rest') => Some (it :: its, rest')
              | None => None
              end
          | Some (inr lo, String "-" (String "]" rest)) =>
              Some ([CiChar lo; CiChar "-"], rest)
          | Some (inr lo, String "-" rest) =>
              match parse_class_atom rest with
              | Some (inr hi, rest') =>
                  if JS.code hi <? JS.code lo then None
                  else match parse_class_items fuel' rest' with
                       | Some (its, rest'') => Some (CiRange lo hi :: its, rest'')
                       | None => None
                       end
              | _ => None
              end
          | Some (inr lo, rest) =>
              match parse_class_items fuel' rest with
              | Some (its, rest') => Some (CiChar lo :: its, rest')
              | None => None
              end
          end
      end
  end.

Definition parse_class (s : string) : option (regex * string) :=
  let (neg, body) :=
    match s with
    | String "^" rest => (true, rest)
    | _ => (false, s)
    end in
  match parse_class_items (S (String.length body)) body with
  | Some (its, rest) => Some (Class neg its, rest)
  | None => None
  end.

(** Decimal digits. *)
Fixpoint parse_nat (s : string) (acc : option nat) : option nat * string :=
  match s with
  | String c rest =>
      if JS.is_digit c
      then parse_nat rest
             (Some (10 * match acc with Some a => a | None => 0 end
                    + (JS.code c - 48)))
      else (acc, s)
  | EmptyString => (acc, s)
  end.

(** The bounds of a quantifier, if one starts here. *)
Definition parse_bounds (s : string)
    : option (option (nat * option nat) * string) :=
  match s with
  | String "*" rest => Some (Some (0, None), rest)
  | String "+" rest => Some (Some (1, None), rest)
  | String "?" rest => Some (Some (0, Some 1), rest)
  | String "{" rest =>
      match parse_nat rest None with
      | (Some n, String "}" rest') => Some (Some (n, Some n), rest')
      | (Some n, String "," (String "}" rest')) => Some (Some (n, None), rest')
      | (Some n, String "," rest') =>
          match parse_nat rest' None with
          | (Some m, String "}" rest'') =>
              if m <? n then None else Some (Some (n, Some m), rest'')
          | _ => None
          end
      | _ => None
      end
  | _ => Some (None, s)
  end.

Definition parse_quantifier (a : regex) (s : string) : option (regex * string) :=
  match parse_bounds s with
  | None => None
  | Some (None, rest) => Some (a, rest)
  | Some (Some (min, max), String "?" rest) => Some (Rep min max false a, rest)
  | Some (Some (min, max), rest) => Some (Rep min max true a, rest)
  end.

Definition seq (a b : regex) : regex :=
  match b with
  | Empty => a
  | _ => Seq a b
  end.

(** Disjunction, Alternative and Term; [n] counts the capturing groups
    opened so far. *)
Fixpoint parse_disjunction (fuel : nat) (s : string) (n : nat)
    : option (regex * string * nat) :=
  match fuel with
  | 0 => None
  | S fuel' =>
      match parse_alternative fuel' s n with
      | Some (a, String "|" rest, n') =>
          match parse_disjunction fuel' rest n' with
          | Some (b, rest', n'') => Some (Alt a b, rest', n'')
          | None => None
          end
      | other => other
      end
  end
with parse_alternative (fuel : nat) (s : string) (n : nat)
    : option (regex * string * nat) :=
  match fuel with
  | 0 => None
  | S fuel' =>
      match s with
      | EmptyString | String "|" _ | String ")" _ => Some (Empty, s, n)
      | _ =>
          match parse_term fuel' s n with
          | Some (a, rest, n') =>
              match parse_alternative fuel' rest n' with
              | Some (b, rest', n'') => Some (seq a b, rest', n'')
              | None => None
              end
          | None => None
          end
      end
  end
with parse_term (fuel : nat) (s : string) (n : nat)
    : option (regex * string * nat) :=
  let quantified (x : option (regex * string)) (n' : nat) :=
    match x with
    | Some (a, rest) =>
        match parse_quantifier a rest with
        | Some (q, rest') => Some (q, rest', n')
        | None => None
        end
    | None => None
    end in
  let closed (x : option (regex * string * nat)) (f : regex -> regex) :=
    match x with
    | Some (a, String ")" rest, n') => Some (f a, rest, n')
    | _ => None
    end in
  match fuel with
  | 0 => None
  | S fuel' =>
      match s with
      | String "^" rest => Some (Bol, rest, n)
      | String "$" rest => Some (Eol, rest, n)
      | String "\" (String "b" rest) => Some (WordB false, rest, n)
      | String "\" (String "B" rest) => Some (WordB true, rest, n)
      | String "(" (String "?" (String "=" rest)) =>
          closed (parse_disjunction fuel' rest n) (Look false)
      | String "(" (String "?" (String "!" rest)) =>
          closed (parse_disjunction fuel' rest n) (Look true)
      | String "(" (String "?" (String ":" rest)) =>
          match closed (parse_disjunction fuel' rest n) (fun a => a) with
          | Some (a, rest', n') => quantified (Some (a, rest')) n'
          | None => None
          end
      | String "(" (String "?" _) => None
      | String "(" rest =>
          match closed (parse_disjunction fuel' rest (S n)) (Group (S n)) with
          | Some (a, rest', n') => quantified (Some (a, rest')) n'
          | None => None
          end
      | String "." rest => quantified (Some (Dot, rest)) n
      | String "[" rest => quantified (parse_class rest) n
      | String "\" (String c rest) =>
          match class_escape c with
          | Some it => quantified (Some (Class false [it], rest)) n
          | None =>
              match escape_char c rest with
              | Some a => quantified (Some (Char a, rest)) n
              | None => None
              end
          end
      | String c rest =>
          if is_syntax_char c then None
          else quantified (Some (Char c, rest)) n
      | EmptyString => None
      end
  end.

(** The flags [g], [i] and [s], each at most once (a flag given twice
    is a SyntaxError; the other flags are outside the fragment). *)
Definition parse_flags (f : string) : option Flags :=
  let has c := JS.includes f (String c EmptyString) in
  let once c :=
    List.length (List.filter (Ascii.eqb c) (list_ascii_of_string f)) <=? 1 in
  if forallb (fun c => existsb (Ascii.eqb c) ["g"; "i"; "s"]%char)
             (list_ascii_of_string f)
     && once "g"%char && once "i"%char && once "s"%char
  then Some (mkFlags (has "g"%char) (has "i"%char) (has "s"%char))
  else None.

(** [new RegExp(source, flags)] for a pattern and flags of the fragment;
    [None] outside it, where the constructor throws a SyntaxError or
    returns an object that this model does not describe. *)
Definition create (src fl : string) : option t :=
  match parse_flags fl, parse_disjunction (4 * String.length src + 8) src 0 with
  | Some f, Some (r, EmptyString, _) => Some (mkRegExp src r f)
  | _, _ => None
  end.

(** A regular-expression literal of the program text: [/body/flags]. *)
Definition literal (src fl : string) : t :=
  match create src fl with
  | Some re => re
  | None => mkRegExp src (Look true Empty) (mkFlags false false false)
  end.

End RegExp.

(* ===================================================================== *)
(** * Part III: errors, the world and the monad of asynchronous methods  *)
(* ===================================================================== *)

(** ** [src/utils/errors.ts] *)

Module Errors.

Inductive ErrorClass : Type :=
| JsError               (* Error of the runtime *)
| JsSyntaxError         (* SyntaxError of the runtime *)
| SystemError           (* an error of fs or of fetch *)
| ArxivServerErrorC
| NetworkErrorC
| ValidationErrorC
| NotFoundErrorC
| RateLimitErrorC
| StorageErrorC
| PdfParseErrorC.

(** An error object: its class, [message], [code] and [statusCode]. *)
Record t : Type := mkError {
  class : ErrorClass;
  message : string;
  code : option string;
  statusCode : option nat
}.

Definition Error (msg : string) : t := mkError JsError msg None None.
Definition SyntaxError (msg : string) : t := mkError JsSyntaxError msg None None.
Definition System (c msg : string) : t := mkError SystemError msg (Some c) None.

Definition NetworkError (msg : string) : t :=
  mkError NetworkErrorC msg (Some "NETWORK_ERROR") (Some 503).
Definition ValidationError (msg : string) : t :=
  mkError ValidationErrorC msg (Some "VALIDATION_ERROR") (Some 400).
Definition NotFoundError (msg : string) : t :=
  mkError NotFoundErrorC msg (Some "NOT_FOUND") (Some 404).
Definition StorageError (msg : string) : t :=
  mkError StorageErrorC msg (Some "STORAGE_ERROR") (Some 500).
Definition PdfParseError (msg : string) : t :=
  mkError PdfParseErrorC msg (Some "PDF_PARSE_ERROR") (Some 422).

End Errors.

(** ** [src/types/index.ts] *)

Record DownloadedPaper : Type := mkPaper {
  dp_id : string;
  dp_title : string;
  dp_authors : list string;
  dp_downloadDate : string;
  dp_filePath : string;
  dp_fileSize : nat;
  dp_categories : list string;
  dp_abstract : string
}.

(** [PaperContent['sections']]: an object with string values; its own
    properties in the order [Object.entries] lists them (creation order
    for names that are not array indices). *)
Definition Sections : Type := list (string * string).

Record PaperContent : Type := mkContent {
  pc_id : string;
  pc_title : string;
  pc_sections : Sections;
  pc_fullText : string
}.

(** ** Property access on objects and the [Map] class

    Both keep their keys unique and in insertion order: assignment to an
    existing key keeps its place. *)

Module Map.
Section Map.
Context {V : Type}.

Fixpoint get (k : string) (m : list (string * V)) : option V :=
  match m with
  | [] => None
  | (k', v) :: m' => if String.eqb k' k then Some v else get k m'
  end.

Fixpoint set (k : string) (v : V) (m : list (string * V)) : list (string * V) :=
  match m with
  | [] => [(k, v)]
  | (k', v') :: m' =>
      if String.eqb k' k then (k, v) :: m' else (k', v') :: set k v m'
  end.

Definition delete (k : string) (m : list (string * V)) : list (string * V) :=
  List.filter (fun e => negb (String.eqb (fst e) k)) m.

Definition size (m : list (string * V)) : nat := List.length m.

Definition keys (m : list (string * V)) : list string := List.map fst m.

(** The representation invariant: every key occurs once. *)
Definition wf (m : list (string * V)) : Prop := List.NoDup (keys m).
End Map.
End Map.

(** ** The world outside the process *)

(** What [fetch] resolves to. *)
Record Response : Type := mkResponse {
  ok : bool;
  statusText : string;
  buffer : string
}.

Record World : Type := mkWorld {
  STORAGE_DIR : string;
  (** the regular files, path to bytes (the catalog file apart) *)
  files : gmap string string;
  (** the paths the process may neither write nor unlink (EACCES) *)
  readonly : gset string;
  (** the parsed content of METADATA_FILE, [None] while it is absent *)
  metadata_json : option (list (string * DownloadedPaper));
  metadata_writable : bool;
  (** the answer of the network to a GET, absent when the request fails *)
  remote : gmap string Response;
  (** the text the PDF decoder extracts from a byte sequence *)
  pdf_text : gmap string string;
  (** [new Date().toISOString()] *)
  now : string;
  (** log of the URLs fetched and of the paths written, latest last *)
  fetched : list string;
  written : list string
}.

Definition METADATA_FILE (w : World) : string :=
  STORAGE_DIR w +:+ "/metadata.json".

(** The [StorageManager] instance and the world. *)
Record State : Type := mkState {
  world : World;
  metadata : list (string * DownloadedPaper)
}.

Inductive outcome (A : Type) : Type :=
| Return (a : A)
| Throw (e : Errors.t).
Arguments Return {A} a.
Arguments Throw {A} e.

(** An asynchronous method: a state transformer that returns or throws.
    The state reached when an exception is thrown is kept. *)
Definition M (A : Type) : Type := State -> outcome A * State.

Definition ret {A} (a : A) : M A := fun st => (Return a, st).
Definition throw {A} (e : Errors.t) : M A := fun st => (Throw e, st).
Definition bind {A B} (c : M A) (k : A -> M B) : M B :=
  fun st =>
    match c st with
    | (Return a, st') => k a st'
    | (Throw e, st') => (Throw e, st')
    end.
Definition try_catch {A} (c : M A) (h : Errors.t -> M A) : M A :=
  fun st =>
    match c st with
    | (Throw e, st') => h e st'
    | r => r
    end.
Definition gets {A} (f : State -> A) : M A := fun st => (Return (f st), st).
Definition modify (f : State -> State) : M unit := fun st => (Return tt, f st).

Declare Scope async_scope.
Delimit Scope async_scope with async.
Notation "x <- c ;; k" := (bind c (fun x => k))
  (at level 100, c at next level, k at level 200, right associativity)
  : async_scope.
Notation "c ;;; k" := (bind c (fun _ => k))
  (at level 100, k at level 200, right associativity) : async_scope.

Definition set_world (f : World -> World) : State -> State :=
  fun st => mkState (f (world st)) (metadata st).
Definition set_metadata
    (f : list (string * DownloadedPaper) -> list (string * DownloadedPaper))
    : State -> State :=
  fun st => mkState (world st) (f (metadata st)).

(** ** [fs/promises] and [node-fetch] *)

Module fs.
Local Open Scope async_scope.

Definition exists_ (w : World) (p : string) : bool :=
  bool_decide (is_Some (files w !! p)).

Definition locked (w : World) (p : string) : bool :=
  bool_decide (p ∈ readonly w).

(** [fs.access(p)]: resolves when the file exists. *)
Definition access (p : string) : M unit :=
  fun st =>
    if exists_ (world st) p then (Return tt, st)
    else (Throw (Errors.System "ENOENT" "no such file or directory"), st).

(** [fs.unlink(p)]. *)
Definition unlink (p : string) : M unit :=
  fun st =>
    if negb (exists_ (world st) p)
    then (Throw (Errors.System "ENOENT" "no such file or directory"), st)
    else if locked (world st) p
    then (Throw (Errors.System "EACCES" "permission denied"), st)
    else (Return tt,
          set_world (fun w =>
            mkWorld (STORAGE_DIR w) (base.delete p (files w)) (readonly w)
                    (metadata_json w) (metadata_writable w) (remote w)
                    (pdf_text w) (now w) (fetched w) (written w)) st).

(** [fs.writeFile(p, data)] for a path whose directory exists: the
    world has no directories, and the paths written are files of the
    storage directory itself (the file names without a slash) and the
    metadata file. *)
Definition writeFile (p : string) (data : string) : M unit :=
  fun st =>
    if locked (world st) p
    then (Throw (Errors.System "EACCES" "permission denied"), st)
    else (Return tt,
          set_world (fun w =>
            mkWorld (STORAGE_DIR w) (<[p := data]> (files w)) (readonly w)
                    (metadata_json w) (metadata_writable w) (remote w)
                    (pdf_text w) (now w) (fetched w) (written w ++ [p])) st).

(** [fs.readFile(p)]. *)
Definition readFile (p : string) : M string :=
  fun st =>
    match files (world st) !! p with
    | Some data => (Return data, st)
    | None => (Throw (Errors.System "ENOENT" "no such file or directory"), st)
    end.

(** [fs.stat(p)] then [.size]. *)
Definition stat_size (p : string) : M nat :=
  data <- readFile p ;; ret (String.length data).

(** [fetch(url)]: every call is logged. *)
Definition fetch (url : string) : M Response :=
  fun st =>
    let st' := set_world (fun w =>
      mkWorld (STORAGE_DIR w) (files w) (readonly w)
              (metadata_json w) (metadata_writable w) (remote w)
              (pdf_text w) (now w) (fetched w ++ [url]) (written w)) st in
    match remote (world st) !! url with
    | Some r => (Return r, st')
    | None => (Throw (Errors.System "ECONNREFUSED" "request failed"), st')
    end.

End fs.

(** ** [src/utils/fileUtils.ts] *)

Module fileUtils.
Local Open Scope async_scope.

(** The class of characters invalid in file names: the angle brackets,
    the colon, the double quote, both slashes, the bar, the question mark
    and the star. *)
Definition invalid_chars : RegExp.t :=
  RegExp.literal ("[<>:" +:+ String JS.dquote "/\\|?*]") "g".

Definition sanitizeFilename (filename : string) : string :=
  JS.substring
    (RegExp.replace (RegExp.literal "_{2,}" "g") "_"
       (RegExp.replace (RegExp.literal "\s+" "g") "_"
          (RegExp.replace invalid_chars "_" filename)))
    0 200.

(** [writeJsonFile(METADATA_FILE, data)]: the file is rewritten in full;
    a failure is logged and thrown again. *)
Definition writeJsonFile_metadata (data : list (string * DownloadedPaper)) : M unit :=
  fun st =>
    if metadata_writable (world st)
    then (Return tt,
          set_world (fun w =>
            mkWorld (STORAGE_DIR w) (files w) (readonly w)
                    (Some data) (metadata_writable w) (remote w)
                    (pdf_text w) (now w) (fetched w)
                    (written w ++ [METADATA_FILE w])) st)
    else (Throw (Errors.System "EACCES" "permission denied"), st).

(** [readJsonFile(METADATA_FILE)]: [null] on any failure. *)
Definition readJsonFile_metadata : M (option (list (string * DownloadedPaper))) :=
  gets (fun st => metadata_json (world st)).

(** [getFileSize]: 0 when [stat] fails. *)
Definition getFileSize (filePath : string) : M nat :=
  try_catch (fs.stat_size filePath) (fun _ => ret 0).

End fileUtils.

(** ** [src/storage/storageManager.ts] *)

Module StorageManager.
Local Open Scope async_scope.

Record PaperInfo : Type := mkInfo {
  title : string;
  authors : list string;
  categories : list string;
  abstract : string
}.

Definition loadMetadata : M unit :=
  data <- fileUtils.readJsonFile_metadata ;;
  match data with
  | Some entries => modify (set_metadata (fun _ => entries))
  | None => ret tt
  end.

Definition saveMetadata : M unit :=
  data <- gets metadata ;;
  fileUtils.writeJsonFile_metadata data.

(** The template literal of the artifact name,
    [`${arxivId.replace('/', '_')}_${sanitizeFilename(paperInfo.title)}.pdf`]. *)
Definition filename (arxivId : string) (paperTitle : string) : string :=
  JS.replace_first "/" "_" arxivId +:+ "_" +:+
  fileUtils.sanitizeFilename paperTitle +:+ ".pdf".

(** [path.join(STORAGE_DIR, filename)] for a file name without slash:
    [path.join] then has nothing to normalise ([STORAGE_DIR] is itself a
    result of [path.join], and the name, which ends in [.pdf], is
    neither [.] nor [..]).  A file name with slashes may hold empty, [.]
    and [..] segments, which [path.join] resolves; that is not
    described. *)
Definition path_join (dir name : string) : string := dir +:+ "/" +:+ name.

(** The statements of [downloadPaper] after the check for an artifact
    that is already there. *)
Definition download (arxivId pdfUrl : string) (paperInfo : PaperInfo)
    : M DownloadedPaper :=
  (* Download the PDF *)
  response <- fs.fetch pdfUrl ;;
  if negb (ok response)
  then throw (Errors.Error ("Failed to download: " +:+ statusText response))
  else
    let buffer := buffer response in
    (* Create filename *)
    dir <- gets (fun st => STORAGE_DIR (world st)) ;;
    let filePath := path_join dir (filename arxivId (title paperInfo)) in
    (* Save the file *)
    fs.writeFile filePath buffer ;;;
    (* Get file size *)
    fileSize <- fileUtils.getFileSize filePath ;;
    (* Create metadata entry *)
    date <- gets (fun st => now (world st)) ;;
    let downloadedPaper :=
      mkPaper arxivId (title paperInfo) (authors paperInfo) date
              filePath fileSize (categories paperInfo) (abstract paperInfo) in
    (* Update metadata *)
    modify (set_metadata (Map.set arxivId downloadedPaper)) ;;;
    saveMetadata ;;;
    ret downloadedPaper.

(** The [catch] of the method logs the error and throws it again. *)
Definition downloadPaper (arxivId pdfUrl : string) (paperInfo : PaperInfo)
    : M DownloadedPaper :=
  (* Check if already downloaded *)
  existing <- gets (fun st => Map.get arxivId (metadata st)) ;;
  hit <- match existing with
         | Some e =>
             (* Check if file still exists *)
             try_catch (fs.access (dp_filePath e) ;;; ret (Some e))
                       (fun _ => ret None)
         | None => ret None
         end ;;
  match hit with
  | Some e => ret e
  | None => download arxivId pdfUrl paperInfo
  end.

(** The body of the [for ... of this.metadata.entries()] loop: entries
    deleted while the iterator runs are the current ones only, so the
    loop visits every entry present at its start once. *)
Definition list_step (papers : list DownloadedPaper)
    (entry : string * DownloadedPaper) : M (list DownloadedPaper) :=
  let (id, paper) := entry in
  try_catch
    (fs.access (dp_filePath paper) ;;; ret (papers ++ [paper]))
    (fun _ => modify (set_metadata (Map.delete id)) ;;; ret papers).

Fixpoint list_loop (entries : list (string * DownloadedPaper))
    (papers : list DownloadedPaper) : M (list DownloadedPaper) :=
  match entries with
  | [] => ret papers
  | entry :: rest =>
      papers' <- list_step papers entry ;;
      list_loop rest papers'
  end.

Definition listDownloadedPapers : M (list DownloadedPaper) :=
  entries <- gets metadata ;;
  papers <- list_loop entries [] ;;
  (* Save updated metadata if any files were removed *)
  size <- gets (fun st => Map.size (metadata st)) ;;
  (if negb (List.length papers =? size) then saveMetadata else ret tt) ;;;
  ret papers.

Definition deletePaper (arxivId : string) : M bool :=
  paper <- gets (fun st => Map.get arxivId (metadata st)) ;;
  match paper with
  | None => ret false
  | Some paper =>
      try_catch
        (fs.unlink (dp_filePath paper) ;;;
         modify (set_metadata (Map.delete arxivId)) ;;;
         saveMetadata ;;;
         ret true)
        (fun _ => ret false)
  end.

End StorageManager.

(** ** [src/utils/pdfReader.ts] *)

Module PdfReader.
Local Open Scope async_scope.

(** Common section patterns in academic papers. *)
Definition sectionPatterns : list (string * list RegExp.t) :=
  [ ("abstract",     [RegExp.literal "abstract\s*\n" "i";
                      RegExp.literal "summary\s*\n" "i"]);
    ("introduction", [RegExp.literal "introduction\s*\n" "i";
                      RegExp.literal "\n1\.\s*introduction" "i"]);
    ("methodology",  [RegExp.literal "methodology\s*\n" "i";
                      RegExp.literal "methods\s*\n" "i";
                      RegExp.literal "approach\s*\n" "i"]);
    ("results",      [RegExp.literal "results\s*\n" "i";
                      RegExp.literal "findings\s*\n" "i";
                      RegExp.literal "experiments\s*\n" "i"]);
    ("discussion",   [RegExp.literal "discussion\s*\n" "i";
                      RegExp.literal "analysis\s*\n" "i"]);
    ("conclusion",   [RegExp.literal "conclusion\s*\n" "i";
                      RegExp.literal "conclusions\s*\n" "i";
                      RegExp.literal "summary\s*\n" "i"]);
    ("references",   [RegExp.literal "references\s*\n" "i";
                      RegExp.literal "bibliography\s*\n" "i"]) ].

(** The pattern of the fallback for the abstract. *)
Definition abstractPattern : RegExp.t :=
  RegExp.literal
    "abstract[:\s]*(.+?)(?=\n\s*\n|\nintroduction|\n1\.|keywords)" "is".

(** The variables of the line loop. *)
Record Scan : Type := mkScan {
  sections : Sections;
  currentSection : option string;
  currentContent : list string
}.

(** The two nested [for] loops over the table, left by [break] at the
    first pattern that tests the line: the name of its section. *)
Definition matchSection (line : string) : option string :=
  option_map fst
    (List.find (fun section => existsb (fun pattern => RegExp.test pattern line)
                                       (snd section))
               sectionPatterns).

(** Save the section being collected, if there is one with lines. *)
Definition save (st : Scan) : Sections :=
  match currentSection st with
  | Some name =>
      if 0 <? List.length (currentContent st)
      then Map.set name (JS.trim (JS.join JS.nl (currentContent st))) (sections st)
      else sections st
  | None => sections st
  end.

(** One iteration of the loop over the lines. *)
Definition scanLine (st : Scan) (line : string) : Scan :=
  match matchSection line with
  | Some name =>
      (* this line marks the start of a new section *)
      mkScan (save st) (Some name) []
  | None =>
      match currentSection st with
      | Some _ => mkScan (sections st) (currentSection st) (currentContent st ++ [line])
      | None => st
      end
  end.

Definition extractSections (text : string) : Sections :=
  let lines := JS.split JS.LF text in
  let st := List.fold_left scanLine lines (mkScan [] None []) in
  (* Save the last section *)
  let sections := save st in
  (* Try to extract abstract from the beginning if not found *)
  let found := match Map.get "abstract" sections with
               | Some a => JS.truthy a
               | None => false
               end in
  if negb found then
    match fst (RegExp.exec abstractPattern text 0) with
    | Some abstractMatch =>
        match RegExp.group text abstractMatch 1 with
        | Some g => Map.set "abstract" (JS.trim g) sections
        | None => sections
        end
    | None => sections
    end
  else sections.

(** The external decoder [parsePdf]. *)
Definition parsePdf (dataBuffer : string) : M string :=
  fun st =>
    match pdf_text (world st) !! dataBuffer with
    | Some text => (Return text, st)
    | None => (Throw (Errors.Error "Invalid PDF structure"), st)
    end.

Definition readPaperContent (filePath paperId title : string) : M PaperContent :=
  try_catch
    (dataBuffer <- fs.readFile filePath ;;
     fullText <- parsePdf dataBuffer ;;
     let sections := extractSections fullText in
     ret (mkContent paperId title sections fullText))
    (fun error =>
       throw (Errors.Error ("Failed to read PDF content: " +:+ Errors.message error))).

Record SearchMatch : Type := mkSearchMatch {
  text : string;
  position : nat
}.

Record SectionMatches : Type := mkSectionMatches {
  section : string;
  matches : list SearchMatch
}.

(** The [while ((match = searchRegex.exec(sectionContent)) !== null)]
    loop.  [lastIndex] is the one of [searchRegex]; [None] when the loop
    has not ended after [fuel] iterations. *)
Fixpoint scanMatches (fuel : nat) (searchRegex : RegExp.t) (searchTerm : string)
    (sectionContent : string) (lastIndex : nat) (matches : list SearchMatch)
    : option (list SearchMatch * nat) :=
  match fuel with
  | 0 => None
  | S fuel' =>
      match RegExp.exec searchRegex sectionContent lastIndex with
      | (None, lastIndex') => Some (matches, lastIndex')
      | (Some m, lastIndex') =>
          let start := Z.max 0 (Z.of_nat (RegExp.index m) - 50) in
          let end_ := Z.min (Z.of_nat (String.length sectionContent))
                            (Z.of_nat (RegExp.index m)
                             + Z.of_nat (String.length searchTerm) + 50) in
          let context := JS.substring sectionContent (Z.to_nat start) (Z.to_nat end_) in
          scanMatches fuel' searchRegex searchTerm sectionContent lastIndex'
                      (matches ++ [mkSearchMatch context (RegExp.index m)])
      end
  end.

(** The loop over [Object.entries(content.sections)]. *)
Fixpoint searchSections (fuel : nat) (searchRegex : RegExp.t) (searchTerm : string)
    (entries : Sections) (lastIndex : nat) (results : list SectionMatches)
    : option (list SectionMatches) :=
  match entries with
  | [] => Some results
  | (sectionName, sectionContent) :: rest =>
      if negb (JS.truthy sectionContent)
      then searchSections fuel searchRegex searchTerm rest lastIndex results
      else
        match scanMatches fuel searchRegex searchTerm sectionContent lastIndex [] with
        | None => None
        | Some (matches, lastIndex') =>
            searchSections fuel searchRegex searchTerm rest lastIndex'
              (if 0 <? List.length matches
               then results ++ [mkSectionMatches sectionName matches]
               else results)
        end
  end.

(** [searchInPaper], for the terms of the modelled fragment of patterns.
    [None]: no result is given, either because a scanning loop has not
    ended after [fuel] iterations, or because the term lies outside the
    fragment ([RegExp.create] is [None]; the constructor then throws a
    SyntaxError or returns an object that is not described, and nothing
    is said of the call). *)
Definition searchInPaper (fuel : nat) (content : PaperContent)
    (searchTerm : string) (caseSensitive : bool)
    : option (outcome (list SectionMatches)) :=
  let flags := if caseSensitive then "g" else "gi" in
  match RegExp.create searchTerm flags with
  | None => None
  | Some searchRegex =>
      match searchSections fuel searchRegex searchTerm (pc_sections content) 0 [] with
      | Some results => Some (Return results)
      | None => None
      end
  end.

End PdfReader.

(** ** [src/index.ts]: the handlers of the reading tools *)

Module ArxivServer.
Local Open Scope async_scope.

(** The arguments of a tool call; [None] for a missing property. *)
Record Args : Type := mkArgs {
  arxivId : option string;
  searchTerm : option string;
  caseSensitive : option bool
}.

(** [!x] for an optional string. *)
Definition missing (x : option string) : bool :=
  match x with
  | Some s => negb (JS.truthy s)
  | None => true
  end.

Definition text_of (x : option string) : string :=
  match x with Some s => s | None => "undefined" end.

Record ReadOutput : Type := mkReadOutput {
  ro_id : string;
  ro_title : string;
  ro_sections : Sections;
  ro_fullTextLength : nat
}.

Record SearchOutput : Type := mkSearchOutput {
  so_paperId : string;
  so_searchTerm : string;
  so_totalMatches : nat;
  so_results : list PdfReader.SectionMatches
}.

(** [storageManager.listDownloadedPapers()] then [papers.find], then the
    decoding of the artifact: the part the two handlers share. *)
Definition locate (args : Args) : M PaperContent :=
  papers <- StorageManager.listDownloadedPapers ;;
  let paper := List.find (fun p => String.eqb (dp_id p) (text_of (arxivId args))) papers in
  match paper with
  | None =>
      throw (Errors.ValidationError
               ("Paper " +:+ text_of (arxivId args) +:+
                " not found in local storage. Please download it first."))
  | Some paper =>
      PdfReader.readPaperContent (dp_filePath paper) (dp_id paper) (dp_title paper)
  end.

Definition readPaperContent (args : Args) : M ReadOutput :=
  if missing (arxivId args)
  then throw (Errors.ValidationError "arxivId is required")
  else
    content <- locate args ;;
    ret (mkReadOutput (pc_id content) (pc_title content) (pc_sections content)
                      (String.length (pc_fullText content))).

(** [None] when [PdfReader.searchInPaper] gives no result: the search has
    not ended after [fuel] iterations, or the term lies outside the
    modelled fragment of patterns. *)
Definition searchInPaper (fuel : nat) (args : Args)
    : State -> option (outcome SearchOutput * State) :=
  fun st =>
    if missing (arxivId args) || missing (searchTerm args)
    then Some (Throw (Errors.ValidationError "arxivId and searchTerm are required"), st)
    else
      match locate args st with
      | (Throw e, st') => Some (Throw e, st')
      | (Return content, st') =>
          match PdfReader.searchInPaper fuel content (text_of (searchTerm args))
                  (match caseSensitive args with Some b => b | None => false end) with
          | None => None
          | Some (Throw e) => Some (Throw e, st')
          | Some (Return searchResults) =>
              Some (Return (mkSearchOutput
                              (text_of (arxivId args)) (text_of (searchTerm args))
                              (List.fold_left
                                 (fun sum r => sum + List.length (PdfReader.matches r))
                                 searchResults 0)
                              searchResults),
                    st')
          end
      end.

End ArxivServer.

(* ===================================================================== *)
(** * Part IV: notions used in the statements                            *)
(* ===================================================================== *)


(** A syntactic criterion for it: some path through the pattern consumes
    no character. *)
Fixpoint nullable (r : RegExp.regex) : bool :=
  match r with
  | RegExp.Empty => true
  | RegExp.Char _ | RegExp.Dot | RegExp.Class _ _ => false
  | RegExp.Seq a b => nullable a && nullable b
  | RegExp.Alt a b => nullable a || nullable b
  | RegExp.Rep min max _ a =>
      (min =? 0) || match max with Some 0 => true | _ => false end || nullable a
  | RegExp.Group _ a => nullable a
  | RegExp.Look _ _ | RegExp.Bol | RegExp.Eol | RegExp.WordB _ => true
  end.

(** Every match of the pattern contains a line feed. *)
Fixpoint needs_LF (r : RegExp.regex) : bool :=
  match r with
  | RegExp.Char c => Ascii.eqb c JS.LF
  | RegExp.Seq a b => needs_LF a || needs_LF b
  | RegExp.Alt a b => needs_LF a && needs_LF b
  | RegExp.Rep min max _ a =>
      negb (min =? 0) && match max with Some 0 => false | _ => true end && needs_LF a
  | RegExp.Group _ a => needs_LF a
  | _ => false
  end.

(** The regular-expression literals of the program text. *)
Definition literals : list (string * string) :=
  List.map (fun re => (RegExp.source re, "i"))
           (List.concat (List.map snd PdfReader.sectionPatterns)) ++
  [ (RegExp.source PdfReader.abstractPattern, "is");
    (RegExp.source fileUtils.invalid_chars, "g");
    ("\s+", "g"); ("_{2,}", "g") ].

(** The canonical section names. *)
Definition canonicalSections : list string :=
  ["abstract"; "introduction"; "methodology"; "results"; "discussion";
   "conclusion"; "references"].

(** The artifact of a catalog entry is on disk. *)
Definition alive (w : World) (entry : string * DownloadedPaper) : bool :=
  fs.exists_ w (dp_filePath (snd entry)).

(** The entries of the catalog a scan keeps. *)
Definition survivors (st : State) : list (string * DownloadedPaper) :=
  List.filter (alive (world st)) (metadata st).

(** [fs.unlink] of this path fails. *)
Definition unlink_fails (w : World) (p : string) : bool :=
  negb (fs.exists_ w p) || fs.locked w p.

(** The state after [n] more calls of [list()]. *)
Fixpoint after_lists (n : nat) (st : State) : State :=
  match n with
  | 0 => st
  | S n' => after_lists n' (snd (StorageManager.listDownloadedPapers st))
  end.

(** The catalog after the scan of [list()], for what the scan returns. *)
Definition pruned (st : State) : State := mkState (world st) (survivors st).

(** The number of slashes of a string. *)
Fixpoint slashes (s : string) : nat :=
  match s with
  | EmptyString => 0
  | String c s' => (if Ascii.eqb c "/" then 1 else 0) + slashes s'
  end.


(** An example catalog: one paper; its artifact is missing in
    [missing_state], present and protected against deletion in
    [locked_state], present in [stored_state]; the catalog is empty in
    [empty_state]. *)
Definition paper1 : DownloadedPaper :=
  mkPaper "2301.00001" "Attention" ["A. Author"] "2024-01-01T00:00:00.000Z"
          "/srv/storage/2301.00001_Attention.pdf" 1000 ["cs.CL"] "We study.".

Definition example_world (files : gmap string string) (readonly : gset string) : World :=
  mkWorld "/srv/storage" files readonly (Some [("2301.00001", paper1)]) true
          ∅ ∅ "2024-06-01T00:00:00.000Z" [] [].

Definition missing_state : State :=
  mkState (example_world ∅ ∅) [("2301.00001", paper1)].

Definition stored_state : State :=
  mkState (example_world {[ dp_filePath paper1 := "%PDF-1.4" ]} ∅)
          [("2301.00001", paper1)].

Definition locked_state : State :=
  mkState (example_world {[ dp_filePath paper1 := "%PDF-1.4" ]} {[ dp_filePath paper1 ]})
          [("2301.00001", paper1)].


(** The text of the segmentation example: four lines. *)
Definition four_lines : string :=
  "Abstract" +:+ JS.nl +:+ "Foo bar." +:+ JS.nl +:+
  "Introduction" +:+ JS.nl +:+ "Baz qux.".

(** The content of the search example. *)
Definition cat_paper : PaperContent :=
  mkContent "p" "t" [("introduction", "the cat sat on the mat")] "".

(** ** Notions of the proofs *)

(** What a continuation is told about the position it is resumed at:
    not before the start, inside the input, and after the start when
    [strict]. *)
Definition advances (s : string) (strict : bool) (i j : nat) : Prop :=
  i <= j /\ (i <= String.length s -> j <= String.length s) /\
  (strict = true -> i < j).

(** A matcher that resumes its continuation at such positions only. *)
Definition progress {R : Type} (s : string) (strict : bool)
    (m : nat -> RegExp.caps -> (nat -> RegExp.caps -> option R) -> option R)
    : Prop :=
  forall i c k z, m i c k = Some z ->
    exists j c', k j c' = Some z /\ advances s strict i j.

Definition max_open (max : option nat) : bool :=
  match max with Some 0 => false | _ => true end.

(** Two continuations that agree from index [i] on. *)
Definition agree {R : Type} (s : string) (i : nat)
    (k k' : nat -> RegExp.caps -> option R) : Prop :=
  forall j c, i <= j <= String.length s -> k j c = k' j c.

(** A matcher that looks at its continuation from its start on only. *)
Definition local {R : Type} (s : string)
    (m : nat -> RegExp.caps -> (nat -> RegExp.caps -> option R) -> option R) : Prop :=
  forall i c k k', i <= String.length s -> agree s i k k' -> m i c k = m i c k'.

(** The invariant of the loop over the lines. *)
Definition canonical (name : string) : Prop := In name canonicalSections.

Definition scan_inv (st : PdfReader.Scan) : Prop :=
  Forall canonical (Map.keys (PdfReader.sections st)) /\
  (forall name, PdfReader.currentSection st = Some name -> canonical name).



(** The catalog after the loop of [list()] over [entries]. *)
Definition prune (w : World) (entries m : list (string * DownloadedPaper))
    : list (string * DownloadedPaper) :=
  List.fold_left (fun m e => if alive w e then m else Map.delete (fst e) m) entries m.

Definition dead_keys (w : World) (entries : list (string * DownloadedPaper)) : list string :=
  List.map fst (List.filter (fun e => negb (alive w e)) entries).

(* ===================================================================== *)
(** * Part IV (continued): the other functions of the same files         *)
(* ===================================================================== *)

(** ** [src/utils/fileUtils.ts]: identifiers and sizes *)

Module fileUtilsMore.

(** [getArxivIdFromUrl]: the first of the four patterns that matches
    gives the identifier, its first group. *)
Definition idPatterns : list RegExp.t :=
  [ RegExp.literal "arxiv\.org\/abs\/(\d{4}\.\d{4,5})" "";
    RegExp.literal "arxiv\.org\/pdf\/(\d{4}\.\d{4,5})" "";
    RegExp.literal "arxiv\.org\/abs\/([a-z-]+\/\d{7})" "";
    RegExp.literal "arxiv\.org\/pdf\/([a-z-]+\/\d{7})" "" ].

Fixpoint firstMatch (patterns : list RegExp.t) (url : string) : option string :=
  match patterns with
  | [] => None
  | pattern :: rest =>
      match fst (RegExp.exec pattern url 0) with
      | Some m => RegExp.group url m 1
      | None => firstMatch rest url
      end
  end.

Definition getArxivIdFromUrl (url : string) : option string :=
  firstMatch idPatterns url.

Definition units : list string := ["B"; "KB"; "MB"; "GB"].

(** The loop [while (size >= 1024 && unitIndex < units.length - 1)] of
    [formatFileSize].  A byte count is an integer below 2^53, so every
    division by 1024 is exact and [size] is the rational it stands for;
    for larger arguments the definitions below do not describe the
    function. *)
Fixpoint scale (fuel : nat) (size : QArith_base.Q) (unitIndex : nat)
    : QArith_base.Q * nat :=
  match fuel with
  | 0 => (size, unitIndex)
  | S fuel' =>
      if QArith_base.Qle_bool (QArith_base.inject_Z 1024) size
         && (unitIndex <? List.length units - 1)
      then scale fuel' (QArith_base.Qdiv size (QArith_base.inject_Z 1024)) (S unitIndex)
      else (size, unitIndex)
  end.

Definition decimal (n : Z) : string :=
  DecimalString.NilZero.string_of_uint (N.to_uint (Z.to_N n)).

(** [x.toFixed(2)] for [0 <= x < 10^21]: the integer [n] with [n / 100]
    nearest to [x], the larger one of two, written with two decimals.
    (From 10^21 on [toFixed] gives the exponent notation of [x], which
    is not described here.) *)
Definition toFixed2 (x : QArith_base.Q) : string :=
  let n := Qround.Qfloor
             (QArith_base.Qplus (QArith_base.Qmult x (QArith_base.inject_Z 100))
                                (QArith_base.Qmake 1 2)) in
  decimal (n / 100) +:+ "." +:+ decimal ((n mod 100) / 10) +:+ decimal (n mod 10).

Definition formatFileSize (bytes : N) : string :=
  let (size, unitIndex) :=
    scale (List.length units) (QArith_base.inject_Z (Z.of_N bytes)) 0 in
  toFixed2 size +:+ " " +:+ List.nth unitIndex units "undefined".

End fileUtilsMore.

(** ** [src/storage/storageManager.ts]: statistics and clean-up *)

Module StorageMaintenance.
Local Open Scope async_scope.

Record StorageStats : Type := mkStats {
  totalPapers : nat;
  totalSize : nat;
  formattedSize : string
}.

Definition getStorageStats : M StorageStats :=
  papers <- StorageManager.listDownloadedPapers ;;
  let totalSize := List.fold_left (fun sum paper => sum + dp_fileSize paper) papers 0 in
  ret (mkStats (List.length papers) totalSize
              (fileUtilsMore.formatFileSize (N.of_nat totalSize))).

Section Cleanup.
(** The arithmetic of [Date] is left to the runtime: [isBefore d now days]
    stands for [new Date(d) < cutoffDate], where [cutoffDate] is the
    current date [now] set back by [days] days. *)
Variable isBefore : string -> string -> Z -> bool.

(** The body of the loop over the papers of [list()]. *)
Definition cleanup_step (now : string) (daysOld : Z) (deletedCount : nat)
    (paper : DownloadedPaper) : M nat :=
  if isBefore (dp_downloadDate paper) now daysOld
  then
    deleted <- StorageManager.deletePaper (dp_id paper) ;;
    ret (if deleted : bool then S deletedCount else deletedCount)
  else ret deletedCount.

Fixpoint cleanup_loop (now : string) (daysOld : Z) (papers : list DownloadedPaper)
    (deletedCount : nat) : M nat :=
  match papers with
  | [] => ret deletedCount
  | paper :: rest =>
      deletedCount' <- cleanup_step now daysOld deletedCount paper ;;
      cleanup_loop now daysOld rest deletedCount'
  end.

Definition cleanupOldPapers (daysOld : Z) : M nat :=
  today <- gets (fun st => now (world st)) ;;
  papers <- StorageManager.listDownloadedPapers ;;
  cleanup_loop today daysOld papers 0.
End Cleanup.

End StorageMaintenance.

(** ** [src/utils/errors.ts]: retries *)

Module Retry.

(** What [isRetryableError] reads of a thrown object: its class, its
    [code], and [response.status] where there is a response. *)
Record Thrown : Type := mkThrown {
  error : Errors.t;
  response_status : option nat
}.

Definition isRetryableError (e : Thrown) : bool :=
  match Errors.class (error e) with
  | Errors.NetworkErrorC => true
  | Errors.RateLimitErrorC => true
  | _ =>
      match Errors.code (error e) with
      | Some c => String.eqb c "ECONNRESET" || String.eqb c "ETIMEDOUT"
      | None => false
      end
      || match response_status e with
         | Some status => 500 <=? status
         | None => false
         end
  end.

Section Retry.
Context {St A : Type}.

(** The function retried: it runs in a state, and returns or throws. *)
Variable fn : St -> (A + Thrown) * St.

(** What a run of [retryWithBackoff] gives: the value returned or the
    value thrown ([None] for [undefined]), the delays slept through, in
    order, and the state reached. *)
Definition Run : Type := (A + option Thrown) * list nat * St.

(** The [for] loop, with [left] iterations to go. *)
Fixpoint retry_loop (maxRetries initialDelay : nat) (left attempt : nat)
    (lastError : option Thrown) (delays : list nat) (st : St) : Run :=
  match left with
  | 0 => (inr lastError, delays, st)
  | S left' =>
      match fn st with
      | (inl a, st') => (inl a, delays, st')
      | (inr e, st') =>
          if negb (isRetryableError e) || (attempt =? maxRetries - 1)
          then (inr (Some e), delays, st')
          else
            let delay := initialDelay * 2 ^ attempt in
            retry_loop maxRetries initialDelay left' (S attempt) (Some e)
                       (delays ++ [delay]) st'
      end
  end.

Definition retryWithBackoff (maxRetries initialDelay : nat) (st : St) : Run :=
  retry_loop maxRetries initialDelay maxRetries 0 None [] st.
End Retry.

End Retry.

(** ** [src/index.ts]: the query, the categories and the storage tools *)

Module Tools.
Local Open Scope async_scope.

(** The parameters [formatSearchQuery] reads; [None] for a missing one. *)
Record SearchParams : Type := mkSearchParams {
  sp_title : option string;
  sp_author : option string;
  sp_abstract : option string;
  sp_category : option string;
  sp_all : option string;
  sp_query : option string
}.

Definition quoted (field value : string) : string :=
  field +:+ ":" +:+ String JS.dquote value +:+ String JS.dquote "".

(** [parts.push(...)] when the parameter is truthy. *)
Definition push_if (x : option string) (f : string -> string) (parts : list string)
    : list string :=
  if ArxivServer.missing x then parts else parts ++ [f (ArxivServer.text_of x)].

Definition formatSearchQuery (params : SearchParams) : string :=
  let parts := push_if (sp_title params) (quoted "ti") [] in
  let parts := push_if (sp_author params) (quoted "au") parts in
  let parts := push_if (sp_abstract params) (quoted "abs") parts in
  let parts := push_if (sp_category params) (fun c => "cat:" +:+ c) parts in
  let parts := push_if (sp_all params) (quoted "all") parts in
  (* If no specific fields, use the query parameter as-is *)
  if (List.length parts =? 0) && negb (ArxivServer.missing (sp_query params))
  then ArxivServer.text_of (sp_query params)
  else JS.join " AND " parts.

Record ArxivCategory : Type := mkCategory {
  cat_id : string;
  cat_name : string;
  cat_description : string
}.

Record ArxivCategoryGroup : Type := mkGroup {
  group : string;
  categories : list ArxivCategory
}.

(** What [get_arxiv_categories] answers. *)
Inductive CategoriesOutput : Type :=
| GroupNames (totalGroups : nat) (groups : list string)
| GroupDetail (name : string) (totalCategories : nat) (categories : list ArxivCategory).

(** [s.toLowerCase()] on code units below 256. *)
Fixpoint toLowerCase (s : string) : string :=
  match s with
  | EmptyString => EmptyString
  | String c s' => String (JS.to_lower c) (toLowerCase s')
  end.

(** [getArxivCategories], given what [readJsonFile] returned for the
    category file ([None] for [null]).  The [catch] of the method turns
    every error of its [try] block into the same NetworkError. *)
Definition getArxivCategories
    (categoryData : option (list ArxivCategoryGroup)) (groupArg : option string)
    : outcome CategoriesOutput :=
  let body : outcome CategoriesOutput :=
    match categoryData with
    | None => Throw (Errors.NetworkError "Failed to read category data")
    | Some groups =>
        if ArxivServer.missing groupArg
        then
          let groupNames := List.map group groups in
          Return (GroupNames (List.length groupNames) groupNames)
        else
          match List.find (fun categoryGroup =>
                             String.eqb (toLowerCase (group categoryGroup))
                                        (toLowerCase (ArxivServer.text_of groupArg)))
                          groups with
          | None =>
              Throw (Errors.ValidationError
                       ("Group '" +:+ ArxivServer.text_of groupArg +:+ "' not found"))
          | Some g =>
              Return (GroupDetail (group g) (List.length (categories g)) (categories g))
          end
    end in
  match body with
  | Return r => Return r
  | Throw _ => Throw (Errors.NetworkError "Failed to read category data")
  end.

Record PaperSummary : Type := mkSummary {
  ps_id : string;
  ps_title : string;
  ps_authors : list string;
  ps_downloadDate : string;
  ps_fileSize : nat;
  ps_categories : list string
}.

Record ListOutput : Type := mkListOutput {
  lo_totalPapers : nat;
  lo_papers : list PaperSummary
}.

Definition listDownloadedPapers : M ListOutput :=
  papers <- StorageManager.listDownloadedPapers ;;
  ret (mkListOutput (List.length papers)
         (List.map (fun p => mkSummary (dp_id p) (dp_title p) (dp_authors p)
                                       (dp_downloadDate p) (dp_fileSize p)
                                       (dp_categories p)) papers)).

Record DeleteOutput : Type := mkDeleteOutput {
  do_success : bool;
  do_message : string
}.

Definition deletePaper (args : ArxivServer.Args) : M DeleteOutput :=
  if ArxivServer.missing (ArxivServer.arxivId args)
  then throw (Errors.ValidationError "arxivId is required")
  else
    let id := ArxivServer.text_of (ArxivServer.arxivId args) in
    deleted <- StorageManager.deletePaper id ;;
    ret (mkDeleteOutput deleted
           (if deleted : bool
            then "Paper " +:+ id +:+ " deleted successfully"
            else "Paper " +:+ id +:+ " not found")).

Definition getStorageStats : M StorageMaintenance.StorageStats :=
  StorageMaintenance.getStorageStats.

End Tools.

(** ** Notions of the further statements *)

(** [downloadPaper] finds the paper already stored: its entry is in the
    catalog and the artifact of the entry exists. *)
Definition cached (st : State) (id : string) : bool :=
  match Map.get id (metadata st) with
  | Some e => fs.exists_ (world st) (dp_filePath e)
  | None => false
  end.

(** The path [downloadPaper] writes the artifact to. *)
Definition artifact_path (st : State) (id title : string) : string :=
  StorageManager.path_join (STORAGE_DIR (world st)) (StorageManager.filename id title).

(** The entry [downloadPaper] creates from the response [r]. *)
Definition fresh_paper (st : State) (id : string) (info : StorageManager.PaperInfo)
    (r : Response) : DownloadedPaper :=
  mkPaper id (StorageManager.title info) (StorageManager.authors info)
          (now (world st)) (artifact_path st id (StorageManager.title info))
          (String.length (buffer r))
          (StorageManager.categories info) (StorageManager.abstract info).

(** Every entry of the catalog is filed under the identifier it holds. *)
Definition ids_are_keys (m : list (string * DownloadedPaper)) : Prop :=
  forall k p, In (k, p) m -> dp_id p = k.

(** A catalog of two papers of 1000 and 2048 bytes, both on disk. *)
Definition paper2 : DownloadedPaper :=
  mkPaper "2301.00002" "Second" ["B. Author"] "2024-02-01T00:00:00.000Z"
          "/srv/storage/2301.00002_Second.pdf" 2048 ["cs.LG"] "We extend.".

Definition two_papers : State :=
  mkState (mkWorld "/srv/storage"
             ({[ dp_filePath paper1 := "%PDF-1.4" ]} ∪ {[ dp_filePath paper2 := "%PDF-1.5" ]})
             ∅ (Some [("2301.00001", paper1); ("2301.00002", paper2)]) true
             {[ "https://arxiv.org/pdf/2301.00003" :=
                  mkResponse true "OK" "%PDF-1.7 third" ]}
             ∅ "2024-06-01T00:00:00.000Z" [] [])
          [("2301.00001", paper1); ("2301.00002", paper2)].

(** The same catalog with a metadata file that cannot be written. *)
Definition frozen_papers : State :=
  mkState (mkWorld "/srv/storage"
             ({[ dp_filePath paper1 := "%PDF-1.4" ]} ∪ {[ dp_filePath paper2 := "%PDF-1.5" ]})
             ∅ (Some [("2301.00001", paper1); ("2301.00002", paper2)]) false
             {[ "https://arxiv.org/pdf/2301.00003" :=
                  mkResponse true "OK" "%PDF-1.7 third" ;
                "https://arxiv.org/pdf/2301.00004" :=
                  mkResponse false "Not Found" "" ]}
             ∅ "2024-06-01T00:00:00.000Z" [] [])
          [("2301.00001", paper1); ("2301.00002", paper2)].

Definition third_info : StorageManager.PaperInfo :=
  StorageManager.mkInfo "Third: a/b" ["C. Author"] ["cs.AI"] "We conclude.".

(** The paper is before the cut-off of [cleanupOldPapers]. *)
Definition before_cutoff (isBefore : string -> string -> Z -> bool)
    (today : string) (daysOld : Z) (p : DownloadedPaper) : bool :=
  isBefore (dp_downloadDate p) today daysOld.

(** Every character of the string satisfies [P]. *)
Fixpoint string_forall (P : ascii -> bool) (s : string) : bool :=
  match s with
  | EmptyString => true
  | String c s' => P c && string_forall P s'
  end.

(** The characters [sanitizeFilename] replaces first. *)
Definition is_invalid (c : ascii) : bool :=
  existsb (Ascii.eqb c) ["<"; ">"; ":"; JS.dquote; "/"; "\"; "|"; "?"; "*"]%char.

(** The pattern of the second replacement of [sanitizeFilename]. *)
Definition spaces : RegExp.t := RegExp.literal "\s+" "g".

(** A character that may stay in a sanitized file name. *)
Definition clean (c : ascii) : bool := negb (is_invalid c) && negb (JS.is_white c).

(** The numbers grow strictly. *)
Fixpoint ascending (l : list nat) : bool :=
  match l with
  | [] => true
  | x :: l' =>
      match l' with
      | [] => true
      | y :: _ => (x <? y) && ascending l'
      end
  end.

(** What [searchInPaper] reports for one match at index [p] of a section
    body: the text from 50 characters before [p] to 50 characters after
    the length of the term. *)
Definition context_of (body term : string) (p : nat) : string :=
  JS.substring body (p - 50) (Nat.min (String.length body) (p + String.length term + 50)).

(** A well-formed list of matches of one section body, found from index
    [from] on. *)
Definition matches_ok (body term : string) (from : nat)
    (ms : list PdfReader.SearchMatch) : Prop :=
  ascending (List.map PdfReader.position ms) = true /\
  Forall (fun m =>
            from <= PdfReader.position m < String.length body /\
            PdfReader.text m = context_of body term (PdfReader.position m) /\
            String.length (PdfReader.text m) <= String.length term + 100) ms.

(** A paper with two sections. *)
Definition two_sections : PaperContent :=
  mkContent "p" "t" [("abstract", "A cat."); ("introduction", "the cat sat on the mat")] "".

(** The results of two searches, one after the other; no result as
    soon as one of them gives none. *)
Definition both (x y : option (outcome (list PdfReader.SectionMatches)))
    : option (outcome (list PdfReader.SectionMatches)) :=
  match x, y with
  | Some (Return a), Some (Return b) => Some (Return (a ++ b))
  | Some (Throw e), _ => Some (Throw e)
  | _, _ => None
  end.

(** A list put in front of the list of a result. *)
Definition onto {A B} (acc : list A) (x : option (list A * B)) : option (list A * B) :=
  match x with
  | Some (l, b) => Some (acc ++ l, b)
  | None => None
  end.

Definition onto_results (acc : list PdfReader.SectionMatches)
    (x : option (list PdfReader.SectionMatches))
    : option (list PdfReader.SectionMatches) :=
  match x with
  | Some l => Some (acc ++ l)
  | None => None
  end.

(** The state after [n] calls of the function retried, and what its
    next call gives. *)
Fixpoint after_calls {St A : Type} (fn : St -> (A + Retry.Thrown) * St)
    (n : nat) (st : St) : St :=
  match n with
  | 0 => st
  | S n' => after_calls fn n' (snd (fn st))
  end.

Definition call {St A : Type} (fn : St -> (A + Retry.Thrown) * St)
    (n : nat) (st : St) : A + Retry.Thrown :=
  fst (fn (after_calls fn n st)).

(** The delays of [n] retries: [initialDelay * 2 ^ k] for [k < n]. *)
Definition backoff (initialDelay n : nat) : list nat :=
  List.map (fun k => initialDelay * 2 ^ k) (List.seq 0 n).

(** A function that throws a NetworkError at its first two calls and
    returns at the third; its state counts the calls. *)
Definition flaky (calls : nat) : (string + Retry.Thrown) * nat :=
  (if calls <? 2
   then inr (Retry.mkThrown (Errors.NetworkError "timeout") None)
   else inl "done",
   S calls).

(** One of the fields of the query is given. *)
Definition has_field (p : Tools.SearchParams) : bool :=
  negb (ArxivServer.missing (Tools.sp_title p)) ||
  negb (ArxivServer.missing (Tools.sp_author p)) ||
  negb (ArxivServer.missing (Tools.sp_abstract p)) ||
  negb (ArxivServer.missing (Tools.sp_category p)) ||
  negb (ArxivServer.missing (Tools.sp_all p)).

Definition with_query (p : Tools.SearchParams) (q : option string) : Tools.SearchParams :=
  Tools.mkSearchParams (Tools.sp_title p) (Tools.sp_author p) (Tools.sp_abstract p)
                       (Tools.sp_category p) (Tools.sp_all p) q.

(** The error every failure of [getArxivCategories] ends in. *)
Definition category_failure : Errors.t :=
  Errors.NetworkError "Failed to read category data".

(** The stored paper of the example with a decodable artifact. *)
Definition readable_state : State :=
  mkState (mkWorld "/srv/storage" {[ dp_filePath paper1 := "%PDF-1.4" ]} ∅
             (Some [("2301.00001", paper1)]) true ∅
             {[ "%PDF-1.4" := "Abstract: we study cats." +:+ JS.nl +:+ JS.nl +:+ "1. Introduction" ]}
             "2024-06-01T00:00:00.000Z" [] [])
          [("2301.00001", paper1)].

(** [formatFileSize] in integers: the unit is the largest of B, KB, MB,
    GB that does not exceed the byte count, and the number shown is the
    count of hundredths of that unit, halves rounded up. *)
Definition unit_index (bytes : N) : nat :=
  if (bytes <? 1024)%N then 0
  else if (bytes <? 1024 ^ 2)%N then 1
  else if (bytes <? 1024 ^ 3)%N then 2
  else 3.

Definition hundredths (bytes : N) (k : nat) : Z :=
  ((200 * Z.of_N bytes + 1024 ^ Z.of_nat k) / (2 * 1024 ^ Z.of_nat k))%Z.

Definition two_decimals (n : Z) : string :=
  fileUtilsMore.decimal (n / 100) +:+ "." +:+
  fileUtilsMore.decimal ((n mod 100) / 10) +:+ fileUtilsMore.decimal (n mod 10).

(** ** What a successful match attempt has read

    [derives r i c j c']: the pattern [r] can read the input from index
    [i] to index [j], turning the captures [c] into [c'].  It describes
    the paths of the backtracking matcher without its search order
    (a negative lookahead is only known to read nothing). *)
Section Derivations.
Variable fl : RegExp.Flags.
Variable s : string.

(** [n] iterations of a quantified body whose capturing groups are [gs]. *)
Fixpoint iterated (P : nat -> RegExp.caps -> nat -> RegExp.caps -> Prop)
    (gs : list nat) (n : nat) (i : nat) (c : RegExp.caps)
    (j : nat) (c' : RegExp.caps) : Prop :=
  match n with
  | 0 => j = i /\ c' = c
  | S n' =>
      exists m cm, P i (RegExp.clear_caps gs c) m cm /\ iterated P gs n' m cm j c'
  end.

(** The numbers of iterations [{min,max}] allows. *)
Definition count_ok (min : nat) (max : option nat) (n : nat) : Prop :=
  match max with
  | Some mx => n <= mx /\ (min <= n \/ n = mx)
  | None => min <= n
  end.

Fixpoint derives (r : RegExp.regex) (i : nat) (c : RegExp.caps)
    (j : nat) (c' : RegExp.caps) {struct r} : Prop :=
  match r with
  | RegExp.Empty => j = i /\ c' = c
  | RegExp.Char _ | RegExp.Dot | RegExp.Class _ _ =>
      exists ch, String.get i s = Some ch /\
                 RegExp.char_matches fl r ch = true /\ j = S i /\ c' = c
  | RegExp.Seq a b => exists m cm, derives a i c m cm /\ derives b m cm j c'
  | RegExp.Alt a b => derives a i c j c' \/ derives b i c j c'
  | RegExp.Rep min max _ a =>
      exists n, count_ok min max n /\
                iterated (derives a) (RegExp.groups_of a) n i c j c'
  | RegExp.Group n a => exists c0, derives a i c j c0 /\ c' = (n, (i, j)) :: c0
  | RegExp.Look neg a =>
      j = i /\ (if neg then c' = c else exists j', derives a i c j' c')
  | RegExp.Bol => i = 0 /\ j = i /\ c' = c
  | RegExp.Eol => i = String.length s /\ j = i /\ c' = c
  | RegExp.WordB neg =>
      xorb neg (xorb (RegExp.is_word_at s (Z.of_nat i - 1))
                     (RegExp.is_word_at s (Z.of_nat i))) = true /\
      j = i /\ c' = c
  end.

End Derivations.

(** The pattern that reads the characters [l] and then [r]. *)
Definition chars_then (l : list ascii) (r : RegExp.regex) : RegExp.regex :=
  List.fold_right (fun ch acc => RegExp.Seq (RegExp.Char ch) acc) r l.
(** The two forms of an arXiv identifier that [getArxivIdFromUrl] looks
    for: [YYMM.NNNN] with four or five digits after the dot, and
    [archive/NNNNNNN] with an archive of lower-case letters and hyphens. *)
Definition digits (t : string) : bool := string_forall JS.is_digit t.

Definition is_archive_char (c : ascii) : bool :=
  JS.in_range 97 122 c || Ascii.eqb c "-".

Definition new_style (id : string) : Prop :=
  exists yymm number,
    id = yymm +:+ "." +:+ number /\
    digits yymm = true /\ String.length yymm = 4 /\
    digits number = true /\ (String.length number = 4 \/ String.length number = 5).

Definition old_style (id : string) : Prop :=
  exists archive number,
    id = archive +:+ "/" +:+ number /\
    string_forall is_archive_char archive = true /\ 0 < String.length archive /\
    digits number = true /\ String.length number = 7.

Definition no_flags : RegExp.Flags := RegExp.mkFlags false false false.

Definition digit_class : RegExp.regex := RegExp.Class false [RegExp.CiDigit false].

Definition new_body : RegExp.regex :=
  RegExp.Seq (RegExp.Rep 4 (Some 4) true digit_class)
    (RegExp.Seq (RegExp.Char ".") (RegExp.Rep 4 (Some 5) true digit_class)).

Definition old_body : RegExp.regex :=
  RegExp.Seq (RegExp.Rep 1 None true
                (RegExp.Class false [RegExp.CiRange "a" "z"; RegExp.CiChar "-"]))
    (RegExp.Seq (RegExp.Char "/") (RegExp.Rep 7 (Some 7) true digit_class)).

(** Runs of underscores, the target of the last replacement of
    [sanitizeFilename]. *)
Definition is_underscore (c : ascii) : bool := Ascii.eqb c "_".

Definition starts_with_underscore (t : string) : bool :=
  match t with
  | String c _ => is_underscore c
  | EmptyString => false
  end.

Fixpoint ends_with_underscore (t : string) : bool :=
  match t with
  | String c EmptyString => is_underscore c
  | String _ t' => ends_with_underscore t'
  | EmptyString => false
  end.

(** No two underscores in a row. *)
Fixpoint no_double_underscore (t : string) : bool :=
  match t with
  | String c t' =>
      negb (is_underscore c && starts_with_underscore t') && no_double_underscore t'
  | EmptyString => true
  end.

Definition underscores : RegExp.t := RegExp.literal "_{2,}" "g".

(** The summary the [list_downloaded_papers] tool gives of a paper. *)
Definition summary (p : DownloadedPaper) : Tools.PaperSummary :=
  Tools.mkSummary (dp_id p) (dp_title p) (dp_authors p)
                  (dp_downloadDate p) (dp_fileSize p) (dp_categories p).

(** ** [src/prompts/promptManager.ts]

    The catalog of analysis prompts: the [Map] in memory, the content of
    the prompts file, and whether that file can be written. *)
Record AnalysisPrompt : Type := mkPrompt {
  ap_id : string;
  ap_name : string;
  ap_description : string;
  ap_template : string;
  ap_variables : list string
}.

Module PromptManager.

Record Store : Type := mkStore {
  prompts : list (string * AnalysisPrompt);
  prompts_json : option (list (string * AnalysisPrompt));
  prompts_writable : bool
}.

Definition set_prompts (m : list (string * AnalysisPrompt)) (st : Store) : Store :=
  mkStore m (prompts_json st) (prompts_writable st).

(** [savePrompts]: [writeJsonFile] throws what [fs.writeFile] throws. *)
Definition savePrompts (st : Store) : outcome unit * Store :=
  if prompts_writable st
  then (Return tt, mkStore (prompts st) (Some (prompts st)) (prompts_writable st))
  else (Throw (Errors.System "EACCES" "permission denied"), st).

Definition getPrompt (promptId : string) (st : Store) : option AnalysisPrompt :=
  Map.get promptId (prompts st).

Definition getAllPrompts (st : Store) : list AnalysisPrompt :=
  List.map snd (prompts st).

Definition addCustomPrompt (prompt : AnalysisPrompt) (st : Store)
    : outcome unit * Store :=
  savePrompts (set_prompts (Map.set (ap_id prompt) prompt (prompts st)) st).

Definition defaultIds : list string :=
  ["summary"; "key_findings"; "methodology_analysis"; "literature_review";
   "research_gaps"; "technical_deep_dive"; "comparison"; "practical_applications"].

(** [deletePrompt]: [this.prompts.delete] tells whether the key was there;
    nothing catches what [savePrompts] throws. *)
Definition deletePrompt (promptId : string) (st : Store) : outcome bool * Store :=
  if existsb (String.eqb promptId) defaultIds then (Return false, st)
  else
    match Map.get promptId (prompts st) with
    | Some _ =>
        match savePrompts (set_prompts (Map.delete promptId (prompts st)) st) with
        | (Return _, st') => (Return true, st')
        | (Throw e, st') => (Throw e, st')
        end
    | None => (Return false, st)
    end.

End PromptManager.

Definition is_default (promptId : string) : bool :=
  existsb (String.eqb promptId) PromptManager.defaultIds.

Definition custom_prompt : AnalysisPrompt :=
  mkPrompt "eli5" "Plain words" "Explain the paper simply"
           "Explain {{title}} in plain words." ["title"].

Definition summary_prompt : AnalysisPrompt :=
  mkPrompt "summary" "Paper Summary" "Generate a comprehensive summary of the paper"
           "Title: {{title}}" ["title"].

Definition one_prompt : PromptManager.Store :=
  PromptManager.mkStore [("summary", summary_prompt)]
                        (Some [("summary", summary_prompt)]) true.

(* ===================================================================== *)
(** * Part V: facts about the runtime model                              *)
(* ===================================================================== *)

Section MatcherFacts.
Variable fl : RegExp.Flags.
Variable s : string.

Lemma get_Some_lt (i : nat) (t : string) (ch : ascii) :
  String.get i t = Some ch -> i < String.length t.
Proof.
  revert i; induction t as [|d t IH]; intros i H; simpl in *.
  - discriminate.
  - destruct i as [|i]; [lia|]. apply IH in H. lia.
Qed.

Lemma advances_weaken b i j : advances s b i j -> advances s false i j.
Proof. intros (H1 & H2 & _); repeat split; auto; discriminate. Qed.

Lemma advances_trans b1 b2 i j l :
  advances s b1 i j -> advances s b2 j l -> advances s (b1 || b2) i l.
Proof.
  intros (H1 & H2 & H3) (G1 & G2 & G3); repeat split; try lia.
  intros Hb; apply orb_true_iff in Hb as [Hb|Hb]; [apply H3 in Hb|apply G3 in Hb]; lia.
Qed.

Lemma step1_progress {R} r : progress (R := R) s true (RegExp.step1 fl s r).
Proof.
  intros i c k z H. unfold RegExp.step1 in H.
  destruct (String.get i s) as [ch|] eqn:G; [|discriminate].
  destruct (RegExp.char_matches fl r ch); [|discriminate].
  exists (S i), c. split; [exact H|].
  apply get_Some_lt in G. repeat split; lia.
Qed.

Lemma advances_mono b b' i j :
  (b' = true -> b = true) -> advances s b i j -> advances s b' i j.
Proof. intros Hb (H1 & H2 & H3); repeat split; auto. Qed.

Lemma advances_refl i : advances s false i i.
Proof. repeat split; auto; discriminate. Qed.

Lemma repeat_progress {R} m gs greedy (k : nat -> RegExp.caps -> option R) b :
  progress s b m ->
  forall fuel min max i c z,
    RegExp.repeat m gs greedy k fuel min max i c = Some z ->
    exists j c', k j c' = Some z /\
      advances s (negb (min =? 0) && max_open max && b) i j.
Proof.
  intros Hm fuel. induction fuel as [|fuel IH]; intros min max i c z H; [discriminate|].
  assert (Hstop : forall c0, (min =? 0) = true \/ max_open max = false ->
            k i c0 = Some z ->
            exists j c', k j c' = Some z /\
              advances s (negb (min =? 0) && max_open max && b) i j).
  { intros c0 Hz Hk. exists i, c0. split; [exact Hk|].
    eapply advances_mono; [|apply advances_refl].
    destruct Hz as [-> | ->]; simpl; auto.
    rewrite andb_false_r; auto. }
  assert (Hiter : forall z',
            m i (RegExp.clear_caps gs c)
              (fun j c' =>
                 if (min =? 0) && (j =? i) then None
                 else RegExp.repeat m gs greedy k fuel (pred min)
                        (option_map pred max) j c') = Some z' ->
            exists j c', k j c' = Some z' /\
              advances s (negb (min =? 0) && max_open max && b) i j).
  { intros z' Hz. apply Hm in Hz as (j & c' & Hd & Hadv).
    destruct ((min =? 0) && (j =? i)); [discriminate|].
    apply IH in Hd as (l & c'' & Hk & Hadv').
    exists l, c''. split; [exact Hk|].
    eapply advances_mono; [|exact (advances_trans _ _ _ _ _ Hadv Hadv')].
    intros Hb. apply andb_true_iff in Hb as [_ ->]. reflexivity. }
  simpl in H.
  destruct max as [[|mx]|].
  - apply (Hstop c); auto.
  - destruct (min =? 0) eqn:E; simpl in H.
    + destruct greedy.
      * destruct (m i _ _) eqn:Em in H.
        -- inversion H; subst. apply Hiter. exact Em.
        -- apply (Hstop c); auto.
      * destruct (k i c) eqn:Ek.
        -- inversion H; subst. apply (Hstop c); auto.
        -- apply Hiter. exact H.
    + apply Hiter. exact H.
  - destruct (min =? 0) eqn:E; simpl in H.
    + destruct greedy.
      * destruct (m i _ _) eqn:Em in H.
        -- inversion H; subst. apply Hiter. exact Em.
        -- apply (Hstop c); auto.
      * destruct (k i c) eqn:Ek.
        -- inversion H; subst. apply (Hstop c); auto.
        -- apply Hiter. exact H.
    + apply Hiter. exact H.
Qed.

Lemma rmatch_progress (r : RegExp.regex) :
  forall R, progress (R := R) s (negb (nullable r))
              (fun i c k => RegExp.rmatch fl s R r i c k).
Proof.
  induction r as [|ch| |neg items|a IHa b IHb|a IHa b IHb|min max greedy a IHa
                  |n a IHa|neg a IHa| | |neg];
    intros R i c k z H; cbn [RegExp.rmatch] in H.
  - exists i, c. split; auto. apply advances_refl.
  - apply step1_progress in H. exact H.
  - apply step1_progress in H. exact H.
  - apply step1_progress in H. exact H.
  - apply IHa in H as (j & c' & H & Ha).
    apply IHb in H as (l & c'' & H & Hb).
    exists l, c''. split; [exact H|].
    eapply advances_mono; [|exact (advances_trans _ _ _ _ _ Ha Hb)].
    simpl. rewrite negb_andb. auto.
  - destruct (RegExp.rmatch fl s R a i c k) eqn:Ea.
    + inversion H; subst. apply IHa in Ea as (j & c' & Hk & Hadv).
      exists j, c'. split; [exact Hk|].
      eapply advances_mono; [|exact Hadv].
      simpl. rewrite negb_orb. intros Hb. apply andb_true_iff in Hb. tauto.
    + apply IHb in H as (j & c' & Hk & Hadv).
      exists j, c'. split; [exact Hk|].
      eapply advances_mono; [|exact Hadv].
      simpl. rewrite negb_orb. intros Hb. apply andb_true_iff in Hb. tauto.
  - apply (repeat_progress _ _ _ _ _ (IHa R)) in H as (j & c' & Hk & Hadv).
    exists j, c'. split; [exact Hk|].
    eapply advances_mono; [|exact Hadv].
    simpl. unfold max_open.
    destruct (min =? 0), max as [[|mx]|], (nullable a); simpl; auto.
  - apply IHa in H as (j & c' & Hk & Hadv).
    exists j, ((n, (i, j)) :: c'). split; [exact Hk|exact Hadv].
  - destruct (RegExp.rmatch fl s RegExp.caps a i c _) as [c'|], neg;
      try discriminate.
    + exists i, c'. split; auto. apply advances_refl.
    + exists i, c. split; auto. apply advances_refl.
  - destruct (i =? 0); [|discriminate].
    exists i, c. split; auto. apply advances_refl.
  - destruct (i =? String.length s); [|discriminate].
    exists i, c. split; auto. apply advances_refl.
  - destruct (xorb neg _); [|discriminate].
    exists i, c. split; auto. apply advances_refl.
Qed.

(** An attempt ends at or after its start, inside the input, and
    strictly after its start for a pattern that is not nullable. *)
Lemma match_at_bounds (r : RegExp.regex) (i e : nat) (c : RegExp.caps) :
  RegExp.match_at fl s r i = Some (e, c) ->
  advances s (negb (nullable r)) i e.
Proof.
  unfold RegExp.match_at. intros H.
  apply rmatch_progress in H as (j & c' & Hk & Hadv).
  inversion Hk; subst. exact Hadv.
Qed.

Lemma search_from_spec (r : RegExp.regex) (n i0 i e : nat) (c : RegExp.caps) :
  RegExp.search_from fl s r n i0 = Some (i, e, c) ->
  i0 <= i < i0 + n /\ RegExp.match_at fl s r i = Some (e, c).
Proof.
  revert i0; induction n as [|n IH]; intros i0 H; simpl in H; [discriminate|].
  destruct (RegExp.match_at fl s r i0) as [[e' c']|] eqn:E.
  - inversion H; subst. split; [lia|exact E].
  - apply IH in H as [H1 H2]. split; [lia|exact H2].
Qed.

Lemma search_from_here (r : RegExp.regex) (n i e : nat) (c : RegExp.caps) :
  RegExp.match_at fl s r i = Some (e, c) ->
  RegExp.search_from fl s r (S n) i = Some (i, e, c).
Proof. intros H. simpl. rewrite H. reflexivity. Qed.
End MatcherFacts.

Section NeedsLF.
Variable fl : RegExp.Flags.
Variable s : string.

Lemma char_matches_LF (ch : ascii) :
  RegExp.char_matches fl (RegExp.Char JS.LF) ch = true -> ch = JS.LF.
Proof.
  destruct fl as [g [|] d];
    destruct ch as [[|] [|] [|] [|] [|] [|] [|] [|]];
    vm_compute; intros H; solve [reflexivity | discriminate H].
Qed.

Lemma rmatch_needs_LF (r : RegExp.regex) :
  needs_LF r = true ->
  forall R i c k z, RegExp.rmatch fl s R r i c k = Some z ->
    exists p, String.get p s = Some JS.LF.
Proof.
  induction r as [|ch| |neg items|a IHa b IHb|a IHa b IHb|min max greedy a IHa
                  |n a IHa|neg a IHa| | |neg];
    intros Hn R i c k z H; cbn [RegExp.rmatch] in H; simpl in Hn;
    try discriminate Hn.
  - apply Ascii.eqb_eq in Hn; subst ch.
    unfold RegExp.step1 in H.
    destruct (String.get i s) as [d|] eqn:G; [|discriminate].
    destruct (RegExp.char_matches fl _ d) eqn:E; [|discriminate].
    apply char_matches_LF in E; subst d. exists i. exact G.
  - apply orb_true_iff in Hn as [Hn|Hn].
    + eapply IHa; eauto.
    + apply (rmatch_progress fl s a R) in H as (j & c' & H & _).
      eapply IHb; eauto.
  - apply andb_true_iff in Hn as [Ha Hb].
    destruct (RegExp.rmatch fl s R a i c k) eqn:Ea.
    + eapply IHa; eauto.
    + eapply IHb; eauto.
  - apply andb_true_iff in Hn as [Hn Ha].
    apply andb_true_iff in Hn as [Hmin Hmax].
    unfold RegExp.repeat_fuel in H. simpl in H.
    destruct (min =? 0); [discriminate Hmin|]. simpl in H.
    destruct max as [[|mx]|]; try discriminate Hmax; eapply IHa; eauto.
  - eapply IHa; eauto.
Qed.

Lemma test_needs_LF (r : RegExp.regex) (n i0 : nat) :
  needs_LF r = true ->
  (forall p, String.get p s <> Some JS.LF) ->
  RegExp.search_from fl s r n i0 = None.
Proof.
  intros Hn Hs.
  destruct (RegExp.search_from fl s r n i0) as [[[i e] c]|] eqn:E; [|reflexivity].
  apply search_from_spec in E as [_ E]. unfold RegExp.match_at in E.
  apply (rmatch_needs_LF r Hn) in E as [p Hp]. destruct (Hs p Hp).
Qed.
End NeedsLF.

(** The pieces [split] returns do not contain the separator. *)
Lemma split_no_sep (sep : ascii) (t line : string) :
  In line (JS.split sep t) -> forall p, String.get p line <> Some sep.
Proof.
  revert line; induction t as [|d t IH]; intros line Hin p; simpl in Hin.
  - destruct Hin as [<-|[]]. destruct p; discriminate.
  - destruct (Ascii.eqb d sep) eqn:E.
    + destruct Hin as [<-|Hin]; [destruct p; discriminate|]. apply IH; exact Hin.
    + destruct (JS.split sep t) as [|x xs] eqn:Es.
      * destruct Hin as [<-|[]]. destruct p as [|[|p]]; simpl; try discriminate.
        intros H; inversion H; subst. rewrite Ascii.eqb_refl in E; discriminate.
      * destruct Hin as [<-|Hin].
        -- destruct p as [|p]; simpl.
           ++ intros H; inversion H; subst. rewrite Ascii.eqb_refl in E; discriminate.
           ++ apply IH. left; reflexivity.
        -- apply IH. right; exact Hin.
Qed.

(** ** The iteration bound of the matcher is no restriction *)

Section MatcherFuel.
Variable fl : RegExp.Flags.
Variable s : string.

Local Abbreviation len := (String.length s).
Lemma agree_from {R} (i j : nat) (k k' : nat -> RegExp.caps -> option R) :
  i <= j -> agree s i k k' -> agree s j k k'.
Proof. intros Hij H l c Hl. apply H. lia. Qed.

Lemma repeat_local {R} m gs greedy (k k' : nat -> RegExp.caps -> option R) :
  local s m ->
  forall fuel min max i c, i <= len -> agree s i k k' ->
    RegExp.repeat m gs greedy k fuel min max i c
    = RegExp.repeat m gs greedy k' fuel min max i c.
Proof.
  intros Hm fuel. induction fuel as [|fuel IH]; intros min max i c Hi Hk; [reflexivity|].
  assert (Hd : m i (RegExp.clear_caps gs c)
                 (fun j c' => if (min =? 0) && (j =? i) then None
                              else RegExp.repeat m gs greedy k fuel (pred min)
                                     (option_map pred max) j c')
               = m i (RegExp.clear_caps gs c)
                 (fun j c' => if (min =? 0) && (j =? i) then None
                              else RegExp.repeat m gs greedy k' fuel (pred min)
                                     (option_map pred max) j c')).
  { apply Hm; [exact Hi|]. intros j c' Hj.
    destruct ((min =? 0) && (j =? i)); [reflexivity|].
    apply IH; [lia|]. apply (agree_from i); [lia|exact Hk]. }
  assert (Hki : forall c0, k i c0 = k' i c0) by (intros; apply Hk; lia).
  simpl. rewrite Hd, Hki. reflexivity.
Qed.

Lemma step1_local {R} r : local (R := R) s (RegExp.step1 fl s r).
Proof.
  intros i c k k' Hi Hk. unfold RegExp.step1.
  destruct (String.get i s) as [ch|] eqn:G; [|reflexivity].
  apply get_Some_lt in G. rewrite (Hk (S i) c) by lia. reflexivity.
Qed.

Lemma rmatch_local (r : RegExp.regex) :
  forall R, local (R := R) s (fun i c k => RegExp.rmatch fl s R r i c k).
Proof.
  induction r as [|ch| |neg items|a IHa b IHb|a IHa b IHb|min max greedy a IHa
                  |n a IHa|neg a IHa| | |neg];
    intros R i c k k' Hi Hk; cbn [RegExp.rmatch].
  - apply Hk. lia.
  - apply step1_local; assumption.
  - apply step1_local; assumption.
  - apply step1_local; assumption.
  - apply IHa; [exact Hi|]. intros j c' Hj. apply IHb; [lia|].
    apply (agree_from i); [lia|exact Hk].
  - rewrite (IHa R i c k k' Hi Hk), (IHb R i c k k' Hi Hk). reflexivity.
  - apply repeat_local; [apply IHa|exact Hi|exact Hk].
  - apply IHa; [exact Hi|]. intros j c' Hj. apply Hk. exact Hj.
  - rewrite (Hk i) by lia.
    destruct (RegExp.rmatch fl s RegExp.caps a i c _) as [c'|]; [|reflexivity].
    rewrite (Hk i) by lia. reflexivity.
  - rewrite (Hk i) by lia. reflexivity.
  - rewrite (Hk i) by lia. reflexivity.
  - rewrite (Hk i) by lia. reflexivity.
Qed.

(** Any number of iterations above [min + (len - i)] gives the result
    of [repeat_fuel]: the bound never cuts a repetition short. *)
Lemma repeat_fuel_enough {R} m gs greedy (k : nat -> RegExp.caps -> option R) :
  local s m ->
  forall fuel fuel' min max i c,
    i <= len ->
    min + (len - i) < fuel -> min + (len - i) < fuel' ->
    RegExp.repeat m gs greedy k fuel min max i c
    = RegExp.repeat m gs greedy k fuel' min max i c.
Proof.
  intros Hloc fuel.
  induction fuel as [|fuel IH]; intros fuel' min max i c Hi Hf Hf'; [lia|].
  destruct fuel' as [|fuel']; [lia|].
  (* the two continuations agree where the body can resume them *)
  set (d := fun f j c' => if (min =? 0) && (j =? i) then None
                          else RegExp.repeat m gs greedy k f (pred min)
                                 (option_map pred max) j c').
  assert (Hd : m i (RegExp.clear_caps gs c) (d fuel)
               = m i (RegExp.clear_caps gs c) (d fuel')).
  { apply Hloc; [exact Hi|]. intros j c' Hj. unfold d.
    destruct (min =? 0) eqn:Em; simpl.
    - destruct (j =? i) eqn:Ej; [reflexivity|].
      apply Nat.eqb_eq in Em. apply Nat.eqb_neq in Ej. subst min.
      apply IH; simpl in *; lia.
    - apply Nat.eqb_neq in Em. apply IH; lia. }
  change (RegExp.repeat m gs greedy k (S fuel) min max i c)
    with (match max with
          | Some 0 => k i c
          | _ => if negb (min =? 0) then m i (RegExp.clear_caps gs c) (d fuel)
                 else if greedy
                      then match m i (RegExp.clear_caps gs c) (d fuel) with
                           | Some z => Some z
                           | None => k i c
                           end
                      else match k i c with
                           | Some z => Some z
                           | None => m i (RegExp.clear_caps gs c) (d fuel)
                           end
          end).
  rewrite Hd. reflexivity.
Qed.

Lemma rmatch_Rep_any_fuel (R : Type) (min : nat) (max : option nat) (greedy : bool)
    (a : RegExp.regex) (i : nat) (c : RegExp.caps)
    (k : nat -> RegExp.caps -> option R) (extra : nat) :
  i <= len ->
  RegExp.rmatch fl s R (RegExp.Rep min max greedy a) i c k
  = RegExp.repeat (fun j c' k' => RegExp.rmatch fl s R a j c' k')
      (RegExp.groups_of a) greedy k (RegExp.repeat_fuel s min i + extra) min max i c.
Proof.
  intros Hi. cbn [RegExp.rmatch].
  apply repeat_fuel_enough;
    [apply rmatch_local | exact Hi
    | unfold RegExp.repeat_fuel; lia | unfold RegExp.repeat_fuel; lia].
Qed.
End MatcherFuel.

(* ===================================================================== *)
(** * Part VI: the section segmenter                                     *)
(* ===================================================================== *)

Module SegmenterFacts.
Import PdfReader.

(** Every pattern of the table needs a line feed in its match. *)
Lemma sectionPatterns_need_LF :
  forallb (fun section =>
             forallb (fun re => needs_LF (RegExp.ast re) && negb (RegExp.global (RegExp.flags re)))
                     (snd section))
          sectionPatterns = true.
Proof. vm_compute. reflexivity. Qed.

(** A line of the split text is never taken for a heading. *)
Lemma matchSection_line (text line : string) :
  In line (JS.split JS.LF text) -> matchSection line = None.
Proof.
  intros Hin. unfold matchSection.
  destruct (List.find _ sectionPatterns) as [section|] eqn:F; [|reflexivity].
  exfalso. apply List.find_some in F as [Hs Ht].
  apply existsb_exists in Ht as (re & Hre & Ht).
  pose proof sectionPatterns_need_LF as Hall.
  rewrite forallb_forall in Hall. specialize (Hall _ Hs).
  rewrite forallb_forall in Hall. specialize (Hall _ Hre).
  apply andb_true_iff in Hall as [Hn Hg]. apply negb_true_iff in Hg.
  unfold RegExp.test, RegExp.exec in Ht. rewrite Hg in Ht. cbv zeta in Ht.
  destruct (String.length line <? 0); [discriminate Ht|].
  rewrite (test_needs_LF _ _ _ _ _ Hn (split_no_sep _ _ _ Hin)) in Ht.
  discriminate Ht.
Qed.

Lemma scan_lines_idle (text : string) (lines : list string) (st : Scan) :
  (forall line, In line lines -> In line (JS.split JS.LF text)) ->
  currentSection st = None ->
  List.fold_left scanLine lines st = st.
Proof.
  revert st; induction lines as [|line lines IH]; intros st Hsub Hc; [reflexivity|].
  simpl. assert (Hl : scanLine st line = st).
  { unfold scanLine. rewrite (matchSection_line text line) by (apply Hsub; left; reflexivity).
    rewrite Hc. reflexivity. }
  rewrite Hl. apply IH; [|exact Hc]. intros l Hl'. apply Hsub. right; exact Hl'.
Qed.

(** The line scan contributes nothing: the map holds at most the abstract
    of the fallback. *)
Lemma extractSections_only_fallback (text : string) :
  extractSections text = [] \/
  exists a, extractSections text = [("abstract", a)].
Proof.
  unfold extractSections.
  rewrite (scan_lines_idle text) by auto.
  unfold save; simpl.
  destruct (fst (RegExp.exec abstractPattern text 0)) as [m|]; [|left; reflexivity].
  destruct (RegExp.get_cap 1 (RegExp.captures m)) as [[a b]|]; [|left; reflexivity].
  right. eexists. reflexivity.
Qed.

Lemma matchSection_canonical (line name : string) :
  matchSection line = Some name -> canonical name.
Proof.
  unfold matchSection. intros H.
  destruct (List.find _ sectionPatterns) as [section|] eqn:F; [|discriminate].
  inversion H; subst. apply List.find_some in F as [Hs _].
  change (In (fst section) (List.map fst sectionPatterns)).
  apply in_map. exact Hs.
Qed.

Lemma set_keys {V} (P : string -> Prop) (k : string) (v : V) (m : list (string * V)) :
  P k -> Forall P (Map.keys m) -> Forall P (Map.keys (Map.set k v m)).
Proof.
  intros Hk. induction m as [|[k' v'] m IH]; intros H; simpl.
  - constructor; [exact Hk|constructor].
  - inversion H; subst. destruct (String.eqb k' k); simpl.
    + constructor; assumption.
    + constructor; [assumption|]. apply IH. assumption.
Qed.

Lemma save_inv (st : Scan) : scan_inv st -> Forall canonical (Map.keys (save st)).
Proof.
  intros [Hs Hc]. unfold save.
  destruct (currentSection st) as [name|]; [|exact Hs].
  destruct (0 <? _); [|exact Hs].
  apply set_keys; auto.
Qed.

Lemma scanLine_inv (st : Scan) (line : string) : scan_inv st -> scan_inv (scanLine st line).
Proof.
  intros Hinv. unfold scanLine.
  destruct (matchSection line) as [name|] eqn:E.
  - split; simpl.
    + apply save_inv; exact Hinv.
    + intros n H; inversion H; subst. eapply matchSection_canonical; eauto.
  - destruct (currentSection st) eqn:Ec; [|exact Hinv].
    destruct Hinv as [Hs Hc]. split; simpl; auto.
    intros n H. apply Hc. congruence.
Qed.

Lemma fold_scan_inv (lines : list string) (st : Scan) :
  scan_inv st -> scan_inv (List.fold_left scanLine lines st).
Proof.
  revert st; induction lines as [|l lines IH]; intros st H; simpl; auto.
  apply IH, scanLine_inv, H.
Qed.

End SegmenterFacts.

(** C1 (the code departs from the claim): on the four-line text
    [Abstract / Foo bar. / Introduction / Baz qux.] the segmenter returns
    the single entry abstract -> "Foo bar."; there is no entry for
    introduction.  The heading patterns end in a line feed, which a line
    of the split text never holds, so the entry comes from the fallback. *)
Theorem C1_four_lines_lose_introduction :
  PdfReader.extractSections four_lines = [("abstract", "Foo bar.")] /\
  Map.get "introduction" (PdfReader.extractSections four_lines) = None /\
  List.map PdfReader.matchSection (JS.split JS.LF four_lines) = [None; None; None; None].
Proof. vm_compute. repeat split; reflexivity. Qed.

(** C10: for every input text, every key of the section map returned by
    [extractSections] is one of abstract, introduction, methodology,
    results, discussion, conclusion, references. *)
Theorem C10_section_keys_are_canonical (text : string) :
  Forall (fun key => In key canonicalSections)
         (Map.keys (PdfReader.extractSections text)).
Proof.
  unfold PdfReader.extractSections.
  set (st := List.fold_left PdfReader.scanLine _ _).
  assert (Hst : scan_inv st).
  { apply SegmenterFacts.fold_scan_inv. split; [constructor|discriminate]. }
  apply SegmenterFacts.save_inv in Hst.
  assert (Ha : In "abstract" canonicalSections) by (left; reflexivity).
  destruct (negb _); [|exact Hst].
  destruct (fst _); [|exact Hst].
  destruct (RegExp.group _ _ _); [|exact Hst].
  apply SegmenterFacts.set_keys; assumption.
Qed.

(* ===================================================================== *)
(** * Part VII: the search                                               *)
(* ===================================================================== *)

Module SearchFacts.
Import PdfReader.

(** Every literal of the program is in the fragment of the parser. *)
Lemma literals_compile :
  forallb (fun l => match RegExp.create (fst l) (snd l) with
                    | Some re => String.eqb (RegExp.source re) (fst l)
                    | None => false
                    end) literals = true.
Proof. vm_compute. reflexivity. Qed.



(** What a successful [exec] of a global regex tells. *)
Lemma exec_Some (re : RegExp.t) (body : string) (li li' : nat) (m : RegExp.MatchResult) :
  RegExp.global (RegExp.flags re) = true ->
  RegExp.exec re body li = (Some m, li') ->
  li <= RegExp.index m <= String.length body /\
  RegExp.index m <= RegExp.endIndex m /\
  (RegExp.index m <= String.length body -> RegExp.endIndex m <= String.length body) /\
  li' = RegExp.endIndex m /\
  RegExp.match_at (RegExp.flags re) body (RegExp.ast re) (RegExp.index m)
    = Some (RegExp.endIndex m, RegExp.captures m).
Proof.
  intros Hg H. unfold RegExp.exec in H. rewrite Hg in H. cbv zeta in H.
  destruct (String.length body <? li) eqn:El; [discriminate|].
  apply Nat.ltb_ge in El.
  destruct (RegExp.search_from _ _ _ _ _) as [[[i e] c]|] eqn:Es; [|discriminate].
  inversion H; subst; simpl.
  apply search_from_spec in Es as [Hi Hm].
  pose proof (match_at_bounds _ _ _ _ _ _ Hm) as (H1 & H2 & _).
  repeat split; auto; lia.
Qed.



Lemma create_global (term : string) (caseSensitive : bool) (re : RegExp.t) :
  RegExp.create term (if caseSensitive then "g" else "gi") = Some re ->
  RegExp.global (RegExp.flags re) = true.
Proof.
  unfold RegExp.create. intros H.
  destruct caseSensitive;
    (destruct (RegExp.parse_flags _) as [f|] eqn:Ef; [|discriminate];
     vm_compute in Ef; inversion Ef; subst f;
     destruct (RegExp.parse_disjunction _ _ _) as [[[r rest] n]|]; [|discriminate];
     destruct rest; [|discriminate]; inversion H; reflexivity).
Qed.

Lemma exec_here (re : RegExp.t) (body : string) (li e : nat) (c : RegExp.caps) :
  RegExp.global (RegExp.flags re) = true ->
  li <= String.length body ->
  RegExp.match_at (RegExp.flags re) body (RegExp.ast re) li = Some (e, c) ->
  RegExp.exec re body li = (Some (RegExp.mkMatch li e c), e).
Proof.
  intros Hg Hli Hm. unfold RegExp.exec. rewrite Hg. cbv zeta.
  destruct (String.length body <? li) eqn:El; [apply Nat.ltb_lt in El; lia|].
  rewrite (search_from_here _ _ _ _ _ _ _ Hm). reflexivity.
Qed.

(** An empty match leaves [lastIndex] where the match was found, and the
    next [exec] finds the same match again. *)
Lemma exec_empty_again (re : RegExp.t) (body : string) (li li' : nat) (m : RegExp.MatchResult) :
  RegExp.global (RegExp.flags re) = true ->
  RegExp.exec re body li = (Some m, li') ->
  RegExp.endIndex m = RegExp.index m ->
  li' = RegExp.index m /\ RegExp.exec re body li' = (Some m, li').
Proof.
  intros Hg H Hz. pose proof H as H'.
  apply exec_Some in H' as (Hi & He & Hb & -> & Hm); [|exact Hg].
  split; [exact Hz|]. rewrite Hz.
  destruct m as [i e c]; simpl in *. subst e.
  apply exec_here; auto; lia.
Qed.

Lemma scanMatches_stuck (re : RegExp.t) (term body : string) (li : nat) (m : RegExp.MatchResult) :
  RegExp.exec re body li = (Some m, li) ->
  forall fuel acc, scanMatches fuel re term body li acc = None.
Proof.
  intros H fuel. induction fuel as [|fuel IH]; intros acc; simpl; [reflexivity|].
  rewrite H. apply IH.
Qed.

(** The loop does not end once an empty match has been found. *)
Lemma scanMatches_empty_match (re : RegExp.t) (term body : string) (li li' : nat)
    (m : RegExp.MatchResult) :
  RegExp.global (RegExp.flags re) = true ->
  RegExp.exec re body li = (Some m, li') ->
  RegExp.endIndex m = RegExp.index m ->
  forall fuel acc, scanMatches fuel re term body li acc = None.
Proof.
  intros Hg H Hz fuel acc.
  destruct (exec_empty_again re body li li' m Hg H Hz) as [Hli Hagain].
  destruct fuel as [|fuel]; simpl; [reflexivity|].
  rewrite H. eapply scanMatches_stuck. exact Hagain.
Qed.



(** Sections without a match are left out of the result. *)
Lemma searchSections_nonempty (re : RegExp.t) (term : string) (fuel : nat) :
  forall entries li results r,
    forallb (fun x => 0 <? List.length (matches x)) results = true ->
    searchSections fuel re term entries li results = Some r ->
    forallb (fun x => 0 <? List.length (matches x)) r = true.
Proof.
  induction entries as [|[name body] rest IH]; intros li results r Hres H; simpl in H.
  - inversion H; subst; exact Hres.
  - destruct (negb (JS.truthy body)); [eapply IH; eauto|].
    destruct (scanMatches fuel re term body li []) as [[ms li']|]; [|discriminate].
    eapply IH; [|exact H].
    destruct (0 <? List.length ms) eqn:E; [|exact Hres].
    rewrite forallb_app, Hres. simpl. rewrite E. reflexivity.
Qed.

End SearchFacts.

Module SearchFuel.
Import PdfReader.

(** More fuel does not change a result. *)
Lemma scanMatches_mono (re : RegExp.t) (term body : string) (n : nat) :
  forall fuel li acc x,
    scanMatches fuel re term body li acc = Some x ->
    scanMatches (fuel + n) re term body li acc = Some x.
Proof.
  induction fuel as [|fuel IH]; intros li acc x H; simpl in *; [discriminate|].
  destruct (RegExp.exec re body li) as [[m|] li']; [|exact H].
  apply IH. exact H.
Qed.

Lemma searchSections_mono (re : RegExp.t) (term : string) (fuel n : nat) :
  forall entries li results x,
    searchSections fuel re term entries li results = Some x ->
    searchSections (fuel + n) re term entries li results = Some x.
Proof.
  induction entries as [|[name body] rest IH]; intros li results x H; simpl in *.
  - exact H.
  - destruct (negb (JS.truthy body)); [apply IH; exact H|].
    destruct (scanMatches fuel re term body li []) as [[ms li']|] eqn:E; [|discriminate].
    rewrite (scanMatches_mono _ _ _ n _ _ _ _ E). apply IH. exact H.
Qed.

Lemma searchInPaper_mono (content : PaperContent) (term : string) (cs : bool)
    (fuel n : nat) (x : outcome (list SectionMatches)) :
  searchInPaper fuel content term cs = Some x ->
  searchInPaper (fuel + n) content term cs = Some x.
Proof.
  unfold searchInPaper. destruct (RegExp.create term _) as [re|]; [|discriminate].
  destruct (searchSections fuel re term _ 0 []) as [r|] eqn:E; [|discriminate].
  rewrite (searchSections_mono _ _ _ n _ _ _ _ E). auto.
Qed.

End SearchFuel.

(** C6: in the section map with the one entry introduction -> "the cat sat
    on the mat", the search for "cat" without case sensitivity returns
    one match, in section introduction, at offset 4, whose context holds
    "the cat sat"; the search for "CAT" with case sensitivity returns no
    match; and no result of any search lists a section without matches. *)
Theorem C6_search_cat :
  (forall n,
     PdfReader.searchInPaper (2 + n) cat_paper "cat" false
     = Some (Return [PdfReader.mkSectionMatches "introduction"
                       [PdfReader.mkSearchMatch "the cat sat on the mat" 4]])) /\
  JS.includes "the cat sat on the mat" "the cat sat" = true /\
  (forall n, PdfReader.searchInPaper (1 + n) cat_paper "CAT" true = Some (Return [])) /\
  (forall fuel content term caseSensitive,
     match PdfReader.searchInPaper fuel content term caseSensitive with
     | Some (Return results) =>
         forallb (fun r => 0 <? List.length (PdfReader.matches r)) results = true
     | _ => True
     end).
Proof.
  split; [|split; [|split]].
  - intros n. apply SearchFuel.searchInPaper_mono. vm_compute. reflexivity.
  - vm_compute. reflexivity.
  - intros n. apply SearchFuel.searchInPaper_mono. vm_compute. reflexivity.
  - intros fuel content term cs. unfold PdfReader.searchInPaper.
    destruct (RegExp.create term _) as [re|]; [|exact I].
    destruct (PdfReader.searchSections fuel re term _ 0 []) as [r|] eqn:E; [|exact I].
    eapply SearchFacts.searchSections_nonempty; [|exact E]. reflexivity.
Qed.



(* ===================================================================== *)
(** * Part VIII: the storage manager                                     *)
(* ===================================================================== *)

Module StorageFacts.
Import StorageManager.

(** *** The map *)

Lemma get_In {V} (k : string) (v : V) (m : list (string * V)) :
  Map.get k m = Some v -> In (k, v) m.
Proof.
  induction m as [|[k' v'] m IH]; simpl; [discriminate|].
  destruct (String.eqb k' k) eqn:E.
  - apply String.eqb_eq in E. intros H; inversion H; subst. left; reflexivity.
  - intros H. right. apply IH, H.
Qed.

Lemma get_set {V} (k : string) (v : V) (m : list (string * V)) :
  Map.get k (Map.set k v m) = Some v.
Proof.
  induction m as [|[k' v'] m IH]; simpl.
  - rewrite String.eqb_refl. reflexivity.
  - destruct (String.eqb k' k) eqn:E; simpl.
    + rewrite String.eqb_refl. reflexivity.
    + rewrite E. exact IH.
Qed.

Lemma keys_set_in {V} (k k0 : string) (v : V) (m : list (string * V)) :
  In k0 (Map.keys (Map.set k v m)) -> k0 = k \/ In k0 (Map.keys m).
Proof.
  induction m as [|[k' v'] m IH]; simpl.
  - intros [H|[]]; auto.
  - destruct (String.eqb k' k) eqn:E; simpl.
    + apply String.eqb_eq in E; subst. intros [H|H]; auto.
    + intros [H|H]; auto. apply IH in H as [H|H]; auto.
Qed.

(** The operations of [Map] keep the keys unique. *)
Lemma wf_set {V} (k : string) (v : V) (m : list (string * V)) :
  Map.wf m -> Map.wf (Map.set k v m).
Proof.
  unfold Map.wf. induction m as [|[k' v'] m IH]; simpl; intros H.
  - constructor; [intros []|constructor].
  - inversion H as [|? ? Hn Hm]; subst.
    destruct (String.eqb k' k) eqn:E; simpl.
    + apply String.eqb_eq in E; subst. constructor; assumption.
    + constructor; [|apply IH; assumption].
      intros Hin. apply keys_set_in in Hin as [->|Hin]; [|contradiction].
      rewrite String.eqb_refl in E. discriminate.
Qed.

Lemma wf_filter {V} (f : string * V -> bool) (m : list (string * V)) :
  Map.wf m -> Map.wf (List.filter f m).
Proof.
  unfold Map.wf, Map.keys. induction m as [|e m IH]; simpl; intros H; [constructor|].
  inversion H as [|? ? Hn Hm]; subst.
  destruct (f e); simpl; [|apply IH; assumption].
  constructor; [|apply IH; assumption].
  intros Hin. apply Hn. apply in_map_iff in Hin as (x & Hx & Hin).
  apply filter_In in Hin as [Hin _]. apply in_map_iff. eauto.
Qed.

Lemma wf_delete {V} (k : string) (m : list (string * V)) :
  Map.wf m -> Map.wf (Map.delete k m).
Proof. apply wf_filter. Qed.

Lemma wf_unique {V} (m : list (string * V)) (x y : string * V) :
  Map.wf m -> In x m -> In y m -> fst x = fst y -> x = y.
Proof.
  unfold Map.wf, Map.keys. induction m as [|e m IH]; simpl; intros H Hx Hy Hk; [destruct Hx|].
  inversion H as [|? ? Hn Hm]; subst.
  destruct Hx as [->|Hx], Hy as [->|Hy]; auto.
  - exfalso. apply Hn. rewrite Hk. apply in_map. exact Hy.
  - exfalso. apply Hn. rewrite <- Hk. apply in_map. exact Hx.
Qed.

(** *** The scan of [list()] *)

Lemma list_step_spec (papers : list DownloadedPaper) (e : string * DownloadedPaper)
    (st : State) :
  list_step papers e st =
  if alive (world st) e
  then (Return (papers ++ [snd e]), st)
  else (Return papers, mkState (world st) (Map.delete (fst e) (metadata st))).
Proof.
  destruct e as [id paper]. unfold list_step, try_catch, bind, fs.access, alive. simpl.
  destruct (fs.exists_ (world st) (dp_filePath paper)); reflexivity.
Qed.

Lemma list_loop_spec (entries : list (string * DownloadedPaper)) :
  forall papers st,
    list_loop entries papers st =
    (Return (papers ++ List.map snd (List.filter (alive (world st)) entries)),
     mkState (world st) (prune (world st) entries (metadata st))).
Proof.
  induction entries as [|e entries IH]; intros papers st; simpl.
  - unfold ret. rewrite app_nil_r. destruct st; reflexivity.
  - unfold bind. rewrite list_step_spec.
    destruct (alive (world st) e) eqn:E; rewrite IH; simpl.
    + rewrite <- app_assoc. reflexivity.
    + reflexivity.
Qed.

Lemma filter_filter {A} (f g : A -> bool) (l : list A) :
  List.filter f (List.filter g l) = List.filter (fun x => g x && f x) l.
Proof.
  induction l as [|x l IH]; simpl; [reflexivity|].
  destruct (g x); simpl; [destruct (f x)|]; rewrite IH; reflexivity.
Qed.

Lemma prune_filter (w : World) (entries : list (string * DownloadedPaper)) :
  forall m,
    prune w entries m =
    List.filter (fun x => negb (existsb (String.eqb (fst x)) (dead_keys w entries))) m.
Proof.
  unfold prune, dead_keys.
  induction entries as [|e entries IH]; intros m; simpl.
  - induction m as [|x m IHm]; simpl; [reflexivity|]. rewrite <- IHm. reflexivity.
  - destruct (alive w e) eqn:E; simpl; [apply IH|].
    rewrite IH. unfold Map.delete. rewrite filter_filter.
    apply filter_ext. intros x. rewrite negb_orb. reflexivity.
Qed.

Lemma prune_wf (w : World) (m : list (string * DownloadedPaper)) :
  Map.wf m -> prune w m m = List.filter (alive w) m.
Proof.
  intros Hwf. rewrite prune_filter. apply filter_ext_in. intros x Hx.
  destruct (alive w x) eqn:E.
  - apply negb_true_iff. destruct (existsb _ _) eqn:Ex; [|reflexivity].
    apply existsb_exists in Ex as (k & Hk & Heq). apply String.eqb_eq in Heq.
    unfold dead_keys in Hk. apply in_map_iff in Hk as (d & Hd & Hin).
    apply filter_In in Hin as [Hin Hdead].
    assert (x = d) by (apply (wf_unique m); auto; congruence). subst d.
    rewrite E in Hdead. discriminate.
  - apply negb_false_iff. apply existsb_exists. exists (fst x). split.
    + unfold dead_keys. apply in_map. apply filter_In. rewrite E. auto.
    + apply String.eqb_refl.
Qed.

(** [list()] on a catalog with unique keys: the papers with an artifact,
    the catalog pruned in memory, the world as it was. *)
Lemma list_spec (st : State) :
  Map.wf (metadata st) ->
  listDownloadedPapers st = (Return (List.map snd (survivors st)), pruned st).
Proof.
  intros Hwf. unfold listDownloadedPapers, bind, gets.
  rewrite list_loop_spec. cbn [app]. rewrite prune_wf by exact Hwf.
  cbn [metadata world]. unfold Map.size. rewrite length_map, Nat.eqb_refl.
  reflexivity.
Qed.

Lemma survivors_pruned (st : State) : survivors (pruned st) = survivors st.
Proof.
  unfold pruned, survivors; cbn [world metadata]. rewrite filter_filter.
  apply filter_ext. intros x. apply andb_diag.
Qed.

Lemma pruned_idem (st : State) : pruned (pruned st) = pruned st.
Proof. unfold pruned at 1 3. rewrite survivors_pruned. reflexivity. Qed.

Lemma pruned_wf (st : State) : Map.wf (metadata st) -> Map.wf (metadata (pruned st)).
Proof. apply wf_filter. Qed.

Lemma after_lists_pruned (n : nat) (st : State) :
  Map.wf (metadata st) -> after_lists (S n) st = pruned st.
Proof.
  revert st; induction n as [|n IH]; intros st Hwf.
  - simpl. rewrite list_spec by exact Hwf. reflexivity.
  - change (after_lists (S (S n)) st)
      with (after_lists (S n) (snd (listDownloadedPapers st))).
    rewrite list_spec by exact Hwf. cbn [snd].
    rewrite IH by (apply pruned_wf; exact Hwf). apply pruned_idem.
Qed.

(** Every call of [list()] after the first returns what the first did,
    while the world stays as it is. *)
Lemma list_again (n : nat) (st : State) :
  Map.wf (metadata st) ->
  listDownloadedPapers (after_lists n st)
  = (Return (List.map snd (survivors st)), pruned st).
Proof.
  intros Hwf. destruct n as [|n].
  - simpl. apply list_spec, Hwf.
  - rewrite after_lists_pruned by exact Hwf.
    rewrite list_spec by (apply pruned_wf, Hwf).
    rewrite survivors_pruned, pruned_idem. reflexivity.
Qed.

(** *** Eviction *)

Lemma unlink_fails_spec (st : State) (p : string) :
  unlink_fails (world st) p = true ->
  exists e, fs.unlink p st = (Throw e, st).
Proof.
  unfold unlink_fails, fs.unlink. intros H.
  destruct (negb (fs.exists_ (world st) p)); [eauto|].
  simpl in H. rewrite H. eauto.
Qed.

Lemma deletePaper_failed_unlink (st : State) (id : string) (paper : DownloadedPaper) :
  Map.get id (metadata st) = Some paper ->
  unlink_fails (world st) (dp_filePath paper) = true ->
  deletePaper id st = (Return false, st).
Proof.
  intros Hget Hfail. unfold deletePaper, bind, gets. rewrite Hget.
  unfold try_catch, bind.
  destruct (unlink_fails_spec st _ Hfail) as [e ->]. reflexivity.
Qed.

(** *** Acquisition *)

Lemma downloadPaper_hit (st : State) (id url : string) (info : PaperInfo)
    (existing : DownloadedPaper) :
  Map.get id (metadata st) = Some existing ->
  fs.exists_ (world st) (dp_filePath existing) = true ->
  downloadPaper id url info st = (Return existing, st).
Proof.
  intros Hget Hex. unfold downloadPaper, bind, gets. rewrite Hget.
  unfold try_catch, bind, fs.access. rewrite Hex. reflexivity.
Qed.

Lemma download_stored (st st1 : State) (id url : string)
    (info : PaperInfo) (paper : DownloadedPaper) :
  download id url info st = (Return paper, st1) ->
  Map.get id (metadata st1) = Some paper /\
  fs.exists_ (world st1) (dp_filePath paper) = true.
Proof.
  unfold download, bind, fs.fetch.
  destruct (remote (world st) !! url) as [r|]; [|discriminate].
  destruct (ok r); [|discriminate]. cbn [negb].
  unfold gets, fs.writeFile.
  destruct (fs.locked _ _); [discriminate|].
  unfold fileUtils.getFileSize, try_catch, fs.stat_size, bind, fs.readFile.
  cbn [set_world world files metadata].
  rewrite lookup_insert_eq.
  unfold ret, modify, saveMetadata, bind, gets,
    fileUtils.writeJsonFile_metadata, set_metadata, set_world.
  cbn [world metadata metadata_writable].
  destruct (metadata_writable (world st)); [|discriminate].
  intros H; inversion H; subst; clear H. cbn [metadata world files dp_filePath].
  split; [apply get_set|].
  unfold fs.exists_. cbn [files]. rewrite lookup_insert_eq. reflexivity.
Qed.

(** *** The keys of the catalog stay unique *)

Lemma download_metadata (st : State) (id url : string) (info : PaperInfo) :
  metadata (snd (download id url info st)) = metadata st \/
  exists paper, metadata (snd (download id url info st)) = Map.set id paper (metadata st).
Proof.
  unfold download, bind, fs.fetch.
  destruct (remote (world st) !! url) as [r|]; [|left; reflexivity].
  destruct (ok r); [|left; reflexivity]. cbn [negb].
  unfold gets, fs.writeFile.
  destruct (fs.locked _ _); [left; reflexivity|].
  unfold fileUtils.getFileSize, try_catch, fs.stat_size, bind, fs.readFile.
  cbn [set_world world files metadata].
  rewrite lookup_insert_eq.
  unfold ret, modify, saveMetadata, bind, gets,
    fileUtils.writeJsonFile_metadata, set_metadata, set_world.
  cbn [world metadata metadata_writable].
  destruct (metadata_writable (world st)); right; eexists; reflexivity.
Qed.

Lemma methods_keep_wf (st : State) (id url : string) (info : PaperInfo) :
  Map.wf (metadata st) ->
  Map.wf (metadata (snd (downloadPaper id url info st))) /\
  Map.wf (metadata (snd (listDownloadedPapers st))) /\
  Map.wf (metadata (snd (deletePaper id st))).
Proof.
  intros Hwf. split; [|split].
  - assert (Hd : Map.wf (metadata (snd (download id url info st)))).
    { destruct (download_metadata st id url info) as [->|[p ->]];
        [exact Hwf|apply wf_set, Hwf]. }
    unfold downloadPaper, bind, gets.
    destruct (Map.get id (metadata st)) as [e|]; [|exact Hd].
    unfold try_catch, bind, fs.access.
    destruct (fs.exists_ (world st) (dp_filePath e)); [exact Hwf|exact Hd].
  - rewrite (list_spec st Hwf). apply pruned_wf, Hwf.
  - unfold deletePaper, bind, gets.
    destruct (Map.get id (metadata st)) as [p|]; [|exact Hwf].
    unfold try_catch, bind, fs.unlink.
    destruct (negb (fs.exists_ (world st) (dp_filePath p))); [exact Hwf|].
    destruct (fs.locked (world st) (dp_filePath p)); [exact Hwf|].
    unfold modify, saveMetadata, bind, gets, fileUtils.writeJsonFile_metadata,
      set_metadata, set_world.
    cbn [world metadata metadata_writable].
    destruct (metadata_writable (world st)); apply wf_delete, Hwf.
Qed.

(** Acquisition twice in a row: the second call returns what the first
    returned and changes nothing. *)
Lemma downloadPaper_twice (st st1 : State) (id url : string)
    (info : PaperInfo) (paper : DownloadedPaper) :
  downloadPaper id url info st = (Return paper, st1) ->
  downloadPaper id url info st1 = (Return paper, st1).
Proof.
  intros H.
  enough (Map.get id (metadata st1) = Some paper /\
          fs.exists_ (world st1) (dp_filePath paper) = true) as [Hg He]
    by (apply downloadPaper_hit; assumption).
  revert H. unfold downloadPaper, bind, gets.
  destruct (Map.get id (metadata st)) as [e|] eqn:Hget.
  - unfold try_catch, bind, fs.access.
    destruct (fs.exists_ (world st) (dp_filePath e)) eqn:Hex; cbn [ret].
    + intros H; inversion H; subst. auto.
    + apply download_stored.
  - apply download_stored.
Qed.

End StorageFacts.

(** C2 (the code departs from the claim): on a catalog with unique keys
    [list()] returns the papers whose artifact exists, in catalog order,
    and drops the other entries from the catalog in memory, so that every
    later call returns the same papers; but the world is left as it was:
    the metadata file is not rewritten, whether entries were dropped or
    not, because the two sizes the method compares are always equal. *)
Theorem C2_list_prunes_memory_never_persists (st : State) :
  Map.wf (metadata st) ->
  StorageManager.listDownloadedPapers st
    = (Return (List.map snd (survivors st)), mkState (world st) (survivors st)) /\
  metadata_json (world (snd (StorageManager.listDownloadedPapers st)))
    = metadata_json (world st) /\
  written (world (snd (StorageManager.listDownloadedPapers st))) = written (world st) /\
  forall n, fst (StorageManager.listDownloadedPapers (after_lists n st))
            = Return (List.map snd (survivors st)).
Proof.
  intros Hwf. rewrite (StorageFacts.list_spec st Hwf).
  repeat split; try reflexivity.
  intros n. rewrite (StorageFacts.list_again n st Hwf). reflexivity.
Qed.

Lemma C2_witness :
  Map.wf (metadata missing_state) /\
  StorageManager.listDownloadedPapers missing_state
    = (Return [], mkState (world missing_state) []) /\
  metadata_json (world (snd (StorageManager.listDownloadedPapers missing_state)))
    = Some [("2301.00001", paper1)] /\
  written (world (snd (StorageManager.listDownloadedPapers missing_state))) = [].
Proof.
  assert (Hwf : Map.wf (metadata missing_state)).
  { repeat constructor. intros []. }
  split; [exact Hwf|].
  destruct (C2_list_prunes_memory_never_persists missing_state Hwf) as (H1 & H2 & H3 & _).
  split; [exact H1|]. split; [exact H2|exact H3].
Defined.

(** C3, as amended: for every identifier whose catalog entry exists and
    whose artifact cannot be deleted, [deletePaper] catches the failure
    and returns the boolean [false], the value it returns for an unknown
    identifier; no error reaches the caller and nothing is changed. *)
Theorem C3_failed_deletion_returns_false (st : State) (id : string)
    (paper : DownloadedPaper) :
  Map.get id (metadata st) = Some paper ->
  unlink_fails (world st) (dp_filePath paper) = true ->
  StorageManager.deletePaper id st = (Return false, st).
Proof. apply StorageFacts.deletePaper_failed_unlink. Qed.

Lemma C3_witness :
  Map.get "2301.00001" (metadata locked_state) = Some paper1 /\
  unlink_fails (world locked_state) (dp_filePath paper1) = true /\
  StorageManager.deletePaper "2301.00001" locked_state = (Return false, locked_state).
Proof.
  split; [reflexivity|]. split; [vm_compute; reflexivity|].
  apply (C3_failed_deletion_returns_false locked_state "2301.00001" paper1).
  - reflexivity.
  - vm_compute; reflexivity.
Defined.

(** The claim C3 as stated fails: the artifact of the entry exists and is
    protected, its deletion fails, and [deletePaper] returns [false]
    instead of throwing. *)
Lemma C3_counterexample :
  Map.get "2301.00001" (metadata locked_state) = Some paper1 /\
  unlink_fails (world locked_state) (dp_filePath paper1) = true /\
  fst (StorageManager.deletePaper "2301.00001" locked_state) = Return false /\
  ~ (exists e, fst (StorageManager.deletePaper "2301.00001" locked_state) = Throw e
               /\ Errors.class e = Errors.StorageErrorC).
Proof.
  assert (H : fst (StorageManager.deletePaper "2301.00001" locked_state) = Return false)
    by (vm_compute; reflexivity).
  split; [reflexivity|]. split; [vm_compute; reflexivity|]. split; [exact H|].
  intros (e & He & _). rewrite H in He. discriminate He.
Qed.

(** C4: for every identifier whose catalog entry exists, if the deletion
    of its artifact fails during [deletePaper], the catalog in memory and
    the world are unchanged, the entry is still there, and while its
    artifact exists every later [list()] returns it. *)
Theorem C4_failed_deletion_keeps_entry (st : State) (id : string)
    (paper : DownloadedPaper) :
  Map.wf (metadata st) ->
  Map.get id (metadata st) = Some paper ->
  unlink_fails (world st) (dp_filePath paper) = true ->
  let st' := snd (StorageManager.deletePaper id st) in
  metadata st' = metadata st /\
  world st' = world st /\
  Map.get id (metadata st') = Some paper /\
  (fs.exists_ (world st') (dp_filePath paper) = true ->
   forall n, exists papers,
     fst (StorageManager.listDownloadedPapers (after_lists n st')) = Return papers /\
     In paper papers).
Proof.
  intros Hwf Hget Hfail st'. subst st'.
  rewrite (StorageFacts.deletePaper_failed_unlink st id paper Hget Hfail). cbn [snd].
  repeat split; auto.
  intros Hex n. exists (List.map snd (survivors st)).
  rewrite (StorageFacts.list_again n st Hwf). split; [reflexivity|].
  apply (in_map snd _ (id, paper)). apply filter_In. split.
  - apply StorageFacts.get_In. exact Hget.
  - exact Hex.
Qed.

Lemma C4_witness :
  metadata (snd (StorageManager.deletePaper "2301.00001" locked_state))
    = [("2301.00001", paper1)] /\
  forall n, exists papers,
    fst (StorageManager.listDownloadedPapers
           (after_lists n (snd (StorageManager.deletePaper "2301.00001" locked_state))))
      = Return papers /\
    In paper1 papers.
Proof.
  assert (Hwf : Map.wf (metadata locked_state)).
  { repeat constructor. intros []. }
  assert (Hget : Map.get "2301.00001" (metadata locked_state) = Some paper1)
    by reflexivity.
  assert (Hfail : unlink_fails (world locked_state) (dp_filePath paper1) = true)
    by (vm_compute; reflexivity).
  destruct (C4_failed_deletion_keeps_entry locked_state "2301.00001" paper1 Hwf Hget Hfail)
    as (H1 & H2 & _ & H4).
  split; [exact H1|]. apply H4. rewrite H2. vm_compute. reflexivity.
Defined.

(** C5: for every identifier that has a catalog entry whose artifact
    exists, [downloadPaper] returns that entry as it is and leaves the
    state as it was: no fetch is made, no file is written and the catalog
    is unchanged. *)
Theorem C5_second_download_is_idle (st : State) (id url : string)
    (info : StorageManager.PaperInfo) (existing : DownloadedPaper) :
  Map.get id (metadata st) = Some existing ->
  fs.exists_ (world st) (dp_filePath existing) = true ->
  StorageManager.downloadPaper id url info st = (Return existing, st) /\
  fetched (world (snd (StorageManager.downloadPaper id url info st))) = fetched (world st) /\
  written (world (snd (StorageManager.downloadPaper id url info st))) = written (world st) /\
  files (world (snd (StorageManager.downloadPaper id url info st))) = files (world st) /\
  metadata (snd (StorageManager.downloadPaper id url info st)) = metadata st.
Proof.
  intros Hget Hex.
  rewrite (StorageFacts.downloadPaper_hit st id url info existing Hget Hex).
  repeat split.
Qed.

Lemma C5_witness :
  StorageManager.downloadPaper "2301.00001" "https://arxiv.org/pdf/2301.00001"
    (StorageManager.mkInfo "Another title" [] [] "") stored_state
  = (Return paper1, stored_state).
Proof.
  apply (C5_second_download_is_idle stored_state "2301.00001"
           "https://arxiv.org/pdf/2301.00001"
           (StorageManager.mkInfo "Another title" [] [] "") paper1).
  - reflexivity.
  - vm_compute. reflexivity.
Defined.

Lemma replace_first_slashes (id : string) :
  slashes (JS.replace_first "/" "_" id) = slashes id - 1.
Proof.
  induction id as [|c id IH]; simpl; [reflexivity|].
  destruct (Ascii.eqb c "/") eqn:E; simpl.
  - change ("" +:+ id) with id. lia.
  - rewrite E. simpl. exact IH.
Qed.

(** C7 (the code departs from the claim): the artifact is named
    [<identifier>_<sanitized title>.pdf], but only the first slash of the
    identifier is replaced: the name derived from the identifier [a/b/c]
    still holds a slash.  An identifier with one slash loses it, and the
    title is sanitized as the claim says. *)
Theorem C7_filename_keeps_later_slashes :
  StorageManager.filename "a/b/c" "T" = "a_b/c_T.pdf" /\
  slashes (StorageManager.filename "a/b/c" "T") = 1 /\
  (forall id, slashes (JS.replace_first "/" "_" id) = slashes id - 1) /\
  StorageManager.filename "hep-th/9901001" "A <b>:  c/d__e?"
    = "hep-th_9901001_A_b_c_d_e_.pdf".
Proof.
  split; [vm_compute; reflexivity|]. split; [vm_compute; reflexivity|].
  split; [exact replace_first_slashes|vm_compute; reflexivity].
Qed.

(* ===================================================================== *)
(** * Part IX: the reading tools                                         *)
(* ===================================================================== *)

Module ServerFacts.
Import ArxivServer.


Lemma missing_truthy (id : string) : JS.truthy id = true -> missing (Some id) = false.
Proof. intros H. unfold missing. rewrite H. reflexivity. Qed.

End ServerFacts.




(* ===================================================================== *)
(** * Part X: further properties of the storage manager                  *)
(* ===================================================================== *)

Module StorageMore.
Import StorageManager.

Lemma get_delete_eq {V} (k : string) (m : list (string * V)) :
  Map.get k (Map.delete k m) = None.
Proof.
  unfold Map.delete. induction m as [|[k' v] m IH]; simpl; [reflexivity|].
  destruct (String.eqb k' k) eqn:E; simpl; [exact IH|]. rewrite E. exact IH.
Qed.

Lemma get_delete_ne {V} (k k0 : string) (m : list (string * V)) :
  k0 <> k -> Map.get k0 (Map.delete k m) = Map.get k0 m.
Proof.
  intros Hne. unfold Map.delete. induction m as [|[k' v] m IH]; simpl; [reflexivity|].
  destruct (String.eqb k' k) eqn:E; simpl.
  - apply String.eqb_eq in E; subst k'.
    destruct (String.eqb k k0) eqn:E0; [apply String.eqb_eq in E0; congruence|exact IH].
  - destruct (String.eqb k' k0); [reflexivity|exact IH].
Qed.

Lemma get_set_ne {V} (k k0 : string) (v : V) (m : list (string * V)) :
  k0 <> k -> Map.get k0 (Map.set k v m) = Map.get k0 m.
Proof.
  intros Hne. induction m as [|[k' v'] m IH]; simpl.
  - destruct (String.eqb k k0) eqn:E; [apply String.eqb_eq in E; congruence|reflexivity].
  - destruct (String.eqb k' k) eqn:E; simpl.
    + apply String.eqb_eq in E; subst k'.
      destruct (String.eqb k k0) eqn:E0; [apply String.eqb_eq in E0; congruence|reflexivity].
    + destruct (String.eqb k' k0); [reflexivity|exact IH].
Qed.

Lemma exists_delete (w : World) (p : string) :
  bool_decide (is_Some (base.delete p (files w) !! p)) = false.
Proof.
  apply bool_decide_eq_false. rewrite lookup_delete_eq. intros [x Hx]. discriminate.
Qed.

End StorageMore.

(** X1: eviction of a stored paper whose artifact can be deleted, with a
    writable metadata file: [deletePaper] returns [true], the artifact is
    gone, the entry of the identifier is gone, every other entry is as it
    was, and the metadata file holds the new catalog. *)
Theorem deletePaper_evicts (st : State) (id : string) (paper : DownloadedPaper) :
  Map.get id (metadata st) = Some paper ->
  unlink_fails (world st) (dp_filePath paper) = false ->
  metadata_writable (world st) = true ->
  exists st',
    StorageManager.deletePaper id st = (Return true, st') /\
    metadata st' = Map.delete id (metadata st) /\
    Map.get id (metadata st') = None /\
    (forall k, k <> id -> Map.get k (metadata st') = Map.get k (metadata st)) /\
    files (world st') = base.delete (dp_filePath paper) (files (world st)) /\
    fs.exists_ (world st') (dp_filePath paper) = false /\
    metadata_json (world st') = Some (metadata st') /\
    written (world st') = written (world st) ++ [METADATA_FILE (world st)].
Proof.
  intros Hget Hun Hw. unfold unlink_fails in Hun.
  apply orb_false_iff in Hun as [Hex Hlock]. 
  unfold StorageManager.deletePaper, bind, gets. rewrite Hget.
  unfold try_catch, bind, fs.unlink. rewrite Hex, Hlock.
  unfold modify, StorageManager.saveMetadata, bind, gets,
    fileUtils.writeJsonFile_metadata, set_metadata, set_world, ret.
  cbn [world metadata metadata_writable]. rewrite Hw.
  eexists. split; [reflexivity|]. cbn [world metadata files metadata_json written].
  repeat split.
  - apply StorageMore.get_delete_eq.
  - intros k Hk. apply StorageMore.get_delete_ne, Hk.
  - unfold fs.exists_. cbn [files]. apply StorageMore.exists_delete.
Qed.

Lemma deletePaper_evicts_witness :
  exists st',
    StorageManager.deletePaper "2301.00001" two_papers = (Return true, st') /\
    metadata st' = [("2301.00002", paper2)] /\
    metadata_json (world st') = Some [("2301.00002", paper2)].
Proof.
  destruct (deletePaper_evicts two_papers "2301.00001" paper1)
    as (st' & H1 & H2 & _ & _ & _ & _ & H7 & _).
  - reflexivity.
  - vm_compute. reflexivity.
  - reflexivity.
  - exists st'. split; [exact H1|]. rewrite H7, H2. split; reflexivity.
Defined.

(** X2: when the artifact is deleted but the metadata file cannot be
    written, [deletePaper] returns [false] although the paper is gone:
    the artifact is deleted and the entry is dropped from the catalog in
    memory, while the metadata file still holds what it held. *)
Theorem deletePaper_false_after_deleting (st : State) (id : string)
    (paper : DownloadedPaper) :
  Map.get id (metadata st) = Some paper ->
  unlink_fails (world st) (dp_filePath paper) = false ->
  metadata_writable (world st) = false ->
  exists st',
    StorageManager.deletePaper id st = (Return false, st') /\
    Map.get id (metadata st') = None /\
    fs.exists_ (world st') (dp_filePath paper) = false /\
    metadata_json (world st') = metadata_json (world st) /\
    written (world st') = written (world st).
Proof.
  intros Hget Hun Hw. unfold unlink_fails in Hun.
  apply orb_false_iff in Hun as [Hex Hlock].
  unfold StorageManager.deletePaper, bind, gets. rewrite Hget.
  unfold try_catch, bind, fs.unlink. rewrite Hex, Hlock.
  unfold modify, StorageManager.saveMetadata, bind, gets,
    fileUtils.writeJsonFile_metadata, set_metadata, set_world, ret.
  cbn [world metadata metadata_writable]. rewrite Hw.
  eexists. split; [reflexivity|]. cbn [world metadata files metadata_json written].
  repeat split.
  - apply StorageMore.get_delete_eq.
  - unfold fs.exists_. cbn [files]. apply StorageMore.exists_delete.
Qed.

Lemma deletePaper_false_after_deleting_witness :
  exists st',
    StorageManager.deletePaper "2301.00001" frozen_papers = (Return false, st') /\
    Map.get "2301.00001" (metadata st') = None /\
    fs.exists_ (world st') (dp_filePath paper1) = false /\
    metadata_json (world st') = Some [("2301.00001", paper1); ("2301.00002", paper2)].
Proof.
  destruct (deletePaper_false_after_deleting frozen_papers "2301.00001" paper1)
    as (st' & H1 & H2 & H3 & H4 & _).
  - reflexivity.
  - vm_compute. reflexivity.
  - reflexivity.
  - exists st'. repeat split; assumption.
Defined.

(** X4: acquisition of a paper that is not stored, when the request fails
    or the server answers without success: [downloadPaper] throws (for an
    answer without success, the Error "Failed to download: " followed by
    the status text); the fetch was made, and nothing else has changed:
    no file is written and the catalog and the metadata file are as they
    were. *)
Theorem downloadPaper_fetch_failure (st : State) (id url : string)
    (info : StorageManager.PaperInfo) :
  cached st id = false ->
  match remote (world st) !! url with
  | Some r => ok r = false
  | None => True
  end ->
  exists e st',
    StorageManager.downloadPaper id url info st = (Throw e, st') /\
    (forall r, remote (world st) !! url = Some r ->
               e = Errors.Error ("Failed to download: " +:+ statusText r)) /\
    fetched (world st') = fetched (world st) ++ [url] /\
    metadata st' = metadata st /\
    files (world st') = files (world st) /\
    metadata_json (world st') = metadata_json (world st) /\
    written (world st') = written (world st).
Proof.
  intros Hc Hr.
  assert (Hmiss : StorageManager.downloadPaper id url info st
                  = StorageManager.download id url info st).
  { unfold StorageManager.downloadPaper, bind, gets. unfold cached in Hc.
    destruct (Map.get id (metadata st)) as [e|]; [|reflexivity].
    unfold try_catch, bind, fs.access. rewrite Hc. reflexivity. }
  rewrite Hmiss. unfold StorageManager.download, bind, fs.fetch.
  destruct (remote (world st) !! url) as [r|].
  - rewrite Hr. cbn [negb]. unfold throw. eexists _, _. split; [reflexivity|].
    cbn [world set_world metadata files metadata_json written fetched].
    repeat split. intros r' H; inversion H; reflexivity.
  - eexists _, _. split; [reflexivity|].
    cbn [world set_world metadata files metadata_json written fetched].
    repeat split. intros r' H; discriminate H.
Qed.

Lemma downloadPaper_fetch_failure_witness :
  exists st',
    StorageManager.downloadPaper "2301.00004" "https://arxiv.org/pdf/2301.00004"
      third_info frozen_papers
    = (Throw (Errors.Error "Failed to download: Not Found"), st') /\
    metadata st' = metadata frozen_papers /\
    files (world st') = files (world frozen_papers).
Proof.
  destruct (downloadPaper_fetch_failure frozen_papers "2301.00004"
              "https://arxiv.org/pdf/2301.00004" third_info)
    as (e & st' & H1 & H2 & _ & H4 & H5 & _); try (vm_compute; reflexivity).
  exists st'. rewrite (H2 (mkResponse false "Not Found" "")) in H1 by (vm_compute; reflexivity).
  repeat split; assumption.
Defined.

Module StorageMore2.
Import StorageManager.

Lemma downloadPaper_result_stored (st st1 : State) (id url : string)
    (info : PaperInfo) (paper : DownloadedPaper) :
  downloadPaper id url info st = (Return paper, st1) ->
  Map.get id (metadata st1) = Some paper /\
  fs.exists_ (world st1) (dp_filePath paper) = true.
Proof.
  unfold downloadPaper, bind, gets.
  destruct (Map.get id (metadata st)) as [e|] eqn:Hget.
  - unfold try_catch, bind, fs.access.
    destruct (fs.exists_ (world st) (dp_filePath e)) eqn:Hex; cbn [ret].
    + intros H; inversion H; subst. auto.
    + apply StorageFacts.download_stored.
  - apply StorageFacts.download_stored.
Qed.

Lemma sum_sizes (papers : list DownloadedPaper) (acc : nat) :
  List.fold_left (fun sum paper => sum + dp_fileSize paper) papers acc
  = acc + list_sum (List.map dp_fileSize papers).
Proof.
  revert acc; induction papers as [|p papers IH]; intros acc; simpl; [lia|].
  rewrite IH. lia.
Qed.

(** What [deletePaper] does to the catalog and to the files. *)
Lemma deletePaper_effect (st : State) (id : string) :
  (metadata (snd (deletePaper id st)) = metadata st \/
   metadata (snd (deletePaper id st)) = Map.delete id (metadata st)) /\
  now (world (snd (deletePaper id st))) = now (world st).
Proof.
  unfold deletePaper, bind, gets.
  destruct (Map.get id (metadata st)) as [p|]; [|auto].
  unfold try_catch, bind, fs.unlink.
  destruct (negb (fs.exists_ (world st) (dp_filePath p))); [auto|].
  destruct (fs.locked (world st) (dp_filePath p)); [auto|].
  unfold modify, saveMetadata, bind, gets, fileUtils.writeJsonFile_metadata,
    set_metadata, set_world.
  cbn [world metadata metadata_writable].
  destruct (metadata_writable (world st)); auto.
Qed.

End StorageMore2.

(** X6: a paper [downloadPaper] returns is stored: it is the entry of the
    identifier, its artifact exists, and (the keys of the catalog being
    unique) every [list()] that follows returns it. *)
Theorem downloaded_paper_is_listed (st st1 : State) (id url : string)
    (info : StorageManager.PaperInfo) (paper : DownloadedPaper) :
  Map.wf (metadata st) ->
  StorageManager.downloadPaper id url info st = (Return paper, st1) ->
  Map.get id (metadata st1) = Some paper /\
  fs.exists_ (world st1) (dp_filePath paper) = true /\
  forall n, exists papers,
    fst (StorageManager.listDownloadedPapers (after_lists n st1)) = Return papers /\
    In paper papers.
Proof.
  intros Hwf H.
  pose proof (proj1 (StorageFacts.methods_keep_wf st id url info Hwf)) as Hwf1.
  rewrite H in Hwf1. cbn [snd] in Hwf1.
  destruct (StorageMore2.downloadPaper_result_stored _ _ _ _ _ _ H) as [Hg He].
  split; [exact Hg|]. split; [exact He|].
  intros n. exists (List.map snd (survivors st1)).
  rewrite (StorageFacts.list_again n st1 Hwf1). split; [reflexivity|].
  apply (in_map snd _ (id, paper)). apply filter_In. split.
  - apply StorageFacts.get_In. exact Hg.
  - exact He.
Qed.

Lemma downloaded_paper_is_listed_witness :
  exists papers,
    fst (StorageManager.listDownloadedPapers stored_state) = Return papers /\
    In paper1 papers.
Proof.
  assert (Hwf : Map.wf (metadata stored_state)).
  { repeat constructor. intros []. }
  destruct (downloaded_paper_is_listed stored_state stored_state "2301.00001"
              "https://arxiv.org/pdf/2301.00001" third_info paper1 Hwf)
    as (_ & _ & H).
  - vm_compute. reflexivity.
  - exact (H 0).
Defined.

(** X7: on a catalog with unique keys [getStorageStats] counts the papers
    whose artifact exists and adds up their recorded sizes; like [list()]
    it drops the other entries from the catalog in memory and writes
    nothing. *)
Theorem getStorageStats_counts_survivors (st : State) :
  Map.wf (metadata st) ->
  let sizes := List.map (fun e => dp_fileSize (snd e)) (survivors st) in
  StorageMaintenance.getStorageStats st
  = (Return (StorageMaintenance.mkStats
               (List.length (survivors st)) (list_sum sizes)
               (fileUtilsMore.formatFileSize (N.of_nat (list_sum sizes)))),
     pruned st).
Proof.
  intros Hwf sizes. unfold StorageMaintenance.getStorageStats, bind.
  rewrite (StorageFacts.list_spec st Hwf). unfold ret.
  rewrite StorageMore2.sum_sizes, length_map, map_map. reflexivity.
Qed.

Lemma getStorageStats_counts_survivors_witness :
  StorageMaintenance.getStorageStats two_papers
  = (Return (StorageMaintenance.mkStats 2 3048 "2.98 KB"), two_papers).
Proof.
  assert (Hwf : Map.wf (metadata two_papers)).
  { repeat constructor; simpl; [intros [H|[]]; discriminate H|intros []]. }
  rewrite (getStorageStats_counts_survivors two_papers Hwf).
  vm_compute. reflexivity.
Defined.

Module CleanupFacts.
Import StorageManager StorageMaintenance.

Lemma In_get {V} (k : string) (v : V) (m : list (string * V)) :
  Map.wf m -> In (k, v) m -> Map.get k m = Some v.
Proof.
  unfold Map.wf, Map.keys. induction m as [|[k' v'] m IH]; simpl; intros Hwf Hin; [destruct Hin|].
  inversion Hwf as [|? ? Hn Hm]; subst.
  destruct (String.eqb k' k) eqn:E.
  - apply String.eqb_eq in E; subst k'. destruct Hin as [H|H]; [congruence|].
    exfalso. apply Hn. apply (in_map fst _ (k, v)). exact H.
  - destruct Hin as [H|H]; [inversion H; subst; rewrite String.eqb_refl in E; discriminate|].
    apply IH; assumption.
Qed.

Lemma deletePaper_returns (st : State) (id : string) :
  exists b st',
    deletePaper id st = (Return b, st') /\
    (metadata st' = metadata st \/ metadata st' = Map.delete id (metadata st)).
Proof.
  unfold deletePaper, bind, gets.
  destruct (Map.get id (metadata st)) as [p|]; [|unfold ret; eauto].
  unfold try_catch, bind, fs.unlink.
  destruct (negb (fs.exists_ (world st) (dp_filePath p))); [unfold ret; eauto|].
  destruct (fs.locked (world st) (dp_filePath p)); [unfold ret; eauto|].
  unfold modify, saveMetadata, bind, gets, fileUtils.writeJsonFile_metadata,
    set_metadata, set_world, ret.
  cbn [world metadata metadata_writable].
  destruct (metadata_writable (world st)); eexists _, _; split; try reflexivity; auto.
Qed.

Section Loop.
Variable isBefore : string -> string -> Z -> bool.
Variable today : string.
Variable daysOld : Z.

Local Abbreviation old := (before_cutoff isBefore today daysOld).

(** The loop returns; it counts at most the old papers, and leaves the
    entry of every key that is not the identifier of an old paper. *)
Lemma cleanup_loop_spec (papers : list DownloadedPaper) :
  forall count st, exists n st',
    cleanup_loop isBefore today daysOld papers count st = (Return n, st') /\
    count <= n <= count + List.length (List.filter old papers) /\
    forall k v,
      Map.get k (metadata st) = Some v ->
      (forall q, In q papers -> old q = true -> dp_id q <> k) ->
      Map.get k (metadata st') = Some v.
Proof.
  induction papers as [|p papers IH]; intros count st; cbn [cleanup_loop].
  - exists count, st. unfold ret. split; [reflexivity|]. simpl. split; [lia|auto].
  - unfold bind, cleanup_step. fold (before_cutoff isBefore today daysOld p). cbn [List.filter].
    destruct (old p) eqn:Eo.
    + unfold bind. destruct (deletePaper_returns st (dp_id p)) as (b & st1 & -> & Hm).
      unfold ret.
      destruct (IH (if b then S count else count) st1) as (n & st' & -> & Hn & Hkeep).
      exists n, st'. split; [reflexivity|]. split.
      * cbn [List.length]. destruct b; lia.
      * intros k v Hget Hq. apply Hkeep.
        -- destruct Hm as [->| ->]; [exact Hget|].
           rewrite StorageMore.get_delete_ne; [exact Hget|].
           intros ->. apply (Hq p); [left; reflexivity|exact Eo|reflexivity].
        -- intros q Hin. apply Hq. right; exact Hin.
    + unfold ret. destruct (IH count st) as (n & st' & -> & Hn & Hkeep).
      exists n, st'. split; [reflexivity|]. split; [exact Hn|].
      intros k v Hget Hq. apply Hkeep; [exact Hget|].
      intros q Hin. apply Hq. right; exact Hin.
Qed.
End Loop.

End CleanupFacts.

(** X8: [cleanupOldPapers], whatever the dates are: on a catalog with
    unique keys whose entries are filed under their identifiers, the
    method returns a count, at most the number of stored papers that are
    before the cut-off, and the entry of a stored paper that is not
    before the cut-off is still in the catalog afterwards. *)
Theorem cleanupOldPapers_keeps_recent (isBefore : string -> string -> Z -> bool)
    (st : State) (daysOld : Z) (k : string) (p : DownloadedPaper) :
  Map.wf (metadata st) ->
  ids_are_keys (metadata st) ->
  In (k, p) (survivors st) ->
  isBefore (dp_downloadDate p) (now (world st)) daysOld = false ->
  exists n st',
    StorageMaintenance.cleanupOldPapers isBefore daysOld st = (Return n, st') /\
    n <= List.length
           (List.filter (fun e => isBefore (dp_downloadDate (snd e)) (now (world st)) daysOld)
                        (survivors st)) /\
    Map.get k (metadata st') = Some p.
Proof.
  intros Hwf Hids Hin Hrecent.
  unfold StorageMaintenance.cleanupOldPapers, bind, gets.
  rewrite (StorageFacts.list_spec st Hwf).
  destruct (CleanupFacts.cleanup_loop_spec isBefore (now (world st)) daysOld
              (List.map snd (survivors st)) 0 (pruned st))
    as (n & st' & -> & Hn & Hkeep).
  exists n, st'. split; [reflexivity|]. split.
  - destruct Hn as [_ Hn]. cbn [Nat.add] in Hn.
    assert (Hlen : forall l : list (string * DownloadedPaper),
              List.length (List.filter (before_cutoff isBefore (now (world st)) daysOld)
                                       (List.map snd l))
              = List.length (List.filter
                               (fun e => isBefore (dp_downloadDate (snd e))
                                                  (now (world st)) daysOld) l)).
    { induction l as [|e l IHl]; [reflexivity|]. cbn [List.map List.filter].
      unfold before_cutoff at 1.
      destruct (isBefore (dp_downloadDate (snd e)) (now (world st)) daysOld);
        cbn [List.length]; rewrite IHl; reflexivity. }
    rewrite Hlen in Hn. exact Hn.
  - apply Hkeep.
    + apply CleanupFacts.In_get; [apply StorageFacts.pruned_wf, Hwf|exact Hin].
    + intros q Hq Hold Heq.
      apply in_map_iff in Hq as (e & He & Hine).
      assert (Hem : In e (metadata st)) by (apply filter_In in Hine; tauto).
      assert (Hpm : In (k, p) (metadata st)) by (apply filter_In in Hin; tauto).
      assert (Hkey : fst e = k).
      { destruct e as [ke qe]. simpl in *. subst qe. rewrite <- (Hids ke q Hem). exact Heq. }
      assert (e = (k, p)) by (apply (StorageFacts.wf_unique (metadata st)); auto).
      subst e. simpl in He. subst q.
      unfold before_cutoff in Hold. rewrite Hrecent in Hold. discriminate.
Qed.

Lemma cleanupOldPapers_keeps_recent_witness :
  exists n st',
    StorageMaintenance.cleanupOldPapers
      (fun d _ _ => String.eqb d "2024-01-01T00:00:00.000Z") 30 two_papers
    = (Return n, st') /\
    n <= 1 /\
    Map.get "2301.00002" (metadata st') = Some paper2.
Proof.
  assert (Hwf : Map.wf (metadata two_papers)).
  { repeat constructor; simpl; [intros [H|[]]; discriminate H|intros []]. }
  assert (Hids : ids_are_keys (metadata two_papers)).
  { intros k p [H|[H|[]]]; inversion H; reflexivity. }
  destruct (cleanupOldPapers_keeps_recent
              (fun d _ _ => String.eqb d "2024-01-01T00:00:00.000Z")
              two_papers 30 "2301.00002" paper2 Hwf Hids)
    as (n & st' & H1 & H2 & H3).
  - vm_compute. right; left; reflexivity.
  - reflexivity.
  - exists n, st'. repeat split; assumption.
Defined.

(* ===================================================================== *)
(** * Part XI: further properties of the file names                      *)
(* ===================================================================== *)

Module StringFacts.

Lemma string_forall_get (P : ascii -> bool) (s : string) :
  string_forall P s = true <-> (forall p c, String.get p s = Some c -> P c = true).
Proof.
  induction s as [|d s IH]; simpl.
  - split; [intros _ p c H; destruct p; discriminate|reflexivity].
  - rewrite andb_true_iff, IH. split.
    + intros [Hd Hs] [|p] c H; [inversion H; subst; exact Hd|eapply Hs; exact H].
    + intros H. split; [apply (H 0); reflexivity|intros p c Hp; apply (H (S p)); exact Hp].
Qed.

Lemma string_forall_append (P : ascii -> bool) (a b : string) :
  string_forall P (a +:+ b) = string_forall P a && string_forall P b.
Proof.
  induction a as [|d a IH]; [reflexivity|].
  change (String d a +:+ b) with (String d (a +:+ b)). simpl.
  rewrite IH, andb_assoc. reflexivity.
Qed.

Lemma string_forall_substring (P : ascii -> bool) (s : string) :
  forall n m,
    (forall p c, n <= p < n + m -> String.get p s = Some c -> P c = true) ->
    string_forall P (String.substring n m s) = true.
Proof.
  induction s as [|d s IH]; intros n m H.
  - destruct n, m; reflexivity.
  - destruct n as [|n]; [destruct m as [|m]|]; simpl.
    + reflexivity.
    + rewrite (H 0 d) by (simpl; auto; lia). simpl.
      apply IH. intros p c Hp Hg. apply (H (S p)); [lia|exact Hg].
    + apply IH. intros p c Hp Hg. apply (H (S p)); [lia|exact Hg].
Qed.

Lemma length_substring_le (s : string) :
  forall n m, String.length (String.substring n m s) <= m.
Proof.
  induction s as [|d s IH]; intros [|n] [|m]; simpl; try lia.
  - specialize (IH 0 m). lia.
  - specialize (IH n 0). lia.
  - specialize (IH n (S m)). lia.
Qed.

(** The characters of [s.substring(a, b)] are characters of [s] at the
    indices from [a] to [b]. *)
Lemma string_forall_JS_substring (P : ascii -> bool) (s : string) (a b : nat) :
  (forall p c, Nat.min a b <= p < Nat.max a b -> String.get p s = Some c -> P c = true) ->
  string_forall P (JS.substring s a b) = true.
Proof.
  intros H. unfold JS.substring. apply string_forall_substring.
  intros p c Hp Hg. apply (H p c); [lia|exact Hg].
Qed.

Lemma string_forall_whole (P : ascii -> bool) (s : string) (a b : nat) :
  string_forall P s = true -> string_forall P (JS.substring s a b) = true.
Proof.
  intros H. apply string_forall_JS_substring. intros p c _.
  apply (proj1 (string_forall_get P s) H).
Qed.

End StringFacts.

Section ReplaceFacts.
Variable re : RegExp.t.
Variable by_ : string.
Variable s : string.
Variable P : ascii -> bool.

Let fl := RegExp.flags re.
Let r := RegExp.ast re.

(** The start indices [search_from] passes over hold no match. *)
Lemma search_from_first (n i0 i e : nat) (c : RegExp.caps) :
  RegExp.search_from fl s r n i0 = Some (i, e, c) ->
  forall p, i0 <= p < i -> RegExp.match_at fl s r p = None.
Proof.
  revert i0; induction n as [|n IH]; intros i0 H p Hp; simpl in H; [discriminate|].
  destruct (RegExp.match_at fl s r i0) as [[e' c']|] eqn:E.
  - inversion H; subst. lia.
  - destruct (Nat.eq_dec p i0) as [->|Hne]; [exact E|].
    apply (IH (S i0) H). lia.
Qed.

Lemma search_from_none (n i0 : nat) :
  RegExp.search_from fl s r n i0 = None ->
  forall p, i0 <= p < i0 + n -> RegExp.match_at fl s r p = None.
Proof.
  revert i0; induction n as [|n IH]; intros i0 H p Hp; simpl in H; [lia|].
  destruct (RegExp.match_at fl s r i0) as [[e' c']|] eqn:E; [discriminate|].
  destruct (Nat.eq_dec p i0) as [->|Hne]; [exact E|].
  apply (IH (S i0) H). lia.
Qed.

Hypothesis Hnull : nullable r = false.
Hypothesis Hby : string_forall P by_ = true.
Hypothesis Hgap : forall p c,
  String.get p s = Some c -> RegExp.match_at fl s r p = None -> P c = true.

(** The text of a global replacement is made of the replacement and of
    characters of the input at which the pattern does not match. *)
Lemma replace_loop_forall :
  forall fuel pos,
    S (String.length s) - pos < fuel ->
    string_forall P (RegExp.replace_loop re by_ s fuel pos) = true.
Proof.
  induction fuel as [|fuel IH]; intros pos Hf; [lia|].
  cbn [RegExp.replace_loop].
  destruct (String.length s <? pos) eqn:El; [reflexivity|].
  apply Nat.ltb_ge in El.
  fold fl r.
  destruct (RegExp.search_from fl s r (S (String.length s - pos)) pos)
    as [[[i e] c]|] eqn:Es.
  - pose proof (search_from_first _ _ _ _ _ Es) as Hfirst.
    apply search_from_spec in Es as [Hi Hm].
    pose proof (match_at_bounds _ _ _ _ _ _ Hm) as (H1 & H2 & H3).
    rewrite Hnull in H3. specialize (H3 eq_refl).
    rewrite !StringFacts.string_forall_append.
    assert (Hei : (e =? i) = false) by (apply Nat.eqb_neq; lia). rewrite Hei.
    rewrite Hby, IH by lia. rewrite andb_true_r.
    apply StringFacts.string_forall_JS_substring.
    intros p c0 Hp Hg. apply (Hgap p c0 Hg). apply Hfirst. lia.
  - unfold JS.drop. apply StringFacts.string_forall_substring.
    intros p c0 Hp Hg. apply (Hgap p c0 Hg).
    apply (search_from_none _ _ Es). lia.
Qed.

Lemma replace_forall : string_forall P (RegExp.replace re by_ s) = true.
Proof. unfold RegExp.replace. apply replace_loop_forall. lia. Qed.
End ReplaceFacts.

Module SanitizeFacts.

(** A global replacement by a text of [P]-characters keeps a text of
    [P]-characters one. *)
Lemma replace_keeps (re : RegExp.t) (by_ s : string) (P : ascii -> bool) :
  nullable (RegExp.ast re) = false ->
  string_forall P by_ = true ->
  string_forall P s = true ->
  string_forall P (RegExp.replace re by_ s) = true.
Proof.
  intros Hn Hby Hs. apply replace_forall; auto.
  intros p c Hg _. apply (proj1 (StringFacts.string_forall_get P s) Hs p c Hg).
Qed.

Lemma invalid_chars_class (c : ascii) :
  RegExp.char_matches (RegExp.flags fileUtils.invalid_chars)
                      (RegExp.ast fileUtils.invalid_chars) c
  = is_invalid c.
Proof.
  destruct c as [[|] [|] [|] [|] [|] [|] [|] [|]]; vm_compute; reflexivity.
Qed.

(** After the first replacement no invalid character is left. *)
Lemma step1_valid (filename : string) :
  string_forall (fun c => negb (is_invalid c))
                (RegExp.replace fileUtils.invalid_chars "_" filename) = true.
Proof.
  apply replace_forall; [vm_compute; reflexivity|reflexivity|].
  intros p c Hg Hm. rewrite <- invalid_chars_class.
  unfold RegExp.match_at in Hm.
  change (RegExp.ast fileUtils.invalid_chars)
    with (RegExp.Class false
            [RegExp.CiChar "<"; RegExp.CiChar ">"; RegExp.CiChar ":";
             RegExp.CiChar JS.dquote; RegExp.CiChar "/"; RegExp.CiChar "\";
             RegExp.CiChar "|"; RegExp.CiChar "?"; RegExp.CiChar "*"]) in *.
  cbn [RegExp.rmatch] in Hm. unfold RegExp.step1 in Hm. rewrite Hg in Hm.
  destruct (RegExp.char_matches _ _ c); [discriminate Hm|reflexivity].
Qed.

(** The pattern of the second replacement matches at every white-space
    character. *)
Lemma spaces_match (s : string) (p : nat) (c : ascii) :
  String.get p s = Some c -> JS.is_white c = true ->
  RegExp.match_at (RegExp.flags spaces) s (RegExp.ast spaces) p <> None.
Proof.
  intros Hg Hw.
  change (RegExp.ast spaces)
    with (RegExp.Rep 1 None true (RegExp.Class false [RegExp.CiSpace false])).
  unfold RegExp.match_at. cbn [RegExp.rmatch]. unfold RegExp.repeat_fuel.
  cbn [RegExp.repeat Nat.eqb negb Nat.add]. cbn [RegExp.rmatch].
  unfold RegExp.step1 at 1. rewrite Hg.
  assert (Hc : RegExp.char_matches (RegExp.flags spaces)
                 (RegExp.Class false [RegExp.CiSpace false]) c = true).
  { vm_compute RegExp.flags. cbn. rewrite Hw. reflexivity. }
  rewrite Hc. cbn [andb Nat.eqb Nat.pred option_map].
  apply get_Some_lt in Hg.
  destruct (String.length s - p) as [|k] eqn:Ek; [lia|].
  cbn [RegExp.repeat Nat.eqb negb andb].
  destruct (RegExp.step1 _ _ _ _ _ _); discriminate.
Qed.

End SanitizeFacts.

Lemma sanitized_clean (filename : string) :
  string_forall clean (fileUtils.sanitizeFilename filename) = true.
Proof.
  unfold fileUtils.sanitizeFilename.
  apply StringFacts.string_forall_whole.
  set (s1 := RegExp.replace fileUtils.invalid_chars "_" filename).
  assert (H1 : string_forall (fun c => negb (is_invalid c)) s1 = true)
    by apply SanitizeFacts.step1_valid.
  set (s2 := RegExp.replace (RegExp.literal "\s+" "g") "_" s1).
  assert (H2 : string_forall clean s2 = true).
  { apply StringFacts.string_forall_get. intros p c Hg. unfold clean.
    assert (Ha : string_forall (fun c => negb (is_invalid c)) s2 = true)
      by (apply SanitizeFacts.replace_keeps; [vm_compute; reflexivity|reflexivity|exact H1]).
    assert (Hb : string_forall (fun c => negb (JS.is_white c)) s2 = true).
    { apply replace_forall; [vm_compute; reflexivity|reflexivity|].
      intros q d Hq Hm. destruct (JS.is_white d) eqn:Ew; [|reflexivity].
      exfalso. apply (SanitizeFacts.spaces_match s1 q d Hq Ew). exact Hm. }
    rewrite (proj1 (StringFacts.string_forall_get _ s2) Ha p c Hg).
    rewrite (proj1 (StringFacts.string_forall_get _ s2) Hb p c Hg). reflexivity. }
  apply SanitizeFacts.replace_keeps; [vm_compute; reflexivity|reflexivity|exact H2].
Qed.

(** X9: for every text, [sanitizeFilename] returns a text of at most 200
    characters that holds none of the characters it replaces (the angle
    brackets, the colon, the double quote, the two slashes, the bar, the
    question mark, the star) and no white space. *)
Theorem sanitizeFilename_is_clean (filename : string) :
  string_forall clean (fileUtils.sanitizeFilename filename) = true /\
  String.length (fileUtils.sanitizeFilename filename) <= 200.
Proof.
  split; [apply sanitized_clean|].
  unfold fileUtils.sanitizeFilename, JS.substring.
  etransitivity; [apply StringFacts.length_substring_le|]. lia.
Qed.

Module NameFacts.

Lemma slashes_append (a b : string) : slashes (a +:+ b) = slashes a + slashes b.
Proof.
  induction a as [|c a IH]; [reflexivity|].
  change (String c a +:+ b) with (String c (a +:+ b)). simpl. rewrite IH. lia.
Qed.

Lemma clean_no_slash (s : string) : string_forall clean s = true -> slashes s = 0.
Proof.
  induction s as [|c s IH]; simpl; [reflexivity|].
  intros H. apply andb_true_iff in H as [Hc Hs]. rewrite (IH Hs).
  destruct (Ascii.eqb c "/") eqn:E; [|reflexivity].
  apply Ascii.eqb_eq in E; subst c. discriminate Hc.
Qed.

End NameFacts.

(** With at most one slash in the identifier the file name has none:
    the artifact is a file of the storage directory itself. *)
Lemma filename_in_storage_dir (arxivId title : string) :
  slashes arxivId <= 1 -> slashes (StorageManager.filename arxivId title) = 0.
Proof.
  intros H. unfold StorageManager.filename. rewrite !NameFacts.slashes_append.
  rewrite replace_first_slashes.
  rewrite (NameFacts.clean_no_slash _ (sanitized_clean title)).
  simpl. lia.
Qed.

(** X10: the name of the artifact of [downloadPaper] holds exactly the
    slashes of the identifier but the first: the title contributes none.
    The name is free of slashes, and so names a file of the storage
    directory itself, exactly when the identifier has at most one. *)
Theorem filename_slashes (arxivId title : string) :
  slashes (StorageManager.filename arxivId title) = slashes arxivId - 1 /\
  (slashes (StorageManager.filename arxivId title) = 0 <-> slashes arxivId <= 1).
Proof.
  assert (H : slashes (StorageManager.filename arxivId title) = slashes arxivId - 1).
  { unfold StorageManager.filename. rewrite !NameFacts.slashes_append.
    rewrite replace_first_slashes.
    rewrite (NameFacts.clean_no_slash _ (sanitized_clean title)).
    simpl. lia. }
  split; [exact H|]. rewrite H. lia.
Qed.

(** X3: acquisition of a paper that is not stored and whose identifier
    has at most one slash, when the server answers with success, the
    artifact can be written and the metadata file too.  The file name
    then has no slash, so that the artifact is a file of the storage
    directory itself (which [initialize] has created): [downloadPaper]
    makes one fetch, writes the body of the answer to
    [STORAGE_DIR/<file name>], and returns the new entry, whose size is
    the length of that body and whose date is the current one; the entry
    is filed under the identifier, the other entries are as they were,
    and the metadata file holds the new catalog.  (With a second slash
    the file name names a directory that nothing creates, and nothing is
    said.) *)
Theorem downloadPaper_stores (st : State) (id url : string)
    (info : StorageManager.PaperInfo) (r : Response) :
  slashes id <= 1 ->
  cached st id = false ->
  remote (world st) !! url = Some r ->
  ok r = true ->
  fs.locked (world st) (artifact_path st id (StorageManager.title info)) = false ->
  metadata_writable (world st) = true ->
  slashes (StorageManager.filename id (StorageManager.title info)) = 0 /\
  exists st',
    StorageManager.downloadPaper id url info st = (Return (fresh_paper st id info r), st') /\
    metadata st' = Map.set id (fresh_paper st id info r) (metadata st) /\
    Map.get id (metadata st') = Some (fresh_paper st id info r) /\
    (forall k, k <> id -> Map.get k (metadata st') = Map.get k (metadata st)) /\
    files (world st')
      = <[artifact_path st id (StorageManager.title info) := buffer r]> (files (world st)) /\
    metadata_json (world st') = Some (metadata st') /\
    fetched (world st') = fetched (world st) ++ [url] /\
    written (world st')
      = written (world st) ++ [artifact_path st id (StorageManager.title info);
                               METADATA_FILE (world st)].
Proof.
  intros Hid Hc Hr Hok Hlock Hw.
  split; [apply filename_in_storage_dir; exact Hid|].
  assert (Hmiss : StorageManager.downloadPaper id url info st
                  = StorageManager.download id url info st).
  { unfold StorageManager.downloadPaper, bind, gets. unfold cached in Hc.
    destruct (Map.get id (metadata st)) as [e|]; [|reflexivity].
    unfold try_catch, bind, fs.access. rewrite Hc. reflexivity. }
  rewrite Hmiss. unfold StorageManager.download, bind, fs.fetch. rewrite Hr, Hok.
  cbn [negb]. unfold gets, fs.writeFile. cbn [set_world world STORAGE_DIR].
  unfold artifact_path in Hlock. unfold fs.locked in *. cbn [readonly]. rewrite Hlock.
  unfold fileUtils.getFileSize, try_catch, fs.stat_size, bind, fs.readFile.
  cbn [set_world world files metadata]. rewrite lookup_insert_eq.
  unfold ret, modify, StorageManager.saveMetadata, bind, gets,
    fileUtils.writeJsonFile_metadata, set_metadata, set_world.
  cbn [world metadata metadata_writable now]. rewrite Hw.
  eexists. split; [reflexivity|].
  cbn [world metadata files metadata_json written fetched].
  repeat split.
  - apply StorageFacts.get_set.
  - intros k Hk. apply StorageMore.get_set_ne, Hk.
  - rewrite <- app_assoc. reflexivity.
Qed.

Lemma downloadPaper_stores_witness :
  slashes "2301.00003" <= 1 /\
  exists st',
    StorageManager.downloadPaper "2301.00003" "https://arxiv.org/pdf/2301.00003"
      third_info two_papers
    = (Return (mkPaper "2301.00003" "Third: a/b" ["C. Author"] "2024-06-01T00:00:00.000Z"
                       "/srv/storage/2301.00003_Third_a_b.pdf" 14 ["cs.AI"] "We conclude."),
       st') /\
    List.map fst (metadata st') = ["2301.00001"; "2301.00002"; "2301.00003"].
Proof.
  split; [vm_compute; lia|].
  destruct (downloadPaper_stores two_papers "2301.00003" "https://arxiv.org/pdf/2301.00003"
              third_info (mkResponse true "OK" "%PDF-1.7 third"))
    as (_ & st' & H1 & H2 & _); try (vm_compute; reflexivity); [vm_compute; lia|].
  exists st'. split; [exact H1|]. rewrite H2. vm_compute. reflexivity.
Defined.

(** X5: for an identifier with at most one slash (the file name then
    has no slash and the artifact is a file of the storage directory
    itself), when the artifact is written but the metadata file cannot
    be, [downloadPaper] throws, and yet the artifact is on disk and the
    new entry is in the catalog in memory, which the metadata file does
    not hold: the next call for the identifier returns that entry
    without a fetch. *)
Theorem downloadPaper_throws_after_storing (st : State) (id url : string)
    (info : StorageManager.PaperInfo) (r : Response) :
  slashes id <= 1 ->
  cached st id = false ->
  remote (world st) !! url = Some r ->
  ok r = true ->
  fs.locked (world st) (artifact_path st id (StorageManager.title info)) = false ->
  metadata_writable (world st) = false ->
  slashes (StorageManager.filename id (StorageManager.title info)) = 0 /\
  exists e st',
    StorageManager.downloadPaper id url info st = (Throw e, st') /\
    Map.get id (metadata st') = Some (fresh_paper st id info r) /\
    fs.exists_ (world st') (dp_filePath (fresh_paper st id info r)) = true /\
    metadata_json (world st') = metadata_json (world st) /\
    StorageManager.downloadPaper id url info st'
      = (Return (fresh_paper st id info r), st').
Proof.
  intros Hid Hc Hr Hok Hlock Hw.
  split; [apply filename_in_storage_dir; exact Hid|].
  assert (Hmiss : StorageManager.downloadPaper id url info st
                  = StorageManager.download id url info st).
  { unfold StorageManager.downloadPaper, bind, gets. unfold cached in Hc.
    destruct (Map.get id (metadata st)) as [e|]; [|reflexivity].
    unfold try_catch, bind, fs.access. rewrite Hc. reflexivity. }
  rewrite Hmiss. unfold StorageManager.download, bind, fs.fetch. rewrite Hr, Hok.
  cbn [negb]. unfold gets, fs.writeFile. cbn [set_world world STORAGE_DIR].
  unfold artifact_path in Hlock. unfold fs.locked in *. cbn [readonly]. rewrite Hlock.
  unfold fileUtils.getFileSize, try_catch, fs.stat_size, bind, fs.readFile.
  cbn [set_world world files metadata]. rewrite lookup_insert_eq.
  unfold ret, modify, StorageManager.saveMetadata, bind, gets,
    fileUtils.writeJsonFile_metadata, set_metadata, set_world.
  cbn [world metadata metadata_writable now]. rewrite Hw.
  eexists _, _. split; [reflexivity|].
  assert (Hg : Map.get id (Map.set id (fresh_paper st id info r) (metadata st))
               = Some (fresh_paper st id info r)) by apply StorageFacts.get_set.
  assert (He : forall w', files w' = <[artifact_path st id (StorageManager.title info)
                                       := buffer r]> (files (world st)) ->
               fs.exists_ w' (dp_filePath (fresh_paper st id info r)) = true).
  { intros w' Hf. unfold fs.exists_. rewrite Hf. cbn [fresh_paper dp_filePath].
    rewrite lookup_insert_eq. reflexivity. }
  cbn [world metadata files metadata_json].
  split; [exact Hg|]. split; [apply He; reflexivity|]. split; [reflexivity|].
  apply StorageFacts.downloadPaper_hit; [exact Hg|apply He; reflexivity].
Qed.

Lemma downloadPaper_throws_after_storing_witness :
  slashes "2301.00003" <= 1 /\
  exists e st',
    StorageManager.downloadPaper "2301.00003" "https://arxiv.org/pdf/2301.00003"
      third_info frozen_papers = (Throw e, st') /\
    List.map fst (metadata st') = ["2301.00001"; "2301.00002"; "2301.00003"] /\
    metadata_json (world st') = Some [("2301.00001", paper1); ("2301.00002", paper2)].
Proof.
  split; [vm_compute; lia|].
  destruct (downloadPaper_throws_after_storing frozen_papers "2301.00003"
              "https://arxiv.org/pdf/2301.00003" third_info
              (mkResponse true "OK" "%PDF-1.7 third"))
    as (_ & e & st' & H1 & _ & _ & H4 & _); try (vm_compute; reflexivity);
    [vm_compute; lia|].
  exists e, st'. split; [exact H1|]. split; [|exact H4].
  vm_compute in H1. inversion H1. reflexivity.
Defined.


(* ===================================================================== *)
(** * Part XII: further properties of the search                         *)
(* ===================================================================== *)

Module SearchMore.
Import PdfReader.

Lemma ascending_cons (x : nat) (l : list nat) :
  Forall (fun y => x < y) l -> ascending l = true -> ascending (x :: l) = true.
Proof.
  intros Hx Hl. destruct l as [|y l]; [reflexivity|].
  inversion Hx; subst.
  change (ascending (x :: y :: l)) with ((x <? y) && ascending (y :: l)). rewrite Hl.
  apply andb_true_iff. split; [apply Nat.ltb_lt; assumption|reflexivity].
Qed.

Lemma context_eq (body term : string) (p : nat) :
  JS.substring body
    (Z.to_nat (Z.max 0 (Z.of_nat p - 50)))
    (Z.to_nat (Z.min (Z.of_nat (String.length body))
                     (Z.of_nat p + Z.of_nat (String.length term) + 50)))
  = context_of body term p.
Proof. unfold context_of. f_equal; lia. Qed.

Lemma context_length (body term : string) (p : nat) :
  String.length (context_of body term p) <= String.length term + 100.
Proof.
  unfold context_of, JS.substring.
  etransitivity; [apply StringFacts.length_substring_le|]. lia.
Qed.

(** The matches found are appended to those given. *)
Lemma scanMatches_acc (re : RegExp.t) (term body : string) :
  forall fuel li acc,
    scanMatches fuel re term body li acc
    = onto acc (scanMatches fuel re term body li []).
Proof.
  induction fuel as [|fuel IH]; intros li acc; [reflexivity|].
  cbn [scanMatches].
  destruct (RegExp.exec re body li) as [[m|] li1].
  - rewrite context_eq. cbn [app].
    rewrite (IH li1 (acc ++ _)), (IH li1 [_]).
    destruct (scanMatches fuel re term body li1 []) as [[l b]|]; [|reflexivity].
    cbn [onto]. rewrite <- app_assoc. reflexivity.
  - cbn [onto]. rewrite app_nil_r. reflexivity.
Qed.

(** A run of the scanning loop that ends has found non-empty matches
    only, at growing indices, and leaves [lastIndex] at 0. *)
Lemma scanMatches_spec (re : RegExp.t) (term body : string) :
  RegExp.global (RegExp.flags re) = true ->
  forall fuel li found li',
    scanMatches fuel re term body li [] = Some (found, li') ->
    li' = 0 /\ matches_ok body term li found.
Proof.
  intros Hg fuel. induction fuel as [|fuel IH]; intros li found li' H; [discriminate|].
  pose proof H as H0. cbn [scanMatches] in H.
  destruct (RegExp.exec re body li) as [[m|] li1] eqn:E.
  - assert (Hne : RegExp.endIndex m <> RegExp.index m).
    { intros Heq.
      rewrite (SearchFacts.scanMatches_empty_match re term body li li1 m Hg E Heq) in H0.
      discriminate H0. }
    pose proof (SearchFacts.exec_Some re body li li1 m Hg E) as (Hi & He & Hb & -> & _).
    rewrite context_eq in H. cbn [app] in H. rewrite scanMatches_acc in H.
    destruct (scanMatches fuel re term body (RegExp.endIndex m) []) as [[l b]|] eqn:Er;
      [|discriminate H].
    cbn [onto] in H. inversion H; subst found li'; clear H.
    apply IH in Er as (-> & Hasc & Hall).
    split; [reflexivity|].
    assert (Hall' : Forall (fun x => RegExp.index m < position x) l).
    { eapply List.Forall_impl; [|exact Hall]. cbv beta. intros x (Hx & _). lia. }
    split.
    + cbn [app List.map position]. apply ascending_cons; [|exact Hasc].
      apply List.Forall_map. exact Hall'.
    + cbn [app]. constructor.
      * cbn [position text]. split; [lia|]. split; [reflexivity|apply context_length].
      * eapply List.Forall_impl; [|exact Hall]. cbv beta. intros x (Hx & Hy). split; [lia|exact Hy].
  - inversion H; subst found li'; clear H. unfold RegExp.exec in E. rewrite Hg in E.
    split; [|split; [reflexivity|constructor]].
    destruct (String.length body <? li); [inversion E; reflexivity|].
    destruct (RegExp.search_from _ _ _ _ _) as [[[i e] c]|]; inversion E; reflexivity.
Qed.

Lemma searchSections_acc (re : RegExp.t) (term : string) (fuel : nat) :
  forall entries li results,
    searchSections fuel re term entries li results
    = onto_results results (searchSections fuel re term entries li []).
Proof.
  induction entries as [|[name body] rest IH]; intros li results; cbn [searchSections].
  - cbn [onto_results]. rewrite app_nil_r. reflexivity.
  - destruct (negb (JS.truthy body)); [apply IH|].
    destruct (scanMatches fuel re term body li []) as [[ms li']|]; [|reflexivity].
    destruct (0 <? List.length ms).
    + rewrite (IH li' (results ++ _)), (IH li' ([] ++ _)). cbn [app].
      destruct (searchSections fuel re term rest li' []); [|reflexivity].
      cbn [onto_results]. rewrite <- app_assoc. reflexivity.
    + apply IH.
Qed.

(** The sections are searched one after the other, each from its start. *)
Lemma searchSections_app (re : RegExp.t) (term : string) (fuel : nat) :
  RegExp.global (RegExp.flags re) = true ->
  forall l1 l2 results,
    searchSections fuel re term (l1 ++ l2) 0 results
    = match searchSections fuel re term l1 0 results with
      | Some r1 => searchSections fuel re term l2 0 r1
      | None => None
      end.
Proof.
  intros Hg. induction l1 as [|[name body] l1 IH]; intros l2 results;
    cbn [app searchSections]; [reflexivity|].
  destruct (negb (JS.truthy body)); [apply IH|].
  destruct (scanMatches fuel re term body 0 []) as [[ms li']|] eqn:E; [|reflexivity].
  apply (scanMatches_spec re term body Hg) in E as [-> _]. apply IH.
Qed.

Lemma searchSections_ok (re : RegExp.t) (term : string) (fuel : nat) :
  RegExp.global (RegExp.flags re) = true ->
  forall entries results r,
    searchSections fuel re term entries 0 results = Some r ->
    exists found,
      r = results ++ found /\
      Forall (fun x => exists body,
                In (section x, body) entries /\ JS.truthy body = true /\
                matches x <> [] /\ matches_ok body term 0 (matches x)) found.
Proof.
  intros Hg. induction entries as [|[name body] rest IH]; intros results r H;
    cbn [searchSections] in H.
  - inversion H; subst. exists []. rewrite app_nil_r. split; [reflexivity|constructor].
  - assert (Hrest : forall res found,
              r = res ++ found ->
              Forall (fun x => exists body0,
                        In (section x, body0) rest /\ JS.truthy body0 = true /\
                        matches x <> [] /\ matches_ok body0 term 0 (matches x)) found ->
              Forall (fun x => exists body0,
                        In (section x, body0) ((name, body) :: rest) /\
                        JS.truthy body0 = true /\
                        matches x <> [] /\ matches_ok body0 term 0 (matches x)) found).
    { intros res found _ Hf. eapply List.Forall_impl; [|exact Hf]. cbv beta.
      intros x (b & Hin & Hrestx). exists b. split; [right; exact Hin|exact Hrestx]. }
    destruct (JS.truthy body) eqn:Et; cbn [negb] in H.
    + destruct (scanMatches fuel re term body 0 []) as [[ms li']|] eqn:E; [|discriminate H].
      apply (scanMatches_spec re term body Hg) in E as [-> Hok].
      destruct (0 <? List.length ms) eqn:El.
      * apply IH in H as (found & -> & Hf).
        exists (mkSectionMatches name ms :: found).
        split; [rewrite <- app_assoc; reflexivity|].
        constructor; [|eapply Hrest; [reflexivity|exact Hf]].
        exists body. cbn [section matches]. split; [left; reflexivity|].
        split; [exact Et|]. split; [|exact Hok].
        intros ->. discriminate El.
      * apply IH in H as (found & -> & Hf). exists found.
        split; [reflexivity|]. eapply Hrest; [reflexivity|exact Hf].
    + apply IH in H as (found & -> & Hf). exists found.
      split; [reflexivity|]. eapply Hrest; [reflexivity|exact Hf].
Qed.

End SearchMore.

(** X11: for a search term of the modelled fragment of patterns (one
    that [RegExp.create] compiles), every result of [searchInPaper] is
    well formed: each section it lists is a section of the paper with a
    non-empty body, and its matches are at least one, lie at strictly
    growing indices inside the body, and carry the text of the body from
    50 characters before the index to 50 characters after the length of
    the term, which is never longer than the term plus 100 characters.
    Nothing is said of the terms outside the fragment. *)
Theorem searchInPaper_results_well_formed (fuel : nat) (content : PaperContent)
    (term : string) (caseSensitive : bool) (re : RegExp.t)
    (results : list PdfReader.SectionMatches) :
  RegExp.create term (if caseSensitive then "g" else "gi") = Some re ->
  PdfReader.searchInPaper fuel content term caseSensitive = Some (Return results) ->
  PdfReader.searchSections fuel re term (pc_sections content) 0 [] = Some results /\
  Forall (fun r => exists body,
            In (PdfReader.section r, body) (pc_sections content) /\
            JS.truthy body = true /\
            PdfReader.matches r <> [] /\
            matches_ok body term 0 (PdfReader.matches r)) results.
Proof.
  intros Ec. unfold PdfReader.searchInPaper. rewrite Ec.
  pose proof (SearchFacts.create_global _ _ _ Ec) as Hg.
  destruct (PdfReader.searchSections fuel re term (pc_sections content) 0 []) as [r|] eqn:E;
    [|discriminate].
  intros H; inversion H; subst r. split; [reflexivity|].
  apply (SearchMore.searchSections_ok re term fuel Hg) in E as (found & -> & Hf).
  exact Hf.
Qed.

Lemma searchInPaper_results_well_formed_witness :
  RegExp.create "cat" "gi" = Some (RegExp.literal "cat" "gi") /\
  PdfReader.searchInPaper 5 two_sections "cat" false
  = Some (Return
      [PdfReader.mkSectionMatches "abstract" [PdfReader.mkSearchMatch "A cat." 2];
       PdfReader.mkSectionMatches "introduction"
         [PdfReader.mkSearchMatch "the cat sat on the mat" 4]]) /\
  Forall (fun r => exists body,
            In (PdfReader.section r, body) (pc_sections two_sections) /\
            JS.truthy body = true /\
            PdfReader.matches r <> [] /\
            matches_ok body "cat" 0 (PdfReader.matches r))
    [PdfReader.mkSectionMatches "abstract" [PdfReader.mkSearchMatch "A cat." 2];
     PdfReader.mkSectionMatches "introduction"
       [PdfReader.mkSearchMatch "the cat sat on the mat" 4]].
Proof.
  split; [vm_compute; reflexivity|]. split; [vm_compute; reflexivity|].
  apply (searchInPaper_results_well_formed 5 two_sections "cat" false
           (RegExp.literal "cat" "gi")).
  - vm_compute. reflexivity.
  - vm_compute. reflexivity.
Defined.

(** X12: for a search term of the modelled fragment of patterns, the
    sections of a paper are searched one after the other and each from
    its first character: the search of a paper whose sections are those
    of one paper followed by those of another returns the results of the
    first followed by the results of the second, and does not end as
    soon as one of them does not.  Nothing is said of the terms outside
    the fragment. *)
Theorem searchInPaper_section_by_section (fuel : nat) (id title fullText : string)
    (sections1 sections2 : Sections) (term : string) (caseSensitive : bool)
    (re : RegExp.t) :
  RegExp.create term (if caseSensitive then "g" else "gi") = Some re ->
  PdfReader.searchInPaper fuel (mkContent id title (sections1 ++ sections2) fullText)
    term caseSensitive
  = both (PdfReader.searchInPaper fuel (mkContent id title sections1 fullText)
            term caseSensitive)
         (PdfReader.searchInPaper fuel (mkContent id title sections2 fullText)
            term caseSensitive) /\
  PdfReader.searchInPaper fuel (mkContent id title sections1 fullText) term caseSensitive
  = option_map Return (PdfReader.searchSections fuel re term sections1 0 []) /\
  PdfReader.searchInPaper fuel (mkContent id title sections2 fullText) term caseSensitive
  = option_map Return (PdfReader.searchSections fuel re term sections2 0 []).
Proof.
  intros Ec. unfold PdfReader.searchInPaper. cbn [pc_sections]. rewrite Ec.
  pose proof (SearchFacts.create_global _ _ _ Ec) as Hg.
  rewrite (SearchMore.searchSections_app re term fuel Hg).
  destruct (PdfReader.searchSections fuel re term sections1 0 []) as [r1|];
    [|repeat split; destruct (PdfReader.searchSections fuel re term sections2 0 []);
      reflexivity].
  rewrite SearchMore.searchSections_acc.
  destruct (PdfReader.searchSections fuel re term sections2 0 []) as [r2|];
    repeat split; reflexivity.
Qed.

Lemma searchInPaper_section_by_section_witness :
  RegExp.create "cat" "gi" = Some (RegExp.literal "cat" "gi") /\
  PdfReader.searchInPaper 5
    (mkContent "p" "t" ([("abstract", "A cat.")]
                        ++ [("introduction", "the cat sat on the mat")]) "")
    "cat" false
  = both (PdfReader.searchInPaper 5 (mkContent "p" "t" [("abstract", "A cat.")] "")
            "cat" false)
         (PdfReader.searchInPaper 5
            (mkContent "p" "t" [("introduction", "the cat sat on the mat")] "")
            "cat" false) /\
  PdfReader.searchInPaper 5 (mkContent "p" "t" [("abstract", "A cat.")] "") "cat" false
  = Some (Return [PdfReader.mkSectionMatches "abstract"
                    [PdfReader.mkSearchMatch "A cat." 2]]).
Proof.
  split; [vm_compute; reflexivity|].
  destruct (searchInPaper_section_by_section 5 "p" "t" ""
              [("abstract", "A cat.")] [("introduction", "the cat sat on the mat")]
              "cat" false (RegExp.literal "cat" "gi")) as (H1 & H2 & _).
  - vm_compute. reflexivity.
  - split; [exact H1|]. rewrite H2. vm_compute. reflexivity.
Defined.

(* ===================================================================== *)
(** * Part XIII: retries                                                 *)
(* ===================================================================== *)

Module RetryFacts.
Section Facts.
Context {St A : Type}.
Variable fn : St -> (A + Retry.Thrown) * St.
Variable maxRetries initialDelay : nat.

Lemma after_calls_S (n : nat) (st : St) :
  after_calls fn (S n) st = snd (fn (after_calls fn n st)).
Proof.
  revert st; induction n as [|n IH]; intros st; [reflexivity|].
  change (after_calls fn (S (S n)) st) with (after_calls fn (S n) (snd (fn st))).
  rewrite IH. reflexivity.
Qed.

Lemma backoff_S (n : nat) :
  backoff initialDelay (S n) = backoff initialDelay n ++ [initialDelay * 2 ^ n].
Proof. unfold backoff. rewrite seq_S, map_app. reflexivity. Qed.

(** The loop, entered for attempt [attempt] after that many failed
    calls. *)
Lemma retry_loop_spec :
  forall left attempt lastError st0,
    left + attempt = maxRetries ->
    0 < left ->
    (forall j, j < attempt -> exists e, call fn j st0 = inr e /\ Retry.isRetryableError e = true) ->
    exists n,
      attempt <= n < maxRetries /\
      (forall j, j < n -> exists e, call fn j st0 = inr e /\ Retry.isRetryableError e = true) /\
      Retry.retry_loop fn maxRetries initialDelay left attempt lastError
        (backoff initialDelay attempt) (after_calls fn attempt st0)
      = (match call fn n st0 with
         | inl a => inl a
         | inr e => inr (Some e)
         end,
         backoff initialDelay n, after_calls fn (S n) st0) /\
      (forall e, call fn n st0 = inr e ->
                 Retry.isRetryableError e = false \/ n = maxRetries - 1).
Proof.
  induction left as [|left IH]; intros attempt lastError st0 Hsum Hpos Hprev; [lia|].
  cbn [Retry.retry_loop].
  destruct (fn (after_calls fn attempt st0)) as [[a|e] st'] eqn:E.
  - exists attempt. split; [lia|]. split; [exact Hprev|].
    unfold call. rewrite after_calls_S, E. split; [reflexivity|discriminate].
  - destruct (negb (Retry.isRetryableError e) || (attempt =? maxRetries - 1)) eqn:Estop.
    + exists attempt. split; [lia|]. split; [exact Hprev|].
      unfold call. rewrite after_calls_S, E. split; [reflexivity|].
      intros e' He'. cbn [fst] in He'. inversion He'; subst e'.
      apply orb_true_iff in Estop as [H|H].
      * left. apply negb_true_iff. exact H.
      * right. apply Nat.eqb_eq. exact H.
    + apply orb_false_iff in Estop as [Hretry Hlast].
      apply negb_false_iff in Hretry. apply Nat.eqb_neq in Hlast.
      destruct (IH (S attempt) (Some e) st0) as (n & Hn & Hbefore & Hrun & Hend).
      * lia.
      * lia.
      * intros j Hj. destruct (Nat.eq_dec j attempt) as [->|Hne].
        -- exists e. unfold call. rewrite E. split; [reflexivity|exact Hretry].
        -- apply Hprev. lia.
      * exists n. split; [lia|]. split; [exact Hbefore|]. split; [|exact Hend].
        rewrite <- Hrun. rewrite backoff_S, after_calls_S, E. reflexivity.
Qed.
End Facts.
End RetryFacts.

(** X13: [retryWithBackoff] with [maxRetries] > 0 calls the function
    until a call returns, throws an error that is not retryable, or has
    been the [maxRetries]-th call: there is a number [n] below
    [maxRetries] such that the first [n] calls threw retryable errors,
    the result is that of the next call, the state is the one after
    [n + 1] calls, and the delays slept through are [initialDelay],
    twice that, four times that, and so on, one after each of the first
    [n] calls (none after the last).  With [maxRetries] = 0 the function
    is not called and [undefined] is thrown. *)
Theorem retryWithBackoff_schedule {St A : Type} (fn : St -> (A + Retry.Thrown) * St)
    (maxRetries initialDelay : nat) (st : St) :
  (maxRetries = 0 ->
   Retry.retryWithBackoff fn maxRetries initialDelay st = (inr None, [], st)) /\
  (0 < maxRetries ->
   exists n,
     n < maxRetries /\
     (forall j, j < n ->
        exists e, call fn j st = inr e /\ Retry.isRetryableError e = true) /\
     Retry.retryWithBackoff fn maxRetries initialDelay st
     = (match call fn n st with
        | inl a => inl a
        | inr e => inr (Some e)
        end,
        backoff initialDelay n, after_calls fn (S n) st) /\
     (forall e, call fn n st = inr e ->
                Retry.isRetryableError e = false \/ n = maxRetries - 1)).
Proof.
  split.
  - intros ->. reflexivity.
  - intros Hpos. unfold Retry.retryWithBackoff.
    destruct (RetryFacts.retry_loop_spec fn maxRetries initialDelay maxRetries 0 None st)
      as (n & Hn & Hbefore & Hrun & Hend); [lia|exact Hpos|intros j Hj; lia|].
    exists n. split; [lia|]. split; [exact Hbefore|]. split; [exact Hrun|exact Hend].
Qed.

Lemma retryWithBackoff_schedule_witness :
  Retry.retryWithBackoff flaky 0 1000 0 = (inr None, [], 0) /\
  exists n,
    n < 3 /\
    Retry.retryWithBackoff flaky 3 1000 0
    = (match call flaky n 0 with
       | inl a => inl a
       | inr e => inr (Some e)
       end,
       backoff 1000 n, after_calls flaky (S n) 0).
Proof.
  split.
  - apply (proj1 (retryWithBackoff_schedule flaky 0 1000 0)). reflexivity.
  - destruct (proj2 (retryWithBackoff_schedule flaky 3 1000 0)) as (n & Hn & _ & Hrun & _);
      [lia|].
    exists n. split; [exact Hn|exact Hrun].
Defined.

(* ===================================================================== *)
(** * Part XIV: the query, the categories and the storage tools          *)
(* ===================================================================== *)

Module ToolFacts.

Lemma to_lower_idem (c : ascii) : JS.to_lower (JS.to_lower c) = JS.to_lower c.
Proof.
  destruct c as [[|] [|] [|] [|] [|] [|] [|] [|]]; vm_compute; reflexivity.
Qed.

Lemma toLowerCase_idem (s : string) :
  Tools.toLowerCase (Tools.toLowerCase s) = Tools.toLowerCase s.
Proof.
  induction s as [|c s IH]; simpl; [reflexivity|].
  rewrite to_lower_idem, IH. reflexivity.
Qed.

(** What [find] returns is the first element that passes the test. *)
Lemma find_first {A} (f : A -> bool) (l : list A) (x : A) :
  List.find f l = Some x ->
  exists before after,
    l = before ++ x :: after /\ f x = true /\
    List.Forall (fun y => f y = false) before.
Proof.
  induction l as [|y l IH]; simpl; [discriminate|].
  destruct (f y) eqn:Ey.
  - intros H; inversion H; subst y. exists [], l. repeat split; [exact Ey|constructor].
  - intros H. apply IH in H as (before & after & -> & Hx & Hb).
    exists (y :: before), after. repeat split; [exact Hx|constructor; assumption].
Qed.

End ToolFacts.

(** X14: [formatSearchQuery] uses the free-text [query] only when none of
    the five fields is given: with a field the result is not empty and is
    the same whatever the query is; without a field it is the query, or
    the empty text when there is no query either. *)
Theorem formatSearchQuery_query_is_a_fallback (p : Tools.SearchParams) :
  (has_field p = true ->
   Tools.formatSearchQuery p <> "" /\
   forall q, Tools.formatSearchQuery (with_query p q) = Tools.formatSearchQuery p) /\
  (has_field p = false ->
   Tools.formatSearchQuery p
   = if ArxivServer.missing (Tools.sp_query p) then ""
     else ArxivServer.text_of (Tools.sp_query p)).
Proof.
  destruct p as [t a b c l q]. unfold has_field, with_query, Tools.formatSearchQuery,
    Tools.push_if. cbn [Tools.sp_title Tools.sp_author Tools.sp_abstract Tools.sp_category
                        Tools.sp_all Tools.sp_query].
  destruct (ArxivServer.missing t), (ArxivServer.missing a), (ArxivServer.missing b),
    (ArxivServer.missing c), (ArxivServer.missing l);
    cbn [negb orb app List.length Nat.eqb andb];
    (split; [intros H; first [discriminate H | split; [|reflexivity]]
            |intros H; try discriminate H]);
    try (cbv [JS.join Tools.quoted String.append]; discriminate).
  destruct (ArxivServer.missing q); reflexivity.
Qed.

Lemma formatSearchQuery_query_is_a_fallback_witness :
  (forall q,
     Tools.formatSearchQuery
       (Tools.mkSearchParams (Some "graph") None None (Some "cs.DS") None q)
     = "ti:" +:+ String JS.dquote "graph" +:+ String JS.dquote " AND cat:cs.DS") /\
  Tools.formatSearchQuery (Tools.mkSearchParams None (Some "") None None None (Some "all:x"))
  = "all:x".
Proof.
  split.
  - intros q.
    apply (proj2 (proj1 (formatSearchQuery_query_is_a_fallback
              (Tools.mkSearchParams (Some "graph") None None (Some "cs.DS") None None))
              eq_refl) q).
  - apply (proj2 (formatSearchQuery_query_is_a_fallback
              (Tools.mkSearchParams None (Some "") None None None (Some "all:x")))).
    reflexivity.
Defined.

(** X15: every failure of [getArxivCategories] is the NetworkError
    "Failed to read category data": this is also what a request for a
    group that does not exist gets, the ValidationError of the method
    being caught by its own [catch].  Without a group the names of all
    groups are returned; with one, the first group of that name, compared
    without regard to case: no group before the one returned has the
    name. *)
Theorem getArxivCategories_outcomes
    (categoryData : option (list Tools.ArxivCategoryGroup)) (groupArg : option string) :
  match Tools.getArxivCategories categoryData groupArg with
  | Throw e =>
      e = category_failure /\
      (categoryData = None \/
       exists groups,
         categoryData = Some groups /\ ArxivServer.missing groupArg = false /\
         Forall (fun g => Tools.toLowerCase (Tools.group g)
                          <> Tools.toLowerCase (ArxivServer.text_of groupArg)) groups)
  | Return (Tools.GroupNames total names) =>
      ArxivServer.missing groupArg = true /\
      exists groups,
        categoryData = Some groups /\ names = List.map Tools.group groups /\
        total = List.length groups
  | Return (Tools.GroupDetail name total cats) =>
      ArxivServer.missing groupArg = false /\
      exists before g after,
        categoryData = Some (before ++ g :: after) /\
        List.Forall (fun x => Tools.toLowerCase (Tools.group x)
                              <> Tools.toLowerCase (ArxivServer.text_of groupArg)) before /\
        name = Tools.group g /\ cats = Tools.categories g /\ total = List.length cats /\
        Tools.toLowerCase name = Tools.toLowerCase (ArxivServer.text_of groupArg)
  end /\
  forall c rest,
    Tools.getArxivCategories categoryData (Some (Tools.toLowerCase (String c rest)))
    = Tools.getArxivCategories categoryData (Some (String c rest)).
Proof.
  split.
  - unfold Tools.getArxivCategories.
    destruct categoryData as [groups|]; [|split; [reflexivity|left; reflexivity]].
    destruct (ArxivServer.missing groupArg) eqn:Em.
    + split; [reflexivity|]. exists groups. rewrite length_map. auto.
    + destruct (List.find _ groups) as [g|] eqn:Ef.
      * apply ToolFacts.find_first in Ef as (before & after & -> & Heq & Hb).
        apply String.eqb_eq in Heq.
        split; [reflexivity|]. exists before, g, after.
        split; [reflexivity|]. split; [|auto].
        eapply List.Forall_impl; [|exact Hb]. cbv beta. intros x Hx E.
        rewrite E, String.eqb_refl in Hx. discriminate Hx.
      * split; [reflexivity|]. right. exists groups. split; [reflexivity|].
        split; [reflexivity|]. apply Forall_forall. intros g Hg Heq.
        pose proof (List.find_none _ _ Ef g) as Hn.
        assert (Hin : In g groups) by (apply list_elem_of_In; exact Hg).
        specialize (Hn Hin). cbv beta in Hn. rewrite Heq, String.eqb_refl in Hn.
        discriminate Hn.
  - intros c rest. unfold Tools.getArxivCategories.
    destruct categoryData as [groups|]; [|reflexivity].
    assert (Hm1 : ArxivServer.missing (Some (Tools.toLowerCase (String c rest))) = false)
      by reflexivity.
    assert (Hm2 : ArxivServer.missing (Some (String c rest)) = false) by reflexivity.
    rewrite Hm1, Hm2. cbn [ArxivServer.text_of].
    rewrite ToolFacts.toLowerCase_idem.
    destruct (List.find _ groups); reflexivity.
Qed.

(** X16: the tool [delete_paper] answers "not found" whenever the storage
    manager returns [false]: for a paper that is stored but whose
    artifact cannot be deleted it reports [success: false] with the
    message "Paper <id> not found", and the paper stays stored. *)
Theorem delete_tool_reports_not_found (st : State) (id : string)
    (paper : DownloadedPaper) (term : option string) (cs : option bool) :
  JS.truthy id = true ->
  Map.get id (metadata st) = Some paper ->
  unlink_fails (world st) (dp_filePath paper) = true ->
  Tools.deletePaper (ArxivServer.mkArgs (Some id) term cs) st
  = (Return (Tools.mkDeleteOutput false ("Paper " +:+ id +:+ " not found")), st).
Proof.
  intros Hid Hget Hfail. unfold Tools.deletePaper.
  cbn [ArxivServer.arxivId ArxivServer.text_of].
  rewrite (ServerFacts.missing_truthy id Hid). unfold bind.
  rewrite (StorageFacts.deletePaper_failed_unlink st id paper Hget Hfail). reflexivity.
Qed.

Lemma delete_tool_reports_not_found_witness :
  Tools.deletePaper (ArxivServer.mkArgs (Some "2301.00001") None None) locked_state
  = (Return (Tools.mkDeleteOutput false "Paper 2301.00001 not found"), locked_state).
Proof.
  apply (delete_tool_reports_not_found locked_state "2301.00001" paper1 None None).
  - reflexivity.
  - reflexivity.
  - vm_compute. reflexivity.
Defined.

(* ===================================================================== *)
(** * Part XV: reading a paper                                           *)
(* ===================================================================== *)

(** X17: [PdfReader.readPaperContent] changes nothing, and either returns
    the identifier and the title it was given with the text the decoder
    extracts from the bytes of the file and the sections of that text (at
    most the abstract), or throws a plain Error whose message starts with
    "Failed to read PDF content: ", which happens exactly when the file
    is missing or the decoder rejects its bytes. *)
Theorem readPaperContent_outcomes (st : State) (filePath paperId title : string) :
  snd (PdfReader.readPaperContent filePath paperId title st) = st /\
  match fst (PdfReader.readPaperContent filePath paperId title st) with
  | Return content =>
      pc_id content = paperId /\ pc_title content = title /\
      pc_sections content = PdfReader.extractSections (pc_fullText content) /\
      (pc_sections content = [] \/ exists a, pc_sections content = [("abstract", a)]) /\
      exists bytes,
        files (world st) !! filePath = Some bytes /\
        pdf_text (world st) !! bytes = Some (pc_fullText content)
  | Throw e =>
      Errors.class e = Errors.JsError /\ Errors.code e = None /\
      String.prefix "Failed to read PDF content: " (Errors.message e) = true /\
      (files (world st) !! filePath = None \/
       exists bytes,
         files (world st) !! filePath = Some bytes /\
         pdf_text (world st) !! bytes = None)
  end.
Proof.
  unfold PdfReader.readPaperContent, try_catch, bind, fs.readFile, PdfReader.parsePdf, ret, throw.
  destruct (files (world st) !! filePath) as [bytes|] eqn:Ef.
  - destruct (pdf_text (world st) !! bytes) as [text|] eqn:Ed; cbn [fst snd].
    + split; [reflexivity|]. cbn [pc_id pc_title pc_sections pc_fullText].
      repeat split; try reflexivity.
      * apply SegmenterFacts.extractSections_only_fallback.
      * exists bytes. auto.
    + split; [reflexivity|]. repeat split; try reflexivity. right. exists bytes. auto.
  - cbn [fst snd]. split; [reflexivity|]. repeat split; try reflexivity. left. reflexivity.
Qed.

(** X18: for a stored paper whose artifact the decoder accepts, the tool
    [read_paper_content] returns the identifier and the title of the
    catalog entry, the sections of the decoded text and the length of
    that text. *)
Theorem read_tool_returns_sections (st : State) (id : string) (term : option string)
    (cs : option bool) (paper : DownloadedPaper) (bytes text : string) :
  Map.wf (metadata st) ->
  JS.truthy id = true ->
  List.find (fun p => String.eqb (dp_id p) id) (List.map snd (survivors st)) = Some paper ->
  files (world st) !! dp_filePath paper = Some bytes ->
  pdf_text (world st) !! bytes = Some text ->
  ArxivServer.readPaperContent (ArxivServer.mkArgs (Some id) term cs) st
  = (Return (ArxivServer.mkReadOutput (dp_id paper) (dp_title paper)
               (PdfReader.extractSections text) (String.length text)),
     pruned st).
Proof.
  intros Hwf Hid Hfind Hf Hd. unfold ArxivServer.readPaperContent.
  cbn [ArxivServer.arxivId]. rewrite (ServerFacts.missing_truthy id Hid).
  unfold bind, ArxivServer.locate, bind. rewrite (StorageFacts.list_spec st Hwf).
  cbn [ArxivServer.arxivId ArxivServer.text_of]. rewrite Hfind.
  unfold PdfReader.readPaperContent, try_catch, bind, fs.readFile, PdfReader.parsePdf, ret.
  unfold pruned. cbn [world]. rewrite Hf. cbn [world]. rewrite Hd. reflexivity.
Qed.

Lemma read_tool_returns_sections_witness :
  ArxivServer.readPaperContent (ArxivServer.mkArgs (Some "2301.00001") None None)
    readable_state
  = (Return (ArxivServer.mkReadOutput "2301.00001" "Attention"
               [("abstract", "we study cats.")] 41),
     readable_state).
Proof.
  assert (Hwf : Map.wf (metadata readable_state)).
  { repeat constructor. intros []. }
  rewrite (read_tool_returns_sections readable_state "2301.00001" None None paper1
             "%PDF-1.4" ("Abstract: we study cats." +:+ JS.nl +:+ JS.nl +:+ "1. Introduction")
             Hwf eq_refl); try (vm_compute; reflexivity).
Defined.

(* ===================================================================== *)
(** * Part XVI: sizes and identifiers                                    *)
(* ===================================================================== *)

Module SizeFacts.
Import QArith_base fileUtilsMore.

Lemma le_1024 (p : Z) (q : positive) :
  Qle_bool (inject_Z 1024) (p # q) = (1024 * Z.pos q <=? p)%Z.
Proof. unfold Qle_bool. cbn [Qnum Qden inject_Z]. f_equal; lia. Qed.

Lemma div_1024 (p : Z) (q : positive) :
  Qdiv (p # q) (inject_Z 1024) = (p * 1 # q * 1024).
Proof. reflexivity. Qed.

Lemma toFixed2_frac (p : Z) (q : positive) :
  toFixed2 (p # q) = two_decimals ((200 * p + Z.pos q) / (2 * Z.pos q)).
Proof.
  unfold toFixed2, two_decimals.
  replace (Qround.Qfloor (Qplus (Qmult (p # q) (inject_Z 100)) (1 # 2)))
    with ((200 * p + Z.pos q) / (2 * Z.pos q))%Z; [reflexivity|].
  unfold Qround.Qfloor, Qplus, Qmult, inject_Z. cbn [Qnum Qden].
  f_equal; lia.
Qed.

End SizeFacts.
(** X19 ([formatFileSize]).  For a number of bytes below 2^53 (the
    integers a number holds exactly; every quotient by 1024 is then
    exact and below the 10^21 from which [toFixed] changes its
    notation), the size is shown in the largest of the units B, KB, MB,
    GB that does not exceed it (GB from 1024^3 bytes on), as the number
    of hundredths of that unit nearest to it, a half rounded up, with
    two decimals. *)
Theorem formatFileSize_rounds (bytes : N) :
  (bytes < 2 ^ 53)%N ->
  fileUtilsMore.formatFileSize bytes =
  two_decimals (hundredths bytes (unit_index bytes)) +:+ " " +:+
  List.nth (unit_index bytes) fileUtilsMore.units "undefined".
Proof.
  intros _.
  unfold fileUtilsMore.formatFileSize, unit_index, hundredths.
  change (QArith_base.inject_Z (Z.of_N bytes)) with (QArith_base.Qmake (Z.of_N bytes) 1).
  cbn [List.length fileUtilsMore.units fileUtilsMore.scale].
  rewrite SizeFacts.le_1024.
  destruct (N.ltb_spec bytes 1024) as [H0|H0].
  { replace (1024 * Z.pos 1 <=? Z.of_N bytes)%Z with false
      by (symmetry; apply Z.leb_gt; lia).
    cbn [andb]. rewrite SizeFacts.toFixed2_frac. reflexivity. }
  replace (1024 * Z.pos 1 <=? Z.of_N bytes)%Z with true
    by (symmetry; apply Z.leb_le; lia).
  change (0 <? 4 - 1) with true. cbn [andb].
  rewrite SizeFacts.div_1024, SizeFacts.le_1024.
  destruct (N.ltb_spec bytes (1024 ^ 2)) as [H1|H1].
  { replace (1024 * Z.pos (1 * 1024) <=? Z.of_N bytes * 1)%Z with false
      by (symmetry; apply Z.leb_gt; lia).
    cbn [andb]. rewrite SizeFacts.toFixed2_frac.
    cbn [List.nth fileUtilsMore.units]. do 3 f_equal. lia. }
  replace (1024 * Z.pos (1 * 1024) <=? Z.of_N bytes * 1)%Z with true
    by (symmetry; apply Z.leb_le; lia).
  change (1 <? 4 - 1) with true. cbn [andb].
  rewrite SizeFacts.div_1024, SizeFacts.le_1024.
  destruct (N.ltb_spec bytes (1024 ^ 3)) as [H2|H2].
  { replace (1024 * Z.pos (1 * 1024 * 1024) <=? Z.of_N bytes * 1 * 1)%Z with false
      by (symmetry; apply Z.leb_gt; lia).
    cbn [andb]. rewrite SizeFacts.toFixed2_frac.
    cbn [List.nth fileUtilsMore.units]. do 3 f_equal. lia. }
  replace (1024 * Z.pos (1 * 1024 * 1024) <=? Z.of_N bytes * 1 * 1)%Z with true
    by (symmetry; apply Z.leb_le; lia).
  change (2 <? 4 - 1) with true. cbn [andb].
  rewrite SizeFacts.div_1024, SizeFacts.le_1024.
  change (3 <? 4 - 1) with false. rewrite andb_false_r.
  rewrite SizeFacts.toFixed2_frac.
  cbn [List.nth fileUtilsMore.units]. do 3 f_equal. lia.
Qed.

Lemma formatFileSize_rounds_witness :
  (1048575 < 2 ^ 53)%N /\
  fileUtilsMore.formatFileSize 1048575 = "1024.00 KB" /\
  unit_index 1048575 = 1 /\ hundredths 1048575 1 = 102400%Z.
Proof.
  split; [reflexivity|]. split; [|split; vm_compute; reflexivity].
  rewrite (formatFileSize_rounds 1048575 eq_refl). vm_compute. reflexivity.
Defined.

(** ** The matcher and its derivations *)

Section Soundness.
Variable fl : RegExp.Flags.
Variable s : string.

Lemma repeat_sound {R} (m : nat -> RegExp.caps -> (nat -> RegExp.caps -> option R) -> option R)
    (P : nat -> RegExp.caps -> nat -> RegExp.caps -> Prop)
    gs greedy (k : nat -> RegExp.caps -> option R) :
  (forall i c k' z, m i c k' = Some z -> exists j c', P i c j c' /\ k' j c' = Some z) ->
  forall fuel min max i c z,
    RegExp.repeat m gs greedy k fuel min max i c = Some z ->
    exists n j c', count_ok min max n /\ iterated P gs n i c j c' /\ k j c' = Some z.
Proof.
  intros Hm. induction fuel as [|fuel IH]; intros min max i c z H; [discriminate|].
  assert (Hzero : k i c = Some z -> (min = 0 \/ max = Some 0) ->
                  exists n j c', count_ok min max n /\ iterated P gs n i c j c' /\ k j c' = Some z).
  { intros Hk Hc. exists 0, i, c. split; [|split; [split; reflexivity|exact Hk]].
    unfold count_ok. destruct Hc as [-> | ->]; [destruct max; lia|lia]. }
  assert (Hstep : forall (b : bool) z', b = (min =? 0) ->
            m i (RegExp.clear_caps gs c)
            (fun j c' => if b && (j =? i) then None
                         else RegExp.repeat m gs greedy k fuel (pred min)
                                (option_map pred max) j c') = Some z' ->
            max <> Some 0 ->
            exists n j c', count_ok min max n /\ iterated P gs n i c j c' /\ k j c' = Some z').
  { intros b z' _ Hz Hmax. apply Hm in Hz as (j & c' & HP & Hd).
    destruct (b && (j =? i)); [discriminate|].
    apply IH in Hd as (n & j' & c'' & Hn & Hit & Hk).
    exists (S n), j', c''. split; [|split; [|exact Hk]].
    - unfold count_ok in *. destruct max as [[|mx]|]; simpl in Hn; [congruence|lia|lia].
    - simpl. exists j, c'. split; assumption. }
  assert (Hmain : max <> Some 0 ->
            (if negb (min =? 0)
             then m i (RegExp.clear_caps gs c)
                    (fun j c' => if (min =? 0) && (j =? i) then None
                                 else RegExp.repeat m gs greedy k fuel (pred min)
                                        (option_map pred max) j c')
             else if greedy
                  then match m i (RegExp.clear_caps gs c)
                           (fun j c' => if (min =? 0) && (j =? i) then None
                                 else RegExp.repeat m gs greedy k fuel (pred min)
                                        (option_map pred max) j c') with
                       | Some z => Some z
                       | None => k i c
                       end
                  else match k i c with
                       | Some z => Some z
                       | None => m i (RegExp.clear_caps gs c)
                           (fun j c' => if (min =? 0) && (j =? i) then None
                                 else RegExp.repeat m gs greedy k fuel (pred min)
                                        (option_map pred max) j c')
                       end) = Some z ->
            exists n j c', count_ok min max n /\ iterated P gs n i c j c' /\ k j c' = Some z).
  { intros Hmax H0. destruct (min =? 0) eqn:Hmin; cbn [negb] in H0.
    - assert (min = 0) by (apply Nat.eqb_eq; exact Hmin).
      destruct greedy.
      + match type of H0 with match ?x with _ => _ end = _ => destruct x as [z'|] eqn:Hx end.
        * inversion H0; subst z'. eapply (Hstep true); [reflexivity|exact Hx|exact Hmax].
        * apply Hzero; auto.
      + match type of H0 with match ?x with _ => _ end = _ => destruct x as [z'|] eqn:Hx end.
        * inversion H0; subst z'. apply Hzero; auto.
        * eapply (Hstep true); [reflexivity|exact H0|exact Hmax].
    - eapply (Hstep false); [reflexivity|exact H0|exact Hmax]. }
  cbn [RegExp.repeat] in H. destruct max as [[|mx]|].
  - apply Hzero; auto.
  - apply Hmain; [discriminate|exact H].
  - apply Hmain; [discriminate|exact H].
Qed.

(** Every success of the matcher is a derivation. *)
Lemma rmatch_sound (r : RegExp.regex) :
  forall R i c (k : nat -> RegExp.caps -> option R) z,
    RegExp.rmatch fl s R r i c k = Some z ->
    exists j c', derives fl s r i c j c' /\ k j c' = Some z.
Proof.
  assert (Hstep : forall r R i c (k : nat -> RegExp.caps -> option R) z,
    RegExp.step1 fl s r i c k = Some z ->
    exists ch, String.get i s = Some ch /\ RegExp.char_matches fl r ch = true /\
               k (S i) c = Some z).
  { intros r0 R i c k z H. unfold RegExp.step1 in H.
    destruct (String.get i s) as [ch|]; [|discriminate].
    destruct (RegExp.char_matches fl r0 ch) eqn:Hc; [|discriminate].
    exists ch. auto. }
  induction r as [|ch| |neg items|a IHa b IHb|a IHa b IHb|min max greedy a IHa
                  |n a IHa|neg a IHa| | |neg]; intros R i c k z H; cbn [RegExp.rmatch] in H.
  - exists i, c. simpl. auto.
  - apply Hstep in H as (x & Hg & Hc & Hk). exists (S i), c. split; [|exact Hk].
    exists x. auto.
  - apply Hstep in H as (x & Hg & Hc & Hk). exists (S i), c. split; [|exact Hk].
    exists x. auto.
  - apply Hstep in H as (x & Hg & Hc & Hk). exists (S i), c. split; [|exact Hk].
    exists x. auto.
  - apply IHa in H as (m & cm & Ha & H). apply IHb in H as (j & c' & Hb & Hk).
    exists j, c'. split; [|exact Hk]. exists m, cm. auto.
  - destruct (RegExp.rmatch fl s R a i c k) as [z'|] eqn:Ha.
    + inversion H; subst. apply IHa in Ha as (j & c' & Hd & Hk).
      exists j, c'. split; [left; exact Hd|exact Hk].
    + apply IHb in H as (j & c' & Hd & Hk).
      exists j, c'. split; [right; exact Hd|exact Hk].
  - eapply repeat_sound in H as (n & j & c' & Hn & Hit & Hk).
    + exists j, c'. split; [|exact Hk]. exists n. split; [exact Hn|exact Hit].
    + intros i0 c0 k' z0 H0. apply IHa in H0. exact H0.
  - apply IHa in H as (j & c' & Hd & Hk).
    exists j, ((n, (i, j)) :: c'). split; [|exact Hk]. exists c'. auto.
  - destruct (RegExp.rmatch fl s RegExp.caps a i c _) as [c'|] eqn:Ha, neg;
      try discriminate.
    + exists i, c'. split; [|exact H]. split; [reflexivity|].
      apply IHa in Ha as (j & c'' & Hd & Hk). inversion Hk; subst. exists j. exact Hd.
    + exists i, c. split; [|exact H]. split; reflexivity.
  - destruct (i =? 0) eqn:Hi; [|discriminate]. apply Nat.eqb_eq in Hi.
    exists i, c. simpl. auto.
  - destruct (i =? String.length s) eqn:Hi; [|discriminate]. apply Nat.eqb_eq in Hi.
    exists i, c. simpl. auto.
  - destruct (xorb neg _) eqn:Hx; [|discriminate].
    exists i, c. simpl. auto.
Qed.

End Soundness.

Module PieceFacts.

Lemma substring_add (s : string) :
  forall n m1 m2,
    String.substring n (m1 + m2) s =
    String.substring n m1 s +:+ String.substring (n + m1) m2 s.
Proof.
  induction s as [|d s IH]; intros n m1 m2.
  - destruct n, m1, m2; reflexivity.
  - destruct n as [|n].
    + destruct m1 as [|m1]; [reflexivity|].
      cbn [Nat.add String.substring]. rewrite (IH 0 m1 m2). reflexivity.
    + cbn [Nat.add String.substring]. apply IH.
Qed.

Lemma substring_full (s : string) : String.substring 0 (String.length s) s = s.
Proof. induction s as [|d s IH]; simpl; [reflexivity|rewrite IH; reflexivity]. Qed.

Lemma length_substring (s : string) :
  forall n m, n + m <= String.length s -> String.length (String.substring n m s) = m.
Proof.
  induction s as [|d s IH]; intros [|n] [|m] H; simpl in *; try lia.
  - rewrite (IH 0 m); lia.
  - apply (IH n 0). lia.
  - apply (IH n (S m)). lia.
Qed.

Lemma JS_substring_eq (s : string) (a b : nat) :
  a <= b -> b <= String.length s ->
  JS.substring s a b = String.substring a (b - a) s.
Proof.
  intros Hab Hb. unfold JS.substring.
  rewrite (Nat.min_l a), (Nat.min_l b), Nat.min_l, Nat.max_r by lia. reflexivity.
Qed.

Lemma piece_split (s : string) (i m j : nat) :
  i <= m <= j -> j <= String.length s ->
  JS.substring s i j = JS.substring s i m +:+ JS.substring s m j.
Proof.
  intros Him Hj. rewrite !JS_substring_eq by lia.
  replace (j - i) with ((m - i) + (j - m)) by lia.
  rewrite substring_add. do 2 f_equal. lia.
Qed.

Lemma piece_whole (s : string) : JS.substring s 0 (String.length s) = s.
Proof. rewrite JS_substring_eq by lia. rewrite Nat.sub_0_r. apply substring_full. Qed.

Lemma piece_drop (s : string) (e : nat) :
  e <= String.length s -> JS.drop e s = JS.substring s e (String.length s).
Proof. intros H. rewrite JS_substring_eq by lia. reflexivity. Qed.

Lemma piece_length (s : string) (i j : nat) :
  i <= j -> j <= String.length s -> String.length (JS.substring s i j) = j - i.
Proof. intros Hi Hj. rewrite JS_substring_eq by lia. apply length_substring. lia. Qed.

Lemma piece_empty (s : string) (i : nat) :
  i <= String.length s -> JS.substring s i i = EmptyString.
Proof.
  intros H. pose proof (piece_length s i i (le_n i) H) as Hl.
  destruct (JS.substring s i i); [reflexivity|simpl in Hl; lia].
Qed.

Lemma piece_one (s : string) :
  forall i ch, String.get i s = Some ch -> JS.substring s i (S i) = String ch EmptyString.
Proof.
  intros i ch H. pose proof (get_Some_lt i s ch H) as Hlt.
  rewrite JS_substring_eq by lia. replace (S i - i) with 1 by lia.
  revert i H Hlt. induction s as [|d s IH]; intros i H Hlt; [simpl in Hlt; lia|].
  destruct i as [|i]; simpl in *.
  - inversion H; subst. destruct s; reflexivity.
  - apply IH; [exact H|lia].
Qed.

(** The three pieces of a string around a span. *)
Lemma pieces (s : string) (i j : nat) :
  i <= j -> j <= String.length s ->
  s = JS.substring s 0 i +:+ JS.substring s i j +:+ JS.drop j s.
Proof.
  intros Hi Hj. rewrite piece_drop by lia.
  rewrite <- (piece_split s i j) by lia.
  rewrite <- (piece_split s 0 i) by lia.
  symmetry. apply piece_whole.
Qed.

Lemma string_forall_impl (P Q : ascii -> bool) (s : string) :
  (forall c, P c = true -> Q c = true) ->
  string_forall P s = true -> string_forall Q s = true.
Proof.
  intros H. induction s as [|d s IH]; simpl; [reflexivity|].
  rewrite !andb_true_iff. intros [H1 H2]. split; [apply H; exact H1|apply IH; exact H2].
Qed.

End PieceFacts.

Section ReadFacts.
Variable fl : RegExp.Flags.
Variable s : string.
Hypothesis Hcase : RegExp.ignoreCase fl = false.

Lemma clear_no_caps (c : RegExp.caps) : RegExp.clear_caps [] c = c.
Proof.
  unfold RegExp.clear_caps, RegExp.caps in *.
  induction c as [|e c IH]; [reflexivity|].
  rewrite filter_cons_True by exact I. f_equal. exact IH.
Qed.

Lemma char_literal (a ch : ascii) :
  RegExp.char_matches fl (RegExp.Char a) ch = true -> ch = a.
Proof.
  unfold RegExp.char_matches, RegExp.set_has. rewrite Hcase. simpl.
  rewrite orb_false_r. intros H. apply Ascii.eqb_eq in H. congruence.
Qed.

(** A derivation of literal characters reads exactly these characters. *)
Lemma chars_then_reads (l : list ascii) (r : RegExp.regex) :
  forall i c j c',
    i <= String.length s ->
    derives fl s (chars_then l r) i c j c' ->
    i + List.length l <= String.length s /\
    JS.substring s i (i + List.length l) = string_of_list_ascii l /\
    derives fl s r (i + List.length l) c j c'.
Proof.
  induction l as [|a l IH]; intros i c j c' Hi H.
  - cbn [chars_then List.fold_right List.length] in *. rewrite Nat.add_0_r.
    split; [exact Hi|split; [|exact H]].
    apply PieceFacts.piece_empty. exact Hi.
  - cbn [chars_then List.fold_right] in H. fold (chars_then l r) in H.
    cbn [derives] in H.
    destruct H as (m & cm & (ch & Hg & Hc & -> & ->) & H).
    apply char_literal in Hc. subst ch.
    pose proof (get_Some_lt i s a Hg) as Hlt.
    apply IH in H as (Hb & Hp & H); [|lia].
    cbn [List.length]. rewrite Nat.add_succ_r.
    split; [exact Hb|split; [|exact H]].
    rewrite (PieceFacts.piece_split s i (S i)) by lia.
    change (S i + List.length l) with (S (i + List.length l)) in Hp.
    rewrite (PieceFacts.piece_one s i a Hg), Hp. reflexivity.
Qed.

(** Iterations of a character class read as many characters of it. *)
Lemma iterated_class (neg : bool) (items : list RegExp.ClassItem) (n : nat) :
  forall i c j c',
    iterated (derives fl s (RegExp.Class neg items)) [] n i c j c' ->
    j = i + n /\ c' = c /\ (0 < n -> j <= String.length s) /\
    forall p ch, i <= p < j -> String.get p s = Some ch ->
                 RegExp.char_matches fl (RegExp.Class neg items) ch = true.
Proof.
  induction n as [|n IH]; intros i c j c' H.
  - destruct H as [-> ->]. repeat split; intros; lia.
  - destruct H as (m & cm & (x & Hg & Hc & -> & ->) & H).
    rewrite clear_no_caps in H. apply IH in H as (-> & -> & Hb & Hall).
    pose proof (get_Some_lt i s x Hg) as Hlt.
    split; [lia|split; [reflexivity|split]].
    + intros _. destruct (Nat.eq_dec n 0) as [Hn|Hn]; [lia|].
      specialize (Hb ltac:(lia)). lia.
    + intros p ch Hp Hgp. destruct (Nat.eq_dec p i) as [->|Hne].
      * rewrite Hg in Hgp. inversion Hgp; subst. exact Hc.
      * apply (Hall p ch); [lia|exact Hgp].
Qed.

End ReadFacts.

Module IdFacts.
Import fileUtilsMore.

Lemma append_assoc (a b c : string) : (a +:+ b) +:+ c = a +:+ (b +:+ c).
Proof.
  induction a as [|d a IH]; [reflexivity|].
  change (String d a +:+ b) with (String d (a +:+ b)).
  change (String d (a +:+ b) +:+ c) with (String d ((a +:+ b) +:+ c)).
  rewrite IH. reflexivity.
Qed.

Lemma idPatterns_compile :
  idPatterns =
  [ RegExp.mkRegExp "arxiv\.org\/abs\/(\d{4}\.\d{4,5})"
      (chars_then (list_ascii_of_string "arxiv.org/abs/") (RegExp.Group 1 new_body)) no_flags;
    RegExp.mkRegExp "arxiv\.org\/pdf\/(\d{4}\.\d{4,5})"
      (chars_then (list_ascii_of_string "arxiv.org/pdf/") (RegExp.Group 1 new_body)) no_flags;
    RegExp.mkRegExp "arxiv\.org\/abs\/([a-z-]+\/\d{7})"
      (chars_then (list_ascii_of_string "arxiv.org/abs/") (RegExp.Group 1 old_body)) no_flags;
    RegExp.mkRegExp "arxiv\.org\/pdf\/([a-z-]+\/\d{7})"
      (chars_then (list_ascii_of_string "arxiv.org/pdf/") (RegExp.Group 1 old_body)) no_flags ].
Proof. reflexivity. Qed.

Lemma digit_class_digit (ch : ascii) :
  RegExp.char_matches no_flags digit_class ch = true -> JS.is_digit ch = true.
Proof.
  unfold RegExp.char_matches, digit_class, RegExp.set_has. simpl.
  rewrite orb_false_r. intros H; exact H.
Qed.

Lemma archive_class_char (ch : ascii) :
  RegExp.char_matches no_flags
    (RegExp.Class false [RegExp.CiRange "a" "z"; RegExp.CiChar "-"]) ch = true ->
  is_archive_char ch = true.
Proof.
  unfold RegExp.char_matches, RegExp.set_has, is_archive_char. simpl.
  rewrite orb_false_r. rewrite (Ascii.eqb_sym ch). intros H; exact H.
Qed.

(** What [n] iterations of a class from [i] give as a piece of the url. *)
Lemma class_piece (url : string) (neg : bool) (items : list RegExp.ClassItem)
    (P : ascii -> bool) (n i : nat) (c : RegExp.caps) (j : nat) (c' : RegExp.caps) :
  (forall ch, RegExp.char_matches no_flags (RegExp.Class neg items) ch = true -> P ch = true) ->
  0 < n ->
  iterated (derives no_flags url (RegExp.Class neg items)) [] n i c j c' ->
  j = i + n /\ c' = c /\ j <= String.length url /\
  string_forall P (JS.substring url i j) = true /\
  String.length (JS.substring url i j) = n.
Proof.
  intros HP Hn H. apply (iterated_class no_flags url) in H as (-> & -> & Hb & Hall).
  specialize (Hb Hn). repeat split; try assumption.
  - apply StringFacts.string_forall_JS_substring. intros p ch Hp Hg.
    apply HP. apply (Hall p ch); [lia|exact Hg].
  - rewrite PieceFacts.piece_length; lia.
Qed.

Lemma new_body_shape (url : string) (a e : nat) (c c0 : RegExp.caps) :
  derives no_flags url new_body a c e c0 ->
  a <= e <= String.length url /\ new_style (JS.substring url a e).
Proof.
  intros H. unfold new_body in H. cbn [derives digit_class RegExp.groups_of] in H.
  destruct H as (m & cm & (n & Hn & Hit) & m2 & cm2 & (ch & Hg & Hc & -> & ->)
                 & n2 & Hn2 & Hit2).
  unfold count_ok in Hn, Hn2.
  apply (class_piece url _ _ JS.is_digit) in Hit as (-> & -> & Hb & Hd & Hl);
    [|exact digit_class_digit|lia].
  apply (class_piece url _ _ JS.is_digit) in Hit2 as (-> & -> & Hb2 & Hd2 & Hl2);
    [|exact digit_class_digit|lia].
  apply (char_literal no_flags eq_refl) in Hc. subst ch.
  split; [lia|].
  exists (JS.substring url a (a + n)), (JS.substring url (S (a + n)) (S (a + n) + n2)).
  split; [|repeat split; try assumption; lia].
  rewrite (PieceFacts.piece_split url a (a + n)) by lia. f_equal.
  rewrite (PieceFacts.piece_split url (a + n) (S (a + n))) by lia.
  rewrite (PieceFacts.piece_one url _ _ Hg). reflexivity.
Qed.

Lemma old_body_shape (url : string) (a e : nat) (c c0 : RegExp.caps) :
  derives no_flags url old_body a c e c0 ->
  a <= e <= String.length url /\ old_style (JS.substring url a e).
Proof.
  intros H. unfold old_body in H. cbn [derives digit_class RegExp.groups_of] in H.
  destruct H as (m & cm & (n & Hn & Hit) & m2 & cm2 & (ch & Hg & Hc & -> & ->)
                 & n2 & Hn2 & Hit2).
  unfold count_ok in Hn, Hn2.
  apply (class_piece url _ _ is_archive_char) in Hit as (-> & -> & Hb & Hd & Hl);
    [|exact archive_class_char|lia].
  apply (class_piece url _ _ JS.is_digit) in Hit2 as (-> & -> & Hb2 & Hd2 & Hl2);
    [|exact digit_class_digit|lia].
  apply (char_literal no_flags eq_refl) in Hc. subst ch.
  split; [lia|].
  exists (JS.substring url a (a + n)), (JS.substring url (S (a + n)) (S (a + n) + n2)).
  split; [|repeat split; try assumption; lia].
  rewrite (PieceFacts.piece_split url a (a + n)) by lia. f_equal.
  rewrite (PieceFacts.piece_split url (a + n) (S (a + n))) by lia.
  rewrite (PieceFacts.piece_one url _ _ Hg). reflexivity.
Qed.

(** A match of [literal(group)] in a url: where it is and what group 1 is. *)
Lemma exec_reads (src : string) (l : list ascii) (body : RegExp.regex)
    (url : string) (m : RegExp.MatchResult) :
  fst (RegExp.exec (RegExp.mkRegExp src (chars_then l (RegExp.Group 1 body)) no_flags) url 0)
    = Some m ->
  exists i e c0,
    i + List.length l <= String.length url /\
    JS.substring url i (i + List.length l) = string_of_list_ascii l /\
    derives no_flags url body (i + List.length l) [] e c0 /\
    RegExp.group url m 1 = Some (JS.substring url (i + List.length l) e).
Proof.
  unfold RegExp.exec. cbn [RegExp.flags RegExp.global no_flags RegExp.ast].
  change (String.length url <? 0) with false. cbv iota.
  destruct (RegExp.search_from _ _ _ _ _) as [[[i e] c]|] eqn:Hs; [|discriminate].
  cbn [fst]. intros H; inversion H; subst m; clear H.
  apply search_from_spec in Hs as [Hi Hm].
  unfold RegExp.match_at in Hm.
  apply rmatch_sound in Hm as (j & c' & Hd & Hk). inversion Hk; subst j c'; clear Hk.
  apply (chars_then_reads no_flags url eq_refl) in Hd as (Hb & Hp & Hd); [|lia].
  cbn [derives] in Hd. destruct Hd as (c0 & Hd & ->).
  exists i, e, c0. repeat split; try assumption.
Qed.

Lemma id_in_url (url : string) (i e : nat) (lit : string) :
  i + String.length lit <= e -> e <= String.length url ->
  JS.substring url i (i + String.length lit) = lit ->
  url = JS.substring url 0 i +:+ lit +:+ JS.substring url (i + String.length lit) e
        +:+ JS.drop e url.
Proof.
  intros Hi He Hl.
  etransitivity; [apply (PieceFacts.pieces url i e); lia|]. f_equal.
  rewrite (PieceFacts.piece_split url i (i + String.length lit) e) by lia.
  rewrite Hl. apply append_assoc.
Qed.

End IdFacts.

(** X20 ([getArxivIdFromUrl]).  An identifier the function returns is
    a piece of the url that directly follows [arxiv.org/abs/] or
    [arxiv.org/pdf/], and it has one of the two forms: four digits, a
    dot and four or five digits; or one or more lower-case letters and
    hyphens, a slash and seven digits.  So a version suffix, or a sixth
    digit, is never part of it. *)
Theorem getArxivIdFromUrl_sound (url id : string) :
  fileUtilsMore.getArxivIdFromUrl url = Some id ->
  exists before kind after,
    url = before +:+ "arxiv.org/" +:+ kind +:+ "/" +:+ id +:+ after /\
    (kind = "abs" \/ kind = "pdf") /\
    (new_style id \/ old_style id).
Proof.
  unfold fileUtilsMore.getArxivIdFromUrl. rewrite IdFacts.idPatterns_compile.
  cbn [fileUtilsMore.firstMatch]. intros H.
  repeat match type of H with
  | match fst (RegExp.exec ?re url 0) with _ => _ end = _ =>
      destruct (fst (RegExp.exec re url 0)) as [m|] eqn:Hm;
        [apply IdFacts.exec_reads in Hm as (i & e & c0 & Hb & Hl & Hd & Hg);
         rewrite Hg in H; injection H as <-; clear Hg|clear Hm]
  end; try discriminate H.
  - apply IdFacts.new_body_shape in Hd as [He Hs].
    exists (JS.substring url 0 i), "abs", (JS.drop e url).
    split; [|split; [left; reflexivity|left; exact Hs]].
    apply (IdFacts.id_in_url url i e "arxiv.org/abs/"); [exact (proj1 He)|exact (proj2 He)|exact Hl].
  - apply IdFacts.new_body_shape in Hd as [He Hs].
    exists (JS.substring url 0 i), "pdf", (JS.drop e url).
    split; [|split; [right; reflexivity|left; exact Hs]].
    apply (IdFacts.id_in_url url i e "arxiv.org/pdf/"); [exact (proj1 He)|exact (proj2 He)|exact Hl].
  - apply IdFacts.old_body_shape in Hd as [He Hs].
    exists (JS.substring url 0 i), "abs", (JS.drop e url).
    split; [|split; [left; reflexivity|right; exact Hs]].
    apply (IdFacts.id_in_url url i e "arxiv.org/abs/"); [exact (proj1 He)|exact (proj2 He)|exact Hl].
  - apply IdFacts.old_body_shape in Hd as [He Hs].
    exists (JS.substring url 0 i), "pdf", (JS.drop e url).
    split; [|split; [right; reflexivity|right; exact Hs]].
    apply (IdFacts.id_in_url url i e "arxiv.org/pdf/"); [exact (proj1 He)|exact (proj2 He)|exact Hl].
Qed.

Lemma getArxivIdFromUrl_sound_witness :
  fileUtilsMore.getArxivIdFromUrl "https://arxiv.org/abs/2301.00001v2" = Some "2301.00001" /\
  exists before kind after,
    "https://arxiv.org/abs/2301.00001v2" =
      before +:+ "arxiv.org/" +:+ kind +:+ "/" +:+ "2301.00001" +:+ after /\
    (kind = "abs" \/ kind = "pdf") /\
    (new_style "2301.00001" \/ old_style "2301.00001").
Proof.
  split; [reflexivity|].
  apply (getArxivIdFromUrl_sound "https://arxiv.org/abs/2301.00001v2" "2301.00001").
  reflexivity.
Defined.

(** ** Runs of underscores *)

Module UnderscoreFacts.

Lemma starts_get (t : string) :
  starts_with_underscore t = true <-> String.get 0 t = Some "_"%char.
Proof.
  destruct t as [|c t]; simpl; [split; discriminate|].
  unfold is_underscore. rewrite Ascii.eqb_eq. split; congruence.
Qed.

Lemma ends_get (t : string) :
  ends_with_underscore t = true ->
  0 < String.length t /\ String.get (String.length t - 1) t = Some "_"%char.
Proof.
  induction t as [|c t IH]; [discriminate|].
  destruct t as [|d t].
  - simpl. unfold is_underscore. rewrite Ascii.eqb_eq. intros ->. split; [lia|reflexivity].
  - intros H. change (ends_with_underscore (String d t) = true) in H.
    apply IH in H as [H1 H2]. split; [simpl; lia|].
    simpl String.length in *. replace (S (S (String.length t)) - 1) with (S (S (String.length t) - 1)) by lia.
    exact H2.
Qed.

Lemma no_double_get (t : string) :
  no_double_underscore t = true <->
  (forall k, String.get k t = Some "_"%char -> String.get (S k) t = Some "_"%char -> False).
Proof.
  induction t as [|c t IH].
  - split; [intros _ k H; destruct k; discriminate|reflexivity].
  - cbn [no_double_underscore]. rewrite andb_true_iff, IH, negb_true_iff. split.
    + intros [Hc Ht] [|k] H0 H1.
      * simpl in H0, H1. inversion H0; subst c.
        apply starts_get in H1. rewrite H1 in Hc. discriminate Hc.
      * apply (Ht k); assumption.
    + intros H. split.
      * destruct (is_underscore c) eqn:Ec; [|reflexivity].
        destruct (starts_with_underscore t) eqn:Es; [|reflexivity].
        exfalso. apply (H 0).
        -- simpl. unfold is_underscore in Ec. apply Ascii.eqb_eq in Ec. congruence.
        -- simpl. apply starts_get. exact Es.
      * intros k H0 H1. apply (H (S k)); assumption.
Qed.

Lemma no_double_append (a b : string) :
  no_double_underscore (a +:+ b) =
  no_double_underscore a && no_double_underscore b
  && negb (ends_with_underscore a && starts_with_underscore b).
Proof.
  induction a as [|c a IH].
  - simpl. rewrite andb_true_r. reflexivity.
  - change (String c a +:+ b) with (String c (a +:+ b)).
    cbn [no_double_underscore]. rewrite IH. destruct a as [|d a].
    + change (EmptyString +:+ b) with b. simpl.
      destruct (is_underscore c), (starts_with_underscore b),
        (no_double_underscore b); reflexivity.
    + change (String d a +:+ b) with (String d (a +:+ b)).
      change (ends_with_underscore (String c (String d a)))
        with (ends_with_underscore (String d a)).
      cbn [starts_with_underscore].
      destruct (is_underscore c), (is_underscore d),
        (no_double_underscore (String d a)), (no_double_underscore b),
        (ends_with_underscore (String d a)), (starts_with_underscore b); reflexivity.
Qed.

Lemma starts_append (a b : string) :
  starts_with_underscore (a +:+ b) =
  match a with EmptyString => starts_with_underscore b | _ => starts_with_underscore a end.
Proof. destruct a; reflexivity. Qed.

(** A piece of a text without two underscores in a row has none. *)
Lemma no_double_substring (s : string) (n m : nat) :
  (forall p, n <= p -> S p < n + m ->
             String.get p s = Some "_"%char -> String.get (S p) s = Some "_"%char -> False) ->
  no_double_underscore (String.substring n m s) = true.
Proof.
  intros H. apply no_double_get. intros k H0 H1.
  destruct (Nat.lt_ge_cases (S k) m) as [Hk|Hk].
  - rewrite String.substring_correct1 in H0, H1 by lia.
    apply (H (k + n)); [lia|lia|exact H0|exact H1].
  - rewrite String.substring_correct2 in H1 by lia. discriminate.
Qed.

Lemma starts_substring (s : string) (n m : nat) :
  starts_with_underscore (String.substring n m s) = true ->
  0 < m /\ String.get n s = Some "_"%char.
Proof.
  intros H. apply starts_get in H. destruct m as [|m].
  - rewrite String.substring_correct2 in H by lia. discriminate.
  - rewrite String.substring_correct1 in H by lia. split; [lia|exact H].
Qed.

Lemma ends_substring (s : string) (n m : nat) :
  n + m <= String.length s ->
  ends_with_underscore (String.substring n m s) = true ->
  0 < m /\ String.get (n + m - 1) s = Some "_"%char.
Proof.
  intros Hb H. apply ends_get in H as [H1 H2].
  rewrite PieceFacts.length_substring in H1, H2 by exact Hb.
  rewrite String.substring_correct1 in H2 by lia.
  split; [exact H1|]. replace (n + m - 1) with (m - 1 + n) by lia. exact H2.
Qed.

Section Greedy.
Variable s : string.
Local Abbreviation fl := (RegExp.flags underscores).
Local Abbreviation done := (fun (j : nat) (c : RegExp.caps) => Some (j, c)).

(** The greedy run: [_{min,}] reads all the underscores there are, and
    fails only when there are fewer than [min]. *)
Lemma greedy_run :
  forall fuel min i c,
    String.length s - i < fuel ->
    match RegExp.repeat (fun j c' k' => RegExp.rmatch fl s _ (RegExp.Char "_") j c' k')
            [] true done fuel min None i c with
    | Some (e, c') =>
        c' = c /\ i + min <= e /\
        (forall p, i <= p < e -> String.get p s = Some "_"%char) /\
        String.get e s <> Some "_"%char
    | None => exists p, i <= p < i + min /\ String.get p s <> Some "_"%char
    end.
Proof.
  induction fuel as [|fuel IH]; intros min i c Hf; [lia|].
  cbn [RegExp.repeat RegExp.rmatch option_map]. rewrite clear_no_caps.
  unfold RegExp.step1.
  destruct (String.get i s) as [ch|] eqn:Hg.
  - destruct (RegExp.char_matches fl (RegExp.Char "_") ch) eqn:Hc.
    + apply (char_literal fl eq_refl) in Hc. subst ch.
      pose proof (get_Some_lt i s _ Hg) as Hlt.
      assert (Hne : (S i =? i) = false) by (apply Nat.eqb_neq; lia).
      rewrite Hne, andb_false_r.
      specialize (IH (pred min) (S i) c ltac:(lia)).
      destruct (RegExp.repeat _ [] true done fuel (pred min) None (S i) c)
        as [[e c']|] eqn:Er.
      * destruct IH as (-> & He & Hall & Hend).
        assert (Hres : c = c /\ i + min <= e /\
                       (forall p, i <= p < e -> String.get p s = Some "_"%char) /\
                       String.get e s <> Some "_"%char).
        { repeat split; [lia| |exact Hend].
          intros p Hp. destruct (Nat.eq_dec p i) as [->|Hn]; [exact Hg|apply Hall; lia]. }
        destruct (min =? 0); exact Hres.
      * destruct IH as (p & Hp & Hpg).
        destruct (min =? 0) eqn:Hmin; cbn [negb].
        -- apply Nat.eqb_eq in Hmin. subst min. simpl in Hp. lia.
        -- apply Nat.eqb_neq in Hmin. exists p. split; [lia|exact Hpg].
    + assert (Hch : Some ch <> Some "_"%char).
      { intros E. inversion E; subst ch. vm_compute in Hc. discriminate Hc. }
      destruct (min =? 0) eqn:Hmin; cbn [negb].
      * apply Nat.eqb_eq in Hmin. subst min.
        repeat split; [lia|intros p Hp; lia|congruence].
      * apply Nat.eqb_neq in Hmin. exists i. split; [lia|congruence].
  - destruct (min =? 0) eqn:Hmin; cbn [negb].
    + apply Nat.eqb_eq in Hmin. subst min.
      repeat split; [lia|intros p Hp; lia|congruence].
    + apply Nat.eqb_neq in Hmin. exists i. split; [lia|congruence].
Qed.

Lemma match_run (p e : nat) (c : RegExp.caps) :
  RegExp.match_at fl s (RegExp.ast underscores) p = Some (e, c) ->
  p + 2 <= e /\ (forall q, p <= q < e -> String.get q s = Some "_"%char) /\
  String.get e s <> Some "_"%char.
Proof.
  change (RegExp.ast underscores) with (RegExp.Rep 2 None true (RegExp.Char "_")).
  unfold RegExp.match_at. cbn [RegExp.rmatch RegExp.groups_of]. intros H.
  pose proof (greedy_run (RegExp.repeat_fuel s 2 p) 2 p []) as G.
  cbn [RegExp.rmatch] in G. rewrite H in G. destruct G as (_ & G); [unfold RegExp.repeat_fuel; lia|exact G].
Qed.

Lemma no_match_no_pair (p : nat) :
  RegExp.match_at fl s (RegExp.ast underscores) p = None ->
  String.get p s = Some "_"%char -> String.get (S p) s = Some "_"%char -> False.
Proof.
  change (RegExp.ast underscores) with (RegExp.Rep 2 None true (RegExp.Char "_")).
  unfold RegExp.match_at. cbn [RegExp.rmatch RegExp.groups_of]. intros H H0 H1.
  pose proof (greedy_run (RegExp.repeat_fuel s 2 p) 2 p []) as G.
  cbn [RegExp.rmatch] in G. rewrite H in G. destruct G as (q & Hq & Hn); [unfold RegExp.repeat_fuel; lia|].
  assert (q = p \/ q = S p) as [-> | ->] by lia; congruence.
Qed.

End Greedy.
End UnderscoreFacts.

Module UnderscoreLoop.
Import UnderscoreFacts.

Lemma starts_append_inv (a b : string) :
  starts_with_underscore (a +:+ b) = true ->
  starts_with_underscore a = true \/ (a = EmptyString /\ starts_with_underscore b = true).
Proof. destruct a; [right; split; [reflexivity|assumption]|left; assumption]. Qed.

(** The last replacement leaves no two underscores in a row, and what
    follows a replaced run does not start with an underscore. *)
Lemma replace_loop_no_double (s : string) :
  forall fuel pos,
    S (String.length s) - pos < fuel -> pos <= String.length s ->
    no_double_underscore (RegExp.replace_loop underscores "_" s fuel pos) = true /\
    (String.get pos s <> Some "_"%char ->
     starts_with_underscore (RegExp.replace_loop underscores "_" s fuel pos) = false).
Proof.
  induction fuel as [|fuel IH]; intros pos Hf Hpos; [lia|].
  cbn [RegExp.replace_loop].
  assert (El : (String.length s <? pos) = false) by (apply Nat.ltb_ge; lia).
  rewrite El.
  destruct (RegExp.search_from _ s _ (S (String.length s - pos)) pos)
    as [[[i e] c]|] eqn:Es.
  - pose proof (search_from_first _ _ _ _ _ _ _ Es) as Hfirst.
    apply search_from_spec in Es as [Hi Hm].
    pose proof (match_at_bounds _ _ _ _ _ _ Hm) as (_ & He & _).
    apply match_run in Hm as (Hie & Hall & Hend).
    assert (Hei : (e =? i) = false) by (apply Nat.eqb_neq; lia). rewrite Hei.
    destruct (IH e ltac:(lia) ltac:(lia)) as [Hnd Hst]. specialize (Hst Hend).
    assert (Hends : ends_with_underscore (JS.substring s pos i) = false).
    { destruct (ends_with_underscore (JS.substring s pos i)) eqn:Ee; [|reflexivity].
      exfalso. rewrite PieceFacts.JS_substring_eq in Ee by lia.
      apply ends_substring in Ee as [Hlen Hg]; [|lia].
      apply (no_match_no_pair s (pos + (i - pos) - 1)).
      - apply Hfirst. lia.
      - exact Hg.
      - replace (S (pos + (i - pos) - 1)) with i by lia. apply Hall. lia. }
    split.
    + rewrite no_double_append, Hends. cbn [andb negb]. rewrite andb_true_r.
      apply andb_true_iff. split.
      * rewrite PieceFacts.JS_substring_eq by lia. apply no_double_substring.
        intros p Hp1 Hp2. apply no_match_no_pair. apply Hfirst. lia.
      * change ("_" +:+ ?x) with (String "_"%char x).
        change (no_double_underscore (String "_" (RegExp.replace_loop underscores "_" s fuel e)))
          with (negb (is_underscore "_" && starts_with_underscore (RegExp.replace_loop underscores "_" s fuel e))
                && no_double_underscore (RegExp.replace_loop underscores "_" s fuel e)).
        rewrite Hst, Hnd. reflexivity.
    + intros Hp.
      destruct (starts_with_underscore (JS.substring s pos i +:+ "_" +:+ _)) eqn:E;
        [|reflexivity].
      exfalso. apply starts_append_inv in E as [E|[E _]].
      * rewrite PieceFacts.JS_substring_eq in E by lia.
        apply starts_substring in E as [_ E]. exact (Hp E).
      * pose proof (PieceFacts.piece_length s pos i ltac:(lia) ltac:(lia)) as Hl.
        rewrite E in Hl. simpl in Hl. assert (i = pos) by lia. subst i.
        apply Hp. apply Hall. lia.
  - pose proof (search_from_none _ _ _ _ Es) as Hnone. split.
    + unfold JS.drop. apply no_double_substring.
      intros p Hp1 Hp2. apply no_match_no_pair. apply Hnone. lia.
    + intros Hp. destruct (starts_with_underscore (JS.drop pos s)) eqn:E; [|reflexivity].
      exfalso. unfold JS.drop in E. apply starts_substring in E as [_ E]. exact (Hp E).
Qed.

Lemma no_double_piece (t : string) (a b : nat) :
  no_double_underscore t = true -> no_double_underscore (JS.substring t a b) = true.
Proof.
  intros H. unfold JS.substring. apply no_double_substring.
  intros p _ _. apply (proj1 (no_double_get t) H).
Qed.

End UnderscoreLoop.

Lemma sanitized_no_double (filename : string) :
  no_double_underscore (fileUtils.sanitizeFilename filename) = true.
Proof.
  unfold fileUtils.sanitizeFilename. apply UnderscoreLoop.no_double_piece.
  unfold RegExp.replace.
  apply (UnderscoreLoop.replace_loop_no_double _ _ 0); lia.
Qed.

(** X21 ([sanitizeFilename]).  The name it returns never holds two
    underscores in a row, whatever the input: the last replacement
    takes every run of underscores whole. *)
Theorem sanitizeFilename_no_double_underscore (filename : string) :
  no_double_underscore (fileUtils.sanitizeFilename filename) = true.
Proof. exact (sanitized_no_double filename). Qed.

Module IdempotenceFacts.

Lemma search_from_all_none (fl : RegExp.Flags) (s : string) (r : RegExp.regex) :
  forall n i0,
    (forall p, i0 <= p < i0 + n -> RegExp.match_at fl s r p = None) ->
    RegExp.search_from fl s r n i0 = None.
Proof.
  induction n as [|n IH]; intros i0 H; [reflexivity|].
  cbn [RegExp.search_from]. rewrite (H i0) by lia. apply IH.
  intros p Hp. apply H. lia.
Qed.

(** A global replacement whose pattern matches nowhere returns its input. *)
Lemma replace_none (re : RegExp.t) (by_ s : string) :
  (forall p, RegExp.match_at (RegExp.flags re) s (RegExp.ast re) p = None) ->
  RegExp.replace re by_ s = s.
Proof.
  intros H. unfold RegExp.replace.
  replace (String.length s + 2) with (S (String.length s + 1)) by lia.
  cbn [RegExp.replace_loop]. change (String.length s <? 0) with false. cbv iota.
  rewrite search_from_all_none by (intros p _; apply H).
  unfold JS.drop. rewrite Nat.sub_0_r. apply PieceFacts.substring_full.
Qed.

Lemma invalid_none (s : string) (p : nat) :
  string_forall clean s = true ->
  RegExp.match_at (RegExp.flags fileUtils.invalid_chars) s
                  (RegExp.ast fileUtils.invalid_chars) p = None.
Proof.
  intros Hs. unfold RegExp.match_at.
  change (RegExp.ast fileUtils.invalid_chars)
    with (RegExp.Class false
            [RegExp.CiChar "<"; RegExp.CiChar ">"; RegExp.CiChar ":";
             RegExp.CiChar JS.dquote; RegExp.CiChar "/"; RegExp.CiChar "\";
             RegExp.CiChar "|"; RegExp.CiChar "?"; RegExp.CiChar "*"]).
  cbn [RegExp.rmatch]. unfold RegExp.step1.
  destruct (String.get p s) as [c|] eqn:Hg; [|reflexivity].
  pose proof (proj1 (StringFacts.string_forall_get clean s) Hs p c Hg) as Hc.
  unfold clean in Hc. apply andb_true_iff in Hc as [Hc _].
  pose proof (SanitizeFacts.invalid_chars_class c) as E.
  change (RegExp.ast fileUtils.invalid_chars)
    with (RegExp.Class false
            [RegExp.CiChar "<"; RegExp.CiChar ">"; RegExp.CiChar ":";
             RegExp.CiChar JS.dquote; RegExp.CiChar "/"; RegExp.CiChar "\";
             RegExp.CiChar "|"; RegExp.CiChar "?"; RegExp.CiChar "*"]) in E.
  rewrite E. destruct (is_invalid c); [discriminate Hc|reflexivity].
Qed.

Lemma spaces_none (s : string) (p : nat) :
  string_forall clean s = true ->
  RegExp.match_at (RegExp.flags spaces) s (RegExp.ast spaces) p = None.
Proof.
  intros Hs.
  change (RegExp.ast spaces)
    with (RegExp.Rep 1 None true (RegExp.Class false [RegExp.CiSpace false])).
  unfold RegExp.match_at. cbn [RegExp.rmatch]. unfold RegExp.repeat_fuel.
  cbn [RegExp.repeat Nat.eqb negb Nat.add]. cbn [RegExp.rmatch].
  unfold RegExp.step1 at 1.
  destruct (String.get p s) as [c|] eqn:Hg; [|reflexivity].
  pose proof (proj1 (StringFacts.string_forall_get clean s) Hs p c Hg) as Hc.
  unfold clean in Hc. apply andb_true_iff in Hc as [_ Hc].
  assert (E : RegExp.char_matches (RegExp.flags spaces)
                (RegExp.Class false [RegExp.CiSpace false]) c = false).
  { vm_compute RegExp.flags. cbn. destruct (JS.is_white c); [discriminate Hc|reflexivity]. }
  rewrite E. reflexivity.
Qed.

Lemma underscores_none (s : string) (p : nat) :
  no_double_underscore s = true ->
  RegExp.match_at (RegExp.flags underscores) s (RegExp.ast underscores) p = None.
Proof.
  intros Hs.
  destruct (RegExp.match_at _ s _ p) as [[e c]|] eqn:Hm; [|reflexivity].
  exfalso. apply UnderscoreFacts.match_run in Hm as (He & Hall & _).
  apply (proj1 (UnderscoreFacts.no_double_get s) Hs p); apply Hall; lia.
Qed.

Lemma short_piece (t : string) (n : nat) :
  String.length t <= n -> JS.substring t 0 n = t.
Proof.
  intros H. unfold JS.substring.
  rewrite (Nat.min_r n), Nat.min_0_l, Nat.min_0_l, Nat.max_0_l, Nat.sub_0_r by lia.
  apply PieceFacts.substring_full.
Qed.

End IdempotenceFacts.

(** X22 ([sanitizeFilename]).  Sanitizing is idempotent: a name it has
    returned is returned unchanged, none of the three patterns matches
    in it and it is short enough. *)
Theorem sanitizeFilename_idempotent (filename : string) :
  fileUtils.sanitizeFilename (fileUtils.sanitizeFilename filename)
  = fileUtils.sanitizeFilename filename.
Proof.
  pose proof (sanitized_clean filename) as Hc.
  pose proof (sanitized_no_double filename) as Hn.
  assert (Hl : String.length (fileUtils.sanitizeFilename filename) <= 200).
  { unfold fileUtils.sanitizeFilename, JS.substring.
    etransitivity; [apply StringFacts.length_substring_le|]. lia. }
  set (t := fileUtils.sanitizeFilename filename) in *.
  unfold fileUtils.sanitizeFilename.
  rewrite (IdempotenceFacts.replace_none fileUtils.invalid_chars)
    by (intros p; apply IdempotenceFacts.invalid_none; exact Hc).
  rewrite (IdempotenceFacts.replace_none (RegExp.literal "\s+" "g"))
    by (intros p; apply (IdempotenceFacts.spaces_none t p Hc)).
  rewrite (IdempotenceFacts.replace_none (RegExp.literal "_{2,}" "g"))
    by (intros p; apply (IdempotenceFacts.underscores_none t p Hn)).
  apply IdempotenceFacts.short_piece. exact Hl.
Qed.

(** X23 (the [list_downloaded_papers] and [get_storage_stats] tools).
    On a catalog with unique keys the two tools agree when one follows
    the other: the list tool returns the summaries of the papers whose
    artifact exists, in catalog order, with their number as totalPapers;
    the stats tool called next reports the same number, as totalSize the
    sum of the fileSize fields just listed, and changes nothing more. *)
Theorem list_and_stats_tools_agree (st : State) :
  Map.wf (metadata st) ->
  exists out stats,
    Tools.listDownloadedPapers st = (Return out, pruned st) /\
    Tools.getStorageStats (pruned st) = (Return stats, pruned st) /\
    Tools.lo_papers out = List.map (fun e => summary (snd e)) (survivors st) /\
    Tools.lo_totalPapers out = List.length (Tools.lo_papers out) /\
    StorageMaintenance.totalPapers stats = Tools.lo_totalPapers out /\
    StorageMaintenance.totalSize stats
    = list_sum (List.map Tools.ps_fileSize (Tools.lo_papers out)).
Proof.
  intros Hwf.
  unfold Tools.listDownloadedPapers, Tools.getStorageStats,
    StorageMaintenance.getStorageStats, bind, ret.
  rewrite (StorageFacts.list_spec st Hwf).
  rewrite (StorageFacts.list_spec (pruned st)) by (apply StorageFacts.pruned_wf, Hwf).
  rewrite StorageFacts.survivors_pruned, StorageFacts.pruned_idem.
  eexists _, _. split; [reflexivity|split; [reflexivity|]].
  cbn [Tools.lo_papers Tools.lo_totalPapers StorageMaintenance.totalPapers
       StorageMaintenance.totalSize].
  rewrite StorageMore2.sum_sizes, !length_map, !map_map.
  repeat split; reflexivity.
Qed.

Lemma list_and_stats_tools_agree_witness :
  Map.wf (metadata two_papers) /\
  exists out stats,
    Tools.listDownloadedPapers two_papers = (Return out, pruned two_papers) /\
    Tools.getStorageStats (pruned two_papers) = (Return stats, pruned two_papers) /\
    Tools.lo_papers out = List.map (fun e => summary (snd e)) (survivors two_papers) /\
    Tools.lo_totalPapers out = List.length (Tools.lo_papers out) /\
    StorageMaintenance.totalPapers stats = Tools.lo_totalPapers out /\
    StorageMaintenance.totalSize stats
    = list_sum (List.map Tools.ps_fileSize (Tools.lo_papers out)).
Proof.
  assert (Hwf : Map.wf (metadata two_papers)).
  { repeat constructor; simpl; [intros [H|[]]; discriminate H|intros []]. }
  split; [exact Hwf|]. exact (list_and_stats_tools_agree two_papers Hwf).
Defined.

(* ===================================================================== *)
(** * Part XVII: the prompt catalog                                      *)
(* ===================================================================== *)

Module PromptFacts.
Import PromptManager.

Lemma delete_set_fresh {V} (k : string) (v : V) (m : list (string * V)) :
  Map.get k m = None -> Map.delete k (Map.set k v m) = m.
Proof.
  unfold Map.delete. induction m as [|[k' v'] m IH]; simpl.
  - rewrite String.eqb_refl. reflexivity.
  - destruct (String.eqb k' k) eqn:E; [discriminate|]. intros H.
    simpl. rewrite E. simpl. rewrite IH by exact H. reflexivity.
Qed.

Lemma savePrompts_prompts (st : Store) : prompts (snd (savePrompts st)) = prompts st.
Proof. unfold savePrompts. destruct (prompts_writable st); reflexivity. Qed.

Lemma deletePrompt_prompts (promptId : string) (st : Store) :
  prompts (snd (deletePrompt promptId st)) = prompts st \/
  (is_default promptId = false /\
   prompts (snd (deletePrompt promptId st)) = Map.delete promptId (prompts st)).
Proof.
  unfold deletePrompt. fold (is_default promptId).
  destruct (is_default promptId) eqn:Ed; [left; reflexivity|].
  destruct (Map.get promptId (prompts st)); [|left; reflexivity].
  right. split; [reflexivity|].
  pose proof (savePrompts_prompts (set_prompts (Map.delete promptId (prompts st)) st)) as H.
  destruct (savePrompts _) as [[u|e] st']; exact H.
Qed.

End PromptFacts.

(** X24 ([PromptManager.deletePrompt]).  No call of [deletePrompt]
    removes or changes a default prompt, whatever identifier it is given
    and whether or not the prompts file can be written; and for a
    default identifier it returns false and does nothing at all. *)
Theorem deletePrompt_keeps_defaults (st : PromptManager.Store) (promptId d : string) :
  is_default d = true ->
  PromptManager.getPrompt d (snd (PromptManager.deletePrompt promptId st))
  = PromptManager.getPrompt d st /\
  PromptManager.deletePrompt d st = (Return false, st).
Proof.
  intros Hd. split.
  - unfold PromptManager.getPrompt.
    destruct (PromptFacts.deletePrompt_prompts promptId st) as [->|[Hn ->]]; [reflexivity|].
    apply StorageMore.get_delete_ne. intros ->. congruence.
  - unfold PromptManager.deletePrompt. fold (is_default d). rewrite Hd. reflexivity.
Qed.

Lemma deletePrompt_keeps_defaults_witness :
  PromptManager.getPrompt "summary"
    (snd (PromptManager.deletePrompt "eli5" (snd (PromptManager.addCustomPrompt custom_prompt one_prompt))))
  = Some summary_prompt /\
  PromptManager.deletePrompt "summary" one_prompt = (Return false, one_prompt).
Proof.
  split.
  - rewrite (proj1 (deletePrompt_keeps_defaults
                      (snd (PromptManager.addCustomPrompt custom_prompt one_prompt))
                      "eli5" "summary" eq_refl)).
    reflexivity.
  - exact (proj2 (deletePrompt_keeps_defaults one_prompt "summary" "summary" eq_refl)).
Defined.

(** X25 ([PromptManager.addCustomPrompt]).  The prompt is filed under
    its identifier before the file is written, so [getPrompt] returns it
    afterwards even when the call throws; no other prompt changes; the
    call returns exactly when the prompts file can be written, and then
    the file holds the catalog.  Nothing is checked about the identifier:
    a default prompt, which cannot be deleted, can be replaced. *)
Theorem addCustomPrompt_files_any_prompt (st : PromptManager.Store) (prompt : AnalysisPrompt) :
  let r := PromptManager.addCustomPrompt prompt st in
  PromptManager.getPrompt (ap_id prompt) (snd r) = Some prompt /\
  (forall k, k <> ap_id prompt ->
             PromptManager.getPrompt k (snd r) = PromptManager.getPrompt k st) /\
  (if PromptManager.prompts_writable st
   then fst r = Return tt /\
        PromptManager.prompts_json (snd r) = Some (PromptManager.prompts (snd r))
   else fst r = Throw (Errors.System "EACCES" "permission denied") /\
        PromptManager.prompts_json (snd r) = PromptManager.prompts_json st).
Proof.
  intros r. subst r. unfold PromptManager.addCustomPrompt, PromptManager.getPrompt.
  rewrite !PromptFacts.savePrompts_prompts. cbn [PromptManager.set_prompts PromptManager.prompts].
  split; [apply StorageFacts.get_set|].
  split; [intros k Hk; apply StorageMore.get_set_ne, Hk|].
  unfold PromptManager.savePrompts, PromptManager.set_prompts.
  cbn [PromptManager.prompts_writable].
  destruct (PromptManager.prompts_writable st); split; reflexivity.
Qed.

(** X26 ([addCustomPrompt] then [deletePrompt]).  Adding a prompt under
    an identifier that is neither a default one nor in use, and deleting
    it again, gives back the catalog as it was, in memory and in the
    file, and [deletePrompt] returns true. *)
Theorem add_then_delete_prompt (st : PromptManager.Store) (prompt : AnalysisPrompt) :
  is_default (ap_id prompt) = false ->
  PromptManager.getPrompt (ap_id prompt) st = None ->
  PromptManager.prompts_writable st = true ->
  PromptManager.deletePrompt (ap_id prompt) (snd (PromptManager.addCustomPrompt prompt st))
  = (Return true,
     PromptManager.mkStore (PromptManager.prompts st)
                           (Some (PromptManager.prompts st)) true).
Proof.
  intros Hd Hg Hw.
  unfold PromptManager.addCustomPrompt, PromptManager.savePrompts,
    PromptManager.set_prompts.
  cbn [PromptManager.prompts_writable]. rewrite Hw. cbn [snd].
  unfold PromptManager.deletePrompt. fold (is_default (ap_id prompt)). rewrite Hd.
  cbn [PromptManager.prompts]. rewrite StorageFacts.get_set.
  unfold PromptManager.savePrompts, PromptManager.set_prompts.
  cbn [PromptManager.prompts_writable PromptManager.prompts].
  rewrite PromptFacts.delete_set_fresh by exact Hg. reflexivity.
Qed.

Lemma add_then_delete_prompt_witness :
  PromptManager.deletePrompt "eli5" (snd (PromptManager.addCustomPrompt custom_prompt one_prompt))
  = (Return true, one_prompt).
Proof.
  exact (add_then_delete_prompt one_prompt custom_prompt eq_refl eq_refl eq_refl).
Defined.

(* ===================================================================== *)
(** * Part XVIII: the catalog after a restart                            *)
(* ===================================================================== *)

(** X27 ([StorageManager.loadMetadata] after [listDownloadedPapers]).
    When the metadata file holds the catalog, the entries [list()] drops
    from the catalog in memory are back after the next [loadMetadata]
    (the next start of the server): the file was not rewritten, and
    loading it gives the catalog as it was before the listing. *)
Theorem loadMetadata_undoes_pruning (st : State) :
  Map.wf (metadata st) ->
  metadata_json (world st) = Some (metadata st) ->
  let st' := snd (StorageManager.listDownloadedPapers st) in
  metadata st' = survivors st /\
  StorageManager.loadMetadata st' = (Return tt, st).
Proof.
  intros Hwf Hfile st'. subst st'.
  rewrite (StorageFacts.list_spec st Hwf). cbn [snd].
  split; [reflexivity|].
  unfold StorageManager.loadMetadata, fileUtils.readJsonFile_metadata, bind, gets.
  unfold pruned. cbn [world]. rewrite Hfile.
  unfold modify, set_metadata. cbn [world metadata]. destruct st; reflexivity.
Qed.

Lemma loadMetadata_undoes_pruning_witness :
  metadata (snd (StorageManager.listDownloadedPapers missing_state)) = [] /\
  StorageManager.loadMetadata (snd (StorageManager.listDownloadedPapers missing_state))
  = (Return tt, missing_state).
Proof.
  assert (Hwf : Map.wf (metadata missing_state)).
  { repeat constructor; simpl; intros []. }
  exact (loadMetadata_undoes_pruning missing_state Hwf eq_refl).
Defined.
